(** * ddevil: the BIGSI index (src/bigsi.c) and the configuration record
      (src/config.c)

    A shallow embedding of the Berkeley-DB backed BIGSI of [src/bigsi.c]
    (lines 1-796) and of [src/config.c], with the properties of the
    specification stated over it.

    Conventions of the embedding.
    - A C [int] is a [Z]; where the source increments or converts one, the
      conversion is written out ([to_int32], [to_uint32], [to_uint64]).
    - A [char *] that may be [NULL] is an [option string].
    - A heap array ([colourArray], [tmpBitVectors]) is an
      [option (list (option A))]: [None] is the [NULL] pointer, the list has
      one element per allocated slot and a slot that holds nothing yet (or
      was released) is [None].  A write past the last slot is undefined in C
      and is a separate outcome of the model.
    - The files of one machine are a [world]: the JSON documents and the two
      kinds of Berkeley DB files, each keyed by file name. *)

From Stdlib Require Import ZArith Lia.
From stdpp Require Import base option list gmap strings fin_maps.

#[local] Open Scope Z_scope.

(** ** Machine integers *)

Definition INT_MAX : Z := 2 ^ 31 - 1.

(** Conversion of a mathematical integer to [int] (two's complement). *)
Definition to_int32 (z : Z) : Z := (z + 2 ^ 31) mod 2 ^ 32 - 2 ^ 31.

(** Conversion to [unsigned int]. *)
Definition to_uint32 (z : Z) : Z := z mod 2 ^ 32.

(** Conversion to [uint64_t]. *)
Definition to_uint64 (z : Z) : Z := z mod 2 ^ 64.

(** ** Bit vectors and Bloom filters *)

Module BitVector.

(** Modelled from the spec: the bit vector library (bitvector.h and its
    implementation are not part of the sources at hand).  The spec gives a
    fixed-capacity packed bit array with get/set that fail at an index
    beyond the capacity, popcount, clone, a bitwise OR into a destination
    and a bitwise AND in place, the last two on equal capacities.  The
    packing into bytes is not observable through these operations, so a
    vector is the list of its bits, bit [i] at position [i]. *)
Abbreviation bitvector_t := (list bool).

Definition capacity (bv : bitvector_t) : Z := Z.of_nat (length bv).

(** Modelled from the spec: bvInit, a vector of the given capacity with
    every bit clear. *)
Definition bvInit (cap : Z) : bitvector_t := replicate (Z.to_nat cap) false.

(** Modelled from the spec: bvGet, which fails when [i >= capacity]. *)
Definition bvGet (bv : bitvector_t) (i : Z) : option bool :=
  if (0 <=? i) && (i <? capacity bv) then bv !! Z.to_nat i else None.

(** Modelled from the spec: bvSet, which fails when [i >= capacity]. *)
Definition bvSet (bv : bitvector_t) (i : Z) (v : bool) : option bitvector_t :=
  if (0 <=? i) && (i <? capacity bv) then Some (<[Z.to_nat i := v]> bv) else None.

(** Modelled from the spec: bvClone. *)
Definition bvClone (bv : bitvector_t) : bitvector_t := bv.

Fixpoint popcount (bv : bitvector_t) : nat :=
  match bv with
  | [] => O
  | b :: bv' => ((if b then 1 else 0) + popcount bv')%nat
  end.

(** Modelled from the spec: bvCount, the number of bits set. *)
Definition bvCount (bv : bitvector_t) : Z := Z.of_nat (popcount bv).

(** Modelled from the spec: bvBOR a b dst, [dst := a | b]; it fails unless
    the three capacities agree.  The new contents of [dst] are returned. *)
Definition bvBOR (a b dst : bitvector_t) : option bitvector_t :=
  if (capacity a =? capacity b) && (capacity a =? capacity dst)
  then Some (zip_with orb a b) else None.

(** Modelled from the spec: bvBANDupdate dst src, [dst := dst & src]; it
    fails unless the capacities agree. *)
Definition bvBANDupdate (dst src : bitvector_t) : option bitvector_t :=
  if capacity dst =? capacity src then Some (zip_with andb dst src) else None.

End BitVector.
Export BitVector.

(** Modelled from the spec: the Bloom filter record (bloom.h is not part of
    the sources at hand); [bigsAdd] reads its hash count and its bit
    vector. *)
Record bloomfilter_t : Type := mkBloom {
  bf_numHashes : Z;
  bf_bitvector : bitvector_t
}.

(** ** Heap arrays *)

Section Arrays.
Context {A : Type}.

(** [malloc (count * sizeof ..)]: a negative count converts to a size no
    allocator serves; any other request is taken to succeed. *)
Definition alloc_array (count : Z) : option (list (option A)) :=
  if count <? 0 then None else Some (replicate (Z.to_nat count) None).

(** [realloc (arr, count * sizeof ..)]: the slots kept are unchanged. *)
Definition realloc_array (arr : list (option A)) (count : Z)
  : option (list (option A)) :=
  if count <? 0 then None else Some (resize (Z.to_nat count) None arr).

(** [arr[i] = v]; [None] when the write is outside the block. *)
Definition array_store (arr : option (list (option A))) (i : Z) (v : A)
  : option (list (option A)) :=
  match arr with
  | None => None
  | Some l =>
      if (0 <=? i) && (i <? Z.of_nat (length l))
      then Some (<[Z.to_nat i := Some v]> l) else None
  end.

(** [arr[i]], for a slot that holds a value. *)
Definition array_load (arr : option (list (option A))) (i : Z) : option A :=
  match arr with
  | None => None
  | Some l => if 0 <=? i then mjoin (l !! Z.to_nat i) else None
  end.

(** [free (arr[i])]: the slot holds nothing afterwards. *)
Definition array_free (arr : option (list (option A))) (i : Z)
  : option (list (option A)) :=
  match arr with
  | None => None
  | Some l => if 0 <=? i then Some (<[Z.to_nat i := None]> l) else Some l
  end.
End Arrays.

(** ** The BIGSI record *)

Record bigsi_t : Type := mkBigsi {
  numBits : Z;
  numHashes : Z;
  colourIterator : Z;
  indexed : bool;
  idChecker : gmap string Z;
  tmpBitVectors : option (list (option bitvector_t));
  colourArray : option (list (option string));
  dbDirectory : string;
  bitvectors_dbp : option string;   (* open handle: the file it is open on *)
  colours_dbp : option string;
  metadata_file : option string;
  bitvectors_db : option string;
  colours_db : option string
}.

(** bigsInit (bigsi.c:30).  The two assertions abort the program; that, like
    a failed allocation of the record, leaves no BIGSI. *)
Definition bigsInit (nBits nHashes : Z) (dbDir : string) : option bigsi_t :=
  if (0 <? nBits) && (0 <? nHashes) then
    Some {| numBits := nBits; numHashes := nHashes; colourIterator := 0;
            indexed := false; idChecker := ∅;
            tmpBitVectors := None; colourArray := None;
            dbDirectory := dbDir;
            bitvectors_dbp := None; colours_dbp := None;
            metadata_file := None; bitvectors_db := None; colours_db := None |}
  else None.

(** ** bigsAdd *)

(** The diagnostics [bigsAdd] prints before it returns -1. *)
Inductive add_error : Type :=
| AllocColourArray
| AllocBitVectorArray
| ReallocColourArray
| ReallocBitVectorArray
| DuplicateSequenceID (seqID : string)
| EmptyBloomFilter (seqID : string)
| IncompatibleBloomFilter (seqID : string)
| ColourLimitExceeded
| CountMismatch (read expected : Z).

(** How a call of [bigsAdd] ends: [return 0], [return -1] after a
    diagnostic, or a write outside [tmpBitVectors]/[colourArray] (more
    entries in the map than [numEntries] announced), which C leaves
    undefined. *)
Inductive add_status : Type :=
| ADD_OK
| ADD_ERR (e : add_error)
| ADD_UNDEFINED.

Definition add_return (s : add_status) : option Z :=
  match s with
  | ADD_OK => Some 0
  | ADD_ERR _ => Some (-1)
  | ADD_UNDEFINED => None
  end.

(** [map_get (&id2bf, seqID)] on the input map, given as the sequence of its
    entries in the order [map_next] yields them. *)
Fixpoint map_get (id2bf : list (string * bloomfilter_t)) (seqID : string)
  : option bloomfilter_t :=
  match id2bf with
  | [] => None
  | (k, bf) :: rest => if String.eqb k seqID then Some bf else map_get rest seqID
  end.

Definition set_arrays (b : bigsi_t) (ca : option (list (option string)))
    (tmp : option (list (option bitvector_t))) : bigsi_t :=
  {| numBits := numBits b; numHashes := numHashes b;
     colourIterator := colourIterator b; indexed := indexed b;
     idChecker := idChecker b; tmpBitVectors := tmp; colourArray := ca;
     dbDirectory := dbDirectory b;
     bitvectors_dbp := bitvectors_dbp b; colours_dbp := colours_dbp b;
     metadata_file := metadata_file b; bitvectors_db := bitvectors_db b;
     colours_db := colours_db b |}.

(** The record after ADD 1-3 and the increment of one loop iteration. *)
Definition record_colour (b : bigsi_t) (seqID : string)
    (tmp : option (list (option bitvector_t)))
    (ca : option (list (option string))) : bigsi_t :=
  {| numBits := numBits b; numHashes := numHashes b;
     colourIterator := to_int32 (colourIterator b + 1); indexed := indexed b;
     idChecker := <[seqID := colourIterator b]> (idChecker b);
     tmpBitVectors := tmp; colourArray := ca;
     dbDirectory := dbDirectory b;
     bitvectors_dbp := bitvectors_dbp b; colours_dbp := colours_dbp b;
     metadata_file := metadata_file b; bitvectors_db := bitvectors_db b;
     colours_db := colours_db b |}.

Section Add.
(** MAX_COLOURS is defined in bigsi.h, which is not part of the sources at
    hand; it is a parameter of the embedding. *)
Variable MAX_COLOURS : Z.

(** The allocation at the head of [bigsAdd] (bigsi.c:74-112). *)
Definition add_allocate (b : bigsi_t) (numEntries : Z) : add_status * bigsi_t :=
  match colourArray b with
  | None =>
      match alloc_array numEntries with
      | None => (ADD_ERR AllocColourArray, b)
      | Some ca =>
          match alloc_array numEntries with
          | None => (ADD_ERR AllocBitVectorArray, set_arrays b (Some ca) None)
          | Some tmp => (ADD_OK, set_arrays b (Some ca) (Some tmp))
          end
      end
  | Some ca =>
      let count := to_int32 (colourIterator b + numEntries) in
      match realloc_array ca count with
      | None => (ADD_ERR ReallocColourArray, b)
      | Some ca' =>
          match realloc_array (default [] (tmpBitVectors b)) count with
          | None => (ADD_ERR ReallocBitVectorArray,
                     set_arrays b (Some ca') (tmpBitVectors b))
          | Some tmp' => (ADD_OK, set_arrays b (Some ca') (Some tmp'))
          end
      end
  end.

(** The [while ((seqID = map_next (..)))] loop (bigsi.c:118-165) over the
    keys still to come; [inputMapCheck] is returned with the state. *)
Fixpoint add_loop (id2bf : list (string * bloomfilter_t)) (keys : list string)
    (inputMapCheck : Z) (b : bigsi_t) : add_status * bigsi_t * Z :=
  match keys with
  | [] => (ADD_OK, b, inputMapCheck)
  | seqID :: keys' =>
      match idChecker b !! seqID with
      | Some _ => (ADD_ERR (DuplicateSequenceID seqID), b, inputMapCheck)
      | None =>
          match map_get id2bf seqID with
          | None => (ADD_UNDEFINED, b, inputMapCheck)
          | Some newBF =>
              if bvCount (bf_bitvector newBF) =? 0 then
                (ADD_ERR (EmptyBloomFilter seqID), b, inputMapCheck)
              else if negb (bf_numHashes newBF =? numHashes b)
                      || negb (capacity (bf_bitvector newBF) =? numBits b) then
                (ADD_ERR (IncompatibleBloomFilter seqID), b, inputMapCheck)
              else
                match array_store (tmpBitVectors b) (colourIterator b)
                        (bvClone (bf_bitvector newBF)) with
                | None => (ADD_UNDEFINED, b, inputMapCheck)
                | Some tmp =>
                    match array_store (colourArray b) (colourIterator b) seqID with
                    | None => (ADD_UNDEFINED, b, inputMapCheck)
                    | Some ca =>
                        let b' := record_colour b seqID (Some tmp) (Some ca) in
                        if colourIterator b' =? MAX_COLOURS then
                          (ADD_ERR ColourLimitExceeded, b', inputMapCheck)
                        else
                          add_loop id2bf keys' (to_int32 (inputMapCheck + 1)) b'
                    end
                end
          end
      end
  end.

(** bigsAdd (bigsi.c:71). *)
Definition bigsAdd (b : bigsi_t) (id2bf : list (string * bloomfilter_t))
    (numEntries : Z) : add_status * bigsi_t :=
  match add_allocate b numEntries with
  | (ADD_OK, b1) =>
      match add_loop id2bf (map fst id2bf) 0 b1 with
      | (ADD_OK, b2, inputMapCheck) =>
          if negb (inputMapCheck =? numEntries)
          then (ADD_ERR (CountMismatch inputMapCheck numEntries), b2)
          else (ADD_OK, b2)
      | (st, b2, _) => (st, b2)
      end
  | (st, b1) => (st, b1)
  end.
End Add.

(** ** The persistent stores *)

(** Modelled from the spec: the sidecar metadata document.  The JSON library
    (3rd-party/frozen) is not part of the sources at hand; a document is the
    record of the keys [bigsFlush] prints and [bigsLoad] scans, a key that is
    absent from the file being [None]. *)
Record metadata_doc : Type := mkMetadata {
  md_db_directory : option string;
  md_metadata : option string;
  md_bitvectors : option string;
  md_colours : option string;
  md_numBits : option Z;
  md_numHashes : option Z;
  md_colourIterator : option Z
}.

(** Modelled from the spec: the ordered key-value engine (Berkeley DB, not
    part of the sources at hand).  A database file is a finite map from the
    key (the four bytes of the [int] or [unsigned int] handed over, read as
    an unsigned number) to the stored value; opening with create-if-missing
    keeps an existing file as it is, [put] overwrites, [get] fails on an
    absent key, and closing makes the contents durable. *)
Record world : Type := mkWorld {
  json_files : gmap string metadata_doc;
  bitvector_files : gmap string (gmap Z bitvector_t);
  colour_files : gmap string (gmap Z string)
}.

Definition empty_world : world :=
  {| json_files := ∅; bitvector_files := ∅; colour_files := ∅ |}.

Section Engine.
Context {V : Type}.

(** openDB (bigsi.c:714): the handle on success. *)
Definition openDB (create : bool) (files : gmap string (gmap Z V))
    (filename : option string)
  : option (option string * gmap string (gmap Z V)) :=
  match filename with
  | None => None
  | Some f =>
      match files !! f with
      | Some _ => Some (Some f, files)
      | None => if create then Some (Some f, <[f := ∅]> files) else None
      end
  end.

(** [dbp->put (dbp, NULL, &key, &data, 0)]. *)
Definition db_put (files : gmap string (gmap Z V)) (dbp : option string)
    (key : Z) (data : V) : option (gmap string (gmap Z V)) :=
  match dbp with
  | None => None
  | Some f =>
      match files !! f with
      | None => None
      | Some db => Some (<[f := <[key := data]> db]> files)
      end
  end.

(** [dbp->get (dbp, NULL, &key, &data, 0)]. *)
Definition db_get (files : gmap string (gmap Z V)) (dbp : option string)
    (key : Z) : option V :=
  match dbp with
  | None => None
  | Some f =>
      match files !! f with
      | None => None
      | Some db => db !! key
      end
  end.
End Engine.

(** Modelled from the spec: the three file names of bigsi.h, which is not
    part of the sources at hand. *)
Definition BIGSI_METADATA_FILENAME : string := "metadata.json".
Definition BITVECTORS_DB_FILENAME : string := "bitvectors.db".
Definition COLOURS_DB_FILENAME : string := "colours.db".

Definition set_files (b : bigsi_t) (dir : string) (md bv col : option string)
  : bigsi_t :=
  {| numBits := numBits b; numHashes := numHashes b;
     colourIterator := colourIterator b; indexed := indexed b;
     idChecker := idChecker b; tmpBitVectors := tmpBitVectors b;
     colourArray := colourArray b; dbDirectory := dir;
     bitvectors_dbp := bitvectors_dbp b; colours_dbp := colours_dbp b;
     metadata_file := md; bitvectors_db := bv; colours_db := col |}.

(** setFilenames (bigsi.c:755). *)
Definition setFilenames (b : bigsi_t) : bigsi_t :=
  set_files b (dbDirectory b)
    (Some (dbDirectory b +:+ "/" +:+ BIGSI_METADATA_FILENAME))
    (Some (dbDirectory b +:+ "/" +:+ BITVECTORS_DB_FILENAME))
    (Some (dbDirectory b +:+ "/" +:+ COLOURS_DB_FILENAME)).

Definition set_handles (b : bigsi_t) (bvp colp : option string) : bigsi_t :=
  {| numBits := numBits b; numHashes := numHashes b;
     colourIterator := colourIterator b; indexed := indexed b;
     idChecker := idChecker b; tmpBitVectors := tmpBitVectors b;
     colourArray := colourArray b; dbDirectory := dbDirectory b;
     bitvectors_dbp := bvp; colours_dbp := colp;
     metadata_file := metadata_file b; bitvectors_db := bitvectors_db b;
     colours_db := colours_db b |}.

Definition set_colour_files (w : world) (cf : gmap string (gmap Z string)) : world :=
  {| json_files := json_files w; bitvector_files := bitvector_files w;
     colour_files := cf |}.

Definition set_bitvector_files (w : world)
    (bf : gmap string (gmap Z bitvector_t)) : world :=
  {| json_files := json_files w; bitvector_files := bf;
     colour_files := colour_files w |}.

(** initDBs (bigsi.c:664): the colours database first, then the bit vectors
    database; [None] stands for a non-zero return. *)
Definition initDBs (create : bool) (w : world) (b : bigsi_t)
  : option (bigsi_t * world) :=
  match openDB create (colour_files w) (colours_db b) with
  | None => None
  | Some (colp, cf) =>
      match openDB create (bitvector_files w) (bitvectors_db b) with
      | None => None
      | Some (bvp, bf) =>
          Some (set_handles b bvp colp,
                set_bitvector_files (set_colour_files w cf) bf)
      end
  end.

(** ** bigsQuery *)

(** Modelled from the spec: the status codes of errors.h, which is not part
    of the sources at hand: each ERROR_ macro is an error kind of its own,
    different from the success code 0.  [QUERY_DB_FAIL] is the literal -1
    returned after a failed [get]; [QUERY_UNDEFINED] is a read past the end
    of the caller's [hashValues] array, which C leaves undefined. *)
Inductive query_status : Type :=
| QUERY_OK
| ERROR_NULL_ARGUMENT
| ERROR_BIGSI_UNINDEXED
| ERROR_BIGSI_HASH_MISMATCH
| ERROR_BIGSI_RESULT_MISMATCH
| ERROR_BIGSI_OR_FAIL
| ERROR_BIGSI_AND_FAIL
| QUERY_DB_FAIL
| QUERY_UNDEFINED.

(** [hv = *(hashValues + i) % bigsi->numBits]: the [int] is converted to
    [uint64_t] for the division and the remainder to [unsigned int]. *)
Definition hash_location (b : bigsi_t) (h : Z) : Z :=
  to_uint32 (h mod to_uint64 (numBits b)).

(** The [for (int i = 0; i < len; i++)] loop of bigsQuery (bigsi.c:378-424),
    with [n] iterations to go.  It returns the status, the contents of
    [result] and the keys fetched from the row store, oldest first. *)
Fixpoint query_loop (w : world) (b : bigsi_t) (hashValues : list Z) (n : nat)
    (i : Z) (result : bitvector_t) (fetched : list Z)
  : query_status * bitvector_t * list Z :=
  match n with
  | O => (QUERY_OK, result, fetched)
  | S n' =>
      match hashValues !! Z.to_nat i with
      | None => (QUERY_UNDEFINED, result, fetched)
      | Some h =>
          let hv := hash_location b h in
          let fetched' := fetched ++ [hv] in
          match db_get (bitvector_files w) (bitvectors_dbp b) hv with
          | None => (QUERY_DB_FAIL, result, fetched')
          | Some bv =>
              if bvCount bv =? 0 then (QUERY_OK, result, fetched')
              else if i =? 0 then
                match bvBOR result bv result with
                | None => (ERROR_BIGSI_OR_FAIL, result, fetched')
                | Some r => query_loop w b hashValues n' (i + 1) r fetched'
                end
              else
                match bvBANDupdate result bv with
                | None => (ERROR_BIGSI_AND_FAIL, result, fetched')
                | Some r =>
                    if bvCount r =? 0 then (QUERY_OK, r, fetched')
                    else query_loop w b hashValues n' (i + 1) r fetched'
                end
          end
      end
  end.

(** bigsQuery (bigsi.c:347).  [hashValues] and [result] are pointers and may
    be [NULL]; [len] is an [unsigned int].  The second component is what the
    caller's [result] holds on return. *)
Definition bigsQuery (w : world) (b : bigsi_t) (hashValues : option (list Z))
    (len : Z) (result : option bitvector_t)
  : query_status * option bitvector_t * list Z :=
  match hashValues, result with
  | Some hvs, Some r =>
      if negb (indexed b) then (ERROR_BIGSI_UNINDEXED, result, [])
      else if negb (len =? to_uint32 (numHashes b)) then
        (ERROR_BIGSI_HASH_MISMATCH, result, [])
      else if negb (capacity r =? colourIterator b) then
        (ERROR_BIGSI_RESULT_MISMATCH, result, [])
      else
        let '(st, r', fetched) := query_loop w b hvs (Z.to_nat len) 0 r [] in
        (st, Some r', fetched)
  | _, _ => (ERROR_NULL_ARGUMENT, result, [])
  end.

(** The hash values checkDB fills in: [hvs[i] = numBits - 1 - i], an [int]
    stored into a [uint64_t]. *)
Definition check_hashes (b : bigsi_t) : option (list Z) :=
  if numHashes b <? 0 then None   (* calloc of a negative count fails *)
  else Some (map (λ i : nat, to_uint64 (numBits b - 1 - Z.of_nat i))
               (seq 0 (Z.to_nat (numHashes b)))).

(** checkDB (bigsi.c:776): 0 when the query of the last rows returns 0. *)
Definition checkDB (w : world) (b : bigsi_t) : Z :=
  match bigsQuery w b (check_hashes b) (to_uint32 (numHashes b))
          (Some (bvInit (colourIterator b))) with
  | (QUERY_OK, _, _) => 0
  | _ => -1
  end.

(** ** bigsIndex *)

(** The diagnostics [bigsIndex] prints before it returns -1. *)
Inductive index_error : Type :=
| NothingToIndex
| AlreadyIndexed
| CreateDBsFailed
| LostBitVector
| BitAccessFailed (i colour : Z)
| RowAccessFailed (colour i : Z)
| BitSetTwice (i colour : Z)
| SetBitFailed
| PutRowFailed (i : Z)
| PutColourFailed (colour : Z)
| CheckFailed.

Inductive index_status : Type :=
| INDEX_OK
| INDEX_ERR (e : index_error).

Definition index_return (s : index_status) : Z :=
  match s with INDEX_OK => 0 | INDEX_ERR _ => -1 end.

(** The inner loop of bigsIndex (bigsi.c:233-273): row [i] over the colours
    from [colour] on, [n] of them to go. *)
Fixpoint index_row (tmp : option (list (option bitvector_t))) (i : Z) (n : nat)
    (colour : Z) (newBV : bitvector_t) : index_error + bitvector_t :=
  match n with
  | O => inr newBV
  | S n' =>
      match array_load tmp colour with
      | None => inl LostBitVector
      | Some bv =>
          match bvGet bv i with
          | None => inl (BitAccessFailed i colour)
          | Some false => index_row tmp i n' (colour + 1) newBV
          | Some true =>
              match bvGet newBV colour with
              | None => inl (RowAccessFailed colour i)
              | Some true => inl (BitSetTwice i colour)
              | Some false =>
                  match bvSet newBV colour true with
                  | None => inl SetBitFailed
                  | Some newBV' => index_row tmp i n' (colour + 1) newBV'
                  end
              end
          end
      end
  end.

(** The outer loop of bigsIndex (bigsi.c:221-300) from row [i] on, [n] rows
    to go, on the files of the row store. *)
Fixpoint index_rows (b : bigsi_t) (n : nat) (i : Z)
    (files : gmap string (gmap Z bitvector_t))
  : option index_error * gmap string (gmap Z bitvector_t) :=
  match n with
  | O => (None, files)
  | S n' =>
      match index_row (tmpBitVectors b) i (Z.to_nat (colourIterator b)) 0
              (bvInit (colourIterator b)) with
      | inl e => (Some e, files)
      | inr newBV =>
          match db_put files (bitvectors_dbp b) (to_uint32 i) newBV with
          | None => (Some (PutRowFailed i), files)
          | Some files' => index_rows b n' (i + 1) files'
          end
      end
  end.

(** The last cycle over the colours (bigsi.c:303-320): each sequence ID is
    put under its colour, then the colour's build-phase data is released. *)
Fixpoint index_colours (n : nat) (colour : Z) (b : bigsi_t)
    (files : gmap string (gmap Z string))
  : option index_error * bigsi_t * gmap string (gmap Z string) :=
  match n with
  | O => (None, b, files)
  | S n' =>
      match array_load (colourArray b) colour with
      | None => (Some (PutColourFailed colour), b, files)
      | Some seqID =>
          match db_put files (colours_dbp b) (to_uint32 colour) seqID with
          | None => (Some (PutColourFailed colour), b, files)
          | Some files' =>
              index_colours n' (colour + 1)
                (set_arrays b (array_free (colourArray b) colour)
                   (array_free (tmpBitVectors b) colour))
                files'
          end
      end
  end.

(** [map_deinit (&bigsi->idChecker); bigsi->indexed = true]. *)
Definition mark_indexed (b : bigsi_t) : bigsi_t :=
  {| numBits := numBits b; numHashes := numHashes b;
     colourIterator := colourIterator b; indexed := true;
     idChecker := ∅; tmpBitVectors := tmpBitVectors b;
     colourArray := colourArray b; dbDirectory := dbDirectory b;
     bitvectors_dbp := bitvectors_dbp b; colours_dbp := colours_dbp b;
     metadata_file := metadata_file b; bitvectors_db := bitvectors_db b;
     colours_db := colours_db b |}.

(** bigsIndex (bigsi.c:186). *)
Definition bigsIndex (w : world) (b : bigsi_t) : index_status * bigsi_t * world :=
  if colourIterator b <? 1 then (INDEX_ERR NothingToIndex, b, w)
  else if indexed b then (INDEX_ERR AlreadyIndexed, b, w)
  else
    let b0 := setFilenames b in
    match initDBs true w b0 with
    | None => (INDEX_ERR CreateDBsFailed, b0, w)
    | Some (b1, w1) =>
        match index_rows b1 (Z.to_nat (numBits b1)) 0 (bitvector_files w1) with
        | (Some e, bf) => (INDEX_ERR e, b1, set_bitvector_files w1 bf)
        | (None, bf) =>
            let w2 := set_bitvector_files w1 bf in
            match index_colours (Z.to_nat (colourIterator b1)) 0 b1
                    (colour_files w2) with
            | (Some e, b2, cf) => (INDEX_ERR e, b2, set_colour_files w2 cf)
            | (None, b2, cf) =>
                let w3 := set_colour_files w2 cf in
                let b3 := mark_indexed b2 in
                if checkDB w3 b3 =? 0 then (INDEX_OK, b3, w3)
                else (INDEX_ERR CheckFailed, b3, w3)
            end
        end
    end.

(** ** bigsLookupColour *)

Inductive lookup_error : Type :=
| LookupUnindexed
| ColourNotPresent (colour : Z)
| NoResultPointer
| ColourNotFound (colour : Z).

Inductive lookup_status : Type :=
| LOOKUP_OK
| LOOKUP_ERR (e : lookup_error).

Definition lookup_return (s : lookup_status) : Z :=
  match s with LOOKUP_OK => 0 | LOOKUP_ERR _ => -1 end.

(** bigsLookupColour (bigsi.c:443).  [result] says whether the caller's
    [char **result] is non-null; the second component is the string left in
    [*result]. *)
Definition bigsLookupColour (w : world) (b : bigsi_t) (colour : Z)
    (result : bool) : lookup_status * option string :=
  if negb (indexed b) then (LOOKUP_ERR LookupUnindexed, None)
  else if colourIterator b <? colour then (LOOKUP_ERR (ColourNotPresent colour), None)
  else if negb result then (LOOKUP_ERR NoResultPointer, None)
  else
    match db_get (colour_files w) (colours_dbp b) (to_uint32 colour) with
    | None => (LOOKUP_ERR (ColourNotFound colour), None)
    | Some seqID => (LOOKUP_OK, Some seqID)
    end.

(** ** bigsFlush, bigsDestroy and bigsLoad *)

(** The document [bigsFlush] prints with json_fprintf. *)
Definition metadata_of (b : bigsi_t) : metadata_doc :=
  {| md_db_directory := Some (dbDirectory b);
     md_metadata := metadata_file b;
     md_bitvectors := bitvectors_db b;
     md_colours := colours_db b;
     md_numBits := Some (numBits b);
     md_numHashes := Some (numHashes b);
     md_colourIterator := Some (colourIterator b) |}.

Definition set_json_files (w : world) (jf : gmap string metadata_doc) : world :=
  {| json_files := jf; bitvector_files := bitvector_files w;
     colour_files := colour_files w |}.

(** bigsFlush (bigsi.c:549): the return value and the files afterwards; the
    record itself is freed.  closeDBs always returns 0. *)
Definition bigsFlush (w : world) (b : bigsi_t) : Z * world :=
  if negb (indexed b) then (-1, w)
  else
    match metadata_file b with
    | None => (-1, w)
    | Some f => (0, set_json_files w (<[f := metadata_of b]> (json_files w)))
    end.

(** bigsDestroy (bigsi.c:508); [None] is the null pointer. *)
Definition bigsDestroy (w : world) (b : option bigsi_t) : Z * world :=
  match b with
  | None => (-1, w)
  | Some b => if indexed b then bigsFlush w b else (0, w)
  end.

(** The number of conversions json_scanf reports in bigsLoad. *)
Definition scan_count (d : metadata_doc) : Z :=
  let found {T : Type} (o : option T) : Z := match o with Some _ => 1 | None => 0 end in
  found (md_db_directory d) + found (md_metadata d) + found (md_bitvectors d)
  + found (md_colours d) + found (md_numBits d) + found (md_numHashes d)
  + found (md_colourIterator d).

(** The fields json_scanf stores into in bigsLoad; a key absent from the
    document leaves its field as it was. *)
Definition scan_metadata (d : metadata_doc) (b : bigsi_t) : bigsi_t :=
  {| numBits := default (numBits b) (md_numBits d);
     numHashes := default (numHashes b) (md_numHashes d);
     colourIterator := default (colourIterator b) (md_colourIterator d);
     indexed := indexed b;
     idChecker := idChecker b; tmpBitVectors := tmpBitVectors b;
     colourArray := colourArray b;
     dbDirectory := default (dbDirectory b) (md_db_directory d);
     bitvectors_dbp := bitvectors_dbp b; colours_dbp := colours_dbp b;
     metadata_file := from_option Some (metadata_file b) (md_metadata d);
     bitvectors_db := from_option Some (bitvectors_db b) (md_bitvectors d);
     colours_db := from_option Some (colours_db b) (md_colours d) |}.

Definition set_indexed (b : bigsi_t) : bigsi_t :=
  {| numBits := numBits b; numHashes := numHashes b;
     colourIterator := colourIterator b; indexed := true;
     idChecker := idChecker b; tmpBitVectors := tmpBitVectors b;
     colourArray := colourArray b; dbDirectory := dbDirectory b;
     bitvectors_dbp := bitvectors_dbp b; colours_dbp := colours_dbp b;
     metadata_file := metadata_file b; bitvectors_db := bitvectors_db b;
     colours_db := colours_db b |}.

Definition file_exists {V : Type} (files : gmap string V) (f : option string)
  : bool :=
  match f with
  | None => false
  | Some f => bool_decide (is_Some (files !! f))
  end.

(** bigsLoad (bigsi.c:598); [None] is the null pointer it returns on every
    failure.  The files are left as they are. *)
Definition bigsLoad (w : world) (dbDir : string) : option bigsi_t :=
  match bigsInit 1 1 dbDir with
  | None => None
  | Some b =>
      let b0 := setFilenames b in
      if negb (file_exists (json_files w) (metadata_file b0))
         || negb (file_exists (bitvector_files w) (bitvectors_db b0))
         || negb (file_exists (colour_files w) (colours_db b0))
      then None
      else
        match metadata_file b0 ≫= λ f, json_files w !! f with
        | None => None
        | Some content =>
            let b1 := scan_metadata content b0 in
            if scan_count content <? 1 then None
            else
              match initDBs false w b1 with
              | None => None
              | Some (b2, _) =>
                  let b3 := set_indexed b2 in
                  if checkDB w b3 =? 0 then Some b3 else None
              end
        end
  end.

(** ** The configuration record (config.c) *)

Section Config.
(** [double], and the three defaults config.c takes from macros that the
    header at hand does not define, are parameters: config.c only copies
    these values. *)
Variable double : Type.
Variable AM_DEFAULT_WATCH_DIR : option string.
Variable AM_DEFAULT_WORK_DIR : option string.
Variable AM_DEFAULT_BLOOM_FP_RATE : double.

Definition AM_DEFAULT_K_SIZE : Z := 7.
Definition AM_DEFAULT_SKETCH_SIZE : Z := 128.
Definition AM_DEFAULT_BLOOM_MAX_EL : Z := 100000.

(** The fields config.c reads and writes. *)
Record config_t : Type := mkConfig {
  configFile : option string;
  watchDir : option string;
  workingDir : option string;
  pid : Z;
  running : bool;
  k_size : Z;
  sketch_size : Z;
  bloom_fp_rate : double;
  bloom_max_elements : Z
}.

(** What a configuration file holds: the value printed for each key, in
    the order of writeConfig's format string; [None] is an absent key and
    [Some None] the JSON [null] that is printed for a null string. *)
Record config_doc : Type := mkConfigDoc {
  cd_configFile : option (option string);
  cd_workingDirectory : option (option string);
  cd_watchDirectory : option (option string);
  cd_pid : option Z;
  cd_running : option bool;
  cd_k_size : option Z;
  cd_sketch_size : option Z;
  cd_bloom_fp_rate : option double;
  cd_bloom_max_elements : option Z
}.

(** initConfig (config.c:8). *)
Definition initConfig : config_t :=
  {| configFile := Some ""%string;
     watchDir := AM_DEFAULT_WATCH_DIR;
     workingDir := AM_DEFAULT_WORK_DIR;
     pid := -1;
     running := false;
     k_size := AM_DEFAULT_K_SIZE;
     sketch_size := AM_DEFAULT_SKETCH_SIZE;
     bloom_fp_rate := AM_DEFAULT_BLOOM_FP_RATE;
     bloom_max_elements := AM_DEFAULT_BLOOM_MAX_EL |}.

Definition set_configFile (c : config_t) (f : option string) : config_t :=
  {| configFile := f; watchDir := watchDir c; workingDir := workingDir c;
     pid := pid c; running := running c; k_size := k_size c;
     sketch_size := sketch_size c; bloom_fp_rate := bloom_fp_rate c;
     bloom_max_elements := bloom_max_elements c |}.

(** The document writeConfig prints (config.c:40-50). *)
Definition doc_of_config (c : config_t) : config_doc :=
  {| cd_configFile := Some (configFile c);
     cd_workingDirectory := Some (workingDir c);
     cd_watchDirectory := Some (watchDir c);
     cd_pid := Some (pid c);
     cd_running := Some (running c);
     cd_k_size := Some (k_size c);
     cd_sketch_size := Some (sketch_size c);
     cd_bloom_fp_rate := Some (bloom_fp_rate c);
     cd_bloom_max_elements := Some (bloom_max_elements c) |}.

(** writeConfig (config.c:31): the return value, the record (its
    [configFile] is updated in place) and the files. *)
Definition writeConfig (fs : gmap string config_doc) (config : option config_t)
    (file : string) : Z * option config_t * gmap string config_doc :=
  match config with
  | None => (1, None, fs)
  | Some c =>
      let c' := set_configFile c (Some file) in
      (0, Some c', <[file := doc_of_config c']> fs)
  end.

(** The stack-allocated [config_t c = { .pid = -1, .watchDir = NULL }] of
    loadConfig after json_scanf: the four scanned fields. *)
Definition scanned_configFile (d : config_doc) : option string :=
  default None (cd_configFile d).
Definition scanned_watchDir (d : config_doc) : option string :=
  default None (cd_watchDirectory d).
Definition scanned_pid (d : config_doc) : Z := default (-1) (cd_pid d).
Definition scanned_running (d : config_doc) : bool :=
  default false (cd_running d).

Definition config_scan_count (d : config_doc) : Z :=
  let found {T : Type} (o : option T) : Z :=
    match o with Some _ => 1 | None => 0 end in
  found (cd_configFile d) + found (cd_watchDirectory d) + found (cd_pid d)
  + found (cd_running d).

(** loadConfig (config.c:58).  [None] when the file cannot be read:
    json_fread then returns a null buffer, which [strlen] dereferences. *)
Definition loadConfig (fs : gmap string config_doc) (config : config_t)
    (file : string) : option (Z * config_t) :=
  match fs !! file with
  | None => None
  | Some content =>
      if config_scan_count content <? 1 then Some (1, config)
      else
        Some (0, {| configFile := scanned_configFile content;
                    watchDir := scanned_watchDir content;
                    workingDir := workingDir config;
                    pid := scanned_pid content;
                    running := scanned_running content;
                    k_size := k_size config;
                    sketch_size := sketch_size config;
                    bloom_fp_rate := bloom_fp_rate config;
                    bloom_max_elements := bloom_max_elements config |})
  end.
End Config.

Arguments configFile {double} _.
Arguments watchDir {double} _.
Arguments workingDir {double} _.
Arguments pid {double} _.
Arguments running {double} _.
Arguments k_size {double} _.
Arguments sketch_size {double} _.
Arguments bloom_fp_rate {double} _.
Arguments bloom_max_elements {double} _.
Arguments writeConfig {double} _ _ _.
Arguments loadConfig {double} _ _ _.
Arguments doc_of_config {double} _.
Arguments set_configFile {double} _ _.

(** ** Scenarios of the specification *)

(** The bit vector of capacity [cap] whose set bits are those of [l]. *)
Definition bits (cap : nat) (l : list nat) : bitvector_t :=
  map (λ i, bool_decide (i ∈ l)) (seq 0 cap).

(** S1: two colours, "A" with bits 3 and 11, "B" with bits 3 and 7. *)
Definition S1_batch : list (string * bloomfilter_t) :=
  [("A"%string, mkBloom 2 (bits 16 [3; 11]%nat));
   ("B"%string, mkBloom 2 (bits 16 [3; 7]%nat))].

(** Init, one add and the freeze, in a directory of a given world; [None]
    unless every step succeeds. *)
Definition build_and_freeze (MAX_COLOURS : Z) (w : world) (nBits nHashes : Z)
    (dbDir : string) (id2bf : list (string * bloomfilter_t)) (numEntries : Z)
  : option (bigsi_t * world) :=
  match bigsInit nBits nHashes dbDir with
  | None => None
  | Some b =>
      match bigsAdd MAX_COLOURS b id2bf numEntries with
      | (ADD_OK, b1) =>
          match bigsIndex w b1 with
          | (INDEX_OK, b2, w2) => Some (b2, w2)
          | _ => None
          end
      | _ => None
      end
  end.

(** S1 frozen into directory "D" of an empty machine, with the colour limit
    the specification suggests. *)
Definition S1_frozen : option (bigsi_t * world) :=
  build_and_freeze INT_MAX empty_world 16 2 "D" S1_batch 2.

(** A second index built in the directory S1 was persisted to: one colour,
    "C" with bit 1. *)
Definition S1_then_C : option (bigsi_t * world) :=
  match S1_frozen with
  | None => None
  | Some (b, w) =>
      match bigsDestroy w (Some b) with
      | (0, w') =>
          build_and_freeze INT_MAX w' 16 2 "D"
            [("C"%string, mkBloom 2 (bits 16 [1]%nat))] 1
      | _ => None
      end
  end.

(** The same BIGSI with another hash count: what a query with a different
    number of hash positions has to run against. *)
Definition with_numHashes (b : bigsi_t) (n : Z) : bigsi_t :=
  {| numBits := numBits b; numHashes := n;
     colourIterator := colourIterator b; indexed := indexed b;
     idChecker := idChecker b; tmpBitVectors := tmpBitVectors b;
     colourArray := colourArray b; dbDirectory := dbDirectory b;
     bitvectors_dbp := bitvectors_dbp b; colours_dbp := colours_dbp b;
     metadata_file := metadata_file b; bitvectors_db := bitvectors_db b;
     colours_db := colours_db b |}.

(** The BIGSIs of the build phase: what bigsInit returns for [int]
    arguments, and what a call of bigsAdd that returns 0 makes of one. *)
Inductive built (MAX_COLOURS : Z) : bigsi_t -> Prop :=
| built_init (nBits nHashes : Z) (dbDir : string) (b : bigsi_t) :
    nBits <= INT_MAX -> nHashes <= INT_MAX ->
    bigsInit nBits nHashes dbDir = Some b ->
    built MAX_COLOURS b
| built_add (b b' : bigsi_t) (id2bf : list (string * bloomfilter_t))
    (numEntries : Z) :
    built MAX_COLOURS b ->
    bigsAdd MAX_COLOURS b id2bf numEntries = (ADD_OK, b') ->
    built MAX_COLOURS b'.

(** What holds of a BIGSI between two calls of bigsAdd. *)
Definition build_inv (MAX_COLOURS : Z) (b : bigsi_t) : Prop :=
  0 <= colourIterator b < MAX_COLOURS
  ∧ (colourArray b = None -> colourIterator b = 0)
  ∧ indexed b = false
  ∧ 0 < numBits b <= INT_MAX
  ∧ 0 < numHashes b <= INT_MAX.


(** S1 after the add, before the freeze. *)
Definition S1_built : option bigsi_t :=
  match bigsInit 16 2 "D" with
  | None => None
  | Some b0 =>
      match bigsAdd INT_MAX b0 S1_batch 2 with
      | (ADD_OK, b) => Some b
      | _ => None
      end
  end.


(** The row store of a frozen BIGSI holds, under every bit position, a row
    with one bit per colour. *)
Definition rows_ok (w : world) (b : bigsi_t) : Prop :=
  0 < numBits b <= INT_MAX
  ∧ ∀ key, 0 <= key < numBits b ->
      ∃ row, db_get (bitvector_files w) (bitvectors_dbp b) key = Some row
             ∧ capacity row = colourIterator b.

(** The row a query fetches for a hash value (the empty vector when the
    store has none). *)
Definition row_at (w : world) (b : bigsi_t) (h : Z) : bitvector_t :=
  default [] (db_get (bitvector_files w) (bitvectors_dbp b) (hash_location b h)).

(** The result the OR/AND chain of a query stands for: the first row ORed
    into the initial contents, every further row ANDed in. *)
Definition and_chain (initial : bitvector_t) (rows : list bitvector_t)
  : bitvector_t :=
  match rows with
  | [] => initial
  | first :: rest => foldl (zip_with andb) (zip_with orb initial first) rest
  end.

(** ** Statements about whole batches *)

(** A Bloom filter that passes the checks of bigsAdd on a BIGSI. *)
Definition bloom_ok (b : bigsi_t) (bf : bloomfilter_t) : Prop :=
  bvCount (bf_bitvector bf) ≠ 0
  ∧ bf_numHashes bf = numHashes b
  ∧ capacity (bf_bitvector bf) = numBits b.


(** * The in-memory BIGSI *)

(** The second version of the index in bigsi.c (lines 796-1273) keeps the
    rows in an array of the record instead of a key-value store.  Its
    functions have the names of the first version and live in a module of
    their own. *)
Module InMemory.

Record bigsi_t : Type := mkBigsi {
  bvArray : option (list (option bitvector_t));
  id2colour : gmap string Z;
  colourArray : option (list (option string));
  numBits : Z;
  numHashes : Z;
  colourIterator : Z;
  index : option (list (option bitvector_t));
  numBytes : Z
}.

(** bigsInit (bigsi.c:817); [%] truncates, as [Z.rem] does. *)
Definition bigsInit (nBits nHashes : Z) : option bigsi_t :=
  if (0 <? nBits) && (0 <? nHashes) then
    Some {| bvArray := None; id2colour := ∅; colourArray := None;
            numBits := nBits; numHashes := nHashes; colourIterator := 0;
            index := None;
            numBytes := to_int32 (Z.rem (to_int32 (nBits - 1)) 8 + 1) |}
  else None.

Definition set_arrays (b : bigsi_t) (ca : option (list (option string)))
    (bv : option (list (option bitvector_t))) : bigsi_t :=
  {| bvArray := bv; id2colour := id2colour b; colourArray := ca;
     numBits := numBits b; numHashes := numHashes b;
     colourIterator := colourIterator b; index := index b;
     numBytes := numBytes b |}.

(** The record after ADD 1-3 and the increment of one loop iteration. *)
Definition record_colour (b : bigsi_t) (seqID : string)
    (bv : option (list (option bitvector_t)))
    (ca : option (list (option string))) : bigsi_t :=
  {| bvArray := bv; id2colour := <[seqID := colourIterator b]> (id2colour b);
     colourArray := ca; numBits := numBits b; numHashes := numHashes b;
     colourIterator := to_int32 (colourIterator b + 1); index := index b;
     numBytes := numBytes b |}.

(** The allocation at the head of bigsAdd (bigsi.c:857-895). *)
Definition add_allocate (b : bigsi_t) (numEntries : Z) : add_status * bigsi_t :=
  match colourArray b with
  | None =>
      match alloc_array numEntries with
      | None => (ADD_ERR AllocColourArray, b)
      | Some ca =>
          match alloc_array numEntries with
          | None => (ADD_ERR AllocBitVectorArray, set_arrays b (Some ca) None)
          | Some bv => (ADD_OK, set_arrays b (Some ca) (Some bv))
          end
      end
  | Some ca =>
      let count := to_int32 (colourIterator b + numEntries) in
      match realloc_array ca count with
      | None => (ADD_ERR ReallocColourArray, b)
      | Some ca' =>
          match realloc_array (default [] (bvArray b)) count with
          | None => (ADD_ERR ReallocBitVectorArray,
                     set_arrays b (Some ca') (bvArray b))
          | Some bv' => (ADD_OK, set_arrays b (Some ca') (Some bv'))
          end
      end
  end.

(** The [while ((seqID = map_next (..)))] loop (bigsi.c:901-943): here the
    compatibility check comes before the emptiness check, and no colour
    limit is looked at. *)
Fixpoint add_loop (id2bf : list (string * bloomfilter_t)) (keys : list string)
    (inputMapCheck : Z) (b : bigsi_t) : add_status * bigsi_t * Z :=
  match keys with
  | [] => (ADD_OK, b, inputMapCheck)
  | seqID :: keys' =>
      match id2colour b !! seqID with
      | Some _ => (ADD_ERR (DuplicateSequenceID seqID), b, inputMapCheck)
      | None =>
          match map_get id2bf seqID with
          | None => (ADD_UNDEFINED, b, inputMapCheck)
          | Some newBF =>
              if negb (bf_numHashes newBF =? numHashes b)
                 || negb (capacity (bf_bitvector newBF) =? numBits b) then
                (ADD_ERR (IncompatibleBloomFilter seqID), b, inputMapCheck)
              else if bvCount (bf_bitvector newBF) =? 0 then
                (ADD_ERR (EmptyBloomFilter seqID), b, inputMapCheck)
              else
                match array_store (bvArray b) (colourIterator b)
                        (bvClone (bf_bitvector newBF)) with
                | None => (ADD_UNDEFINED, b, inputMapCheck)
                | Some bv =>
                    match array_store (colourArray b) (colourIterator b) seqID with
                    | None => (ADD_UNDEFINED, b, inputMapCheck)
                    | Some ca =>
                        add_loop id2bf keys' (to_int32 (inputMapCheck + 1))
                          (record_colour b seqID (Some bv) (Some ca))
                    end
                end
          end
      end
  end.

(** bigsAdd (bigsi.c:854). *)
Definition bigsAdd (b : bigsi_t) (id2bf : list (string * bloomfilter_t))
    (numEntries : Z) : add_status * bigsi_t :=
  match add_allocate b numEntries with
  | (ADD_OK, b1) =>
      match add_loop id2bf (map fst id2bf) 0 b1 with
      | (ADD_OK, b2, inputMapCheck) =>
          if negb (inputMapCheck =? numEntries)
          then (ADD_ERR (CountMismatch inputMapCheck numEntries), b2)
          else (ADD_OK, b2)
      | (st, b2, _) => (st, b2)
      end
  | (st, b1) => (st, b1)
  end.

(** How bigsIndex ends: [return 0], [return -1] after one of the
    diagnostics it shares with the first version, or [return -1] after the
    array of rows could not be allocated. *)
Inductive index_outcome : Type :=
| INDEXED
| INDEX_FAILED (e : index_error)
| INDEX_NO_MEMORY.

(** The inner loop of bigsIndex (bigsi.c:1001-1041) on the row
    [bigsi->index[i]], which it updates in place: the row is returned with
    the diagnostic, if any. *)
Fixpoint index_row (bv : option (list (option bitvector_t))) (i : Z) (n : nat)
    (colour : Z) (row : bitvector_t) : option index_error * bitvector_t :=
  match n with
  | O => (None, row)
  | S n' =>
      match array_load bv colour with
      | None => (Some LostBitVector, row)
      | Some v =>
          match bvGet v i with
          | None => (Some (BitAccessFailed i colour), row)
          | Some false => index_row bv i n' (colour + 1) row
          | Some true =>
              match bvGet row colour with
              | None => (Some (RowAccessFailed colour i), row)
              | Some true => (Some (BitSetTwice i colour), row)
              | Some false =>
                  match bvSet row colour true with
                  | None => (Some SetBitFailed, row)
                  | Some row' => index_row bv i n' (colour + 1) row'
                  end
              end
          end
      end
  end.

(** The outer loop (bigsi.c:989-1042) from row [i] on, [n] rows to go, on
    the block of [numBits] rows. *)
Fixpoint index_rows (b : bigsi_t) (n : nat) (i : Z)
    (rows : list (option bitvector_t))
  : option index_error * list (option bitvector_t) :=
  match n with
  | O => (None, rows)
  | S n' =>
      match index_row (bvArray b) i (Z.to_nat (colourIterator b)) 0
              (bvInit (colourIterator b)) with
      | (Some e, row) => (Some e, <[Z.to_nat i := Some row]> rows)
      | (None, row) =>
          index_rows b n' (i + 1) (<[Z.to_nat i := Some row]> rows)
      end
  end.

(** [for (int i = 0; i < colourIterator; i++) bvDestroy (bvArray[i])]. *)
Fixpoint release (n : nat) (i : Z) (bv : option (list (option bitvector_t)))
  : option (list (option bitvector_t)) :=
  match n with
  | O => bv
  | S n' => release n' (i + 1) (array_free bv i)
  end.

Definition set_index (b : bigsi_t) (rows : option (list (option bitvector_t)))
  : bigsi_t :=
  {| bvArray := bvArray b; id2colour := id2colour b;
     colourArray := colourArray b; numBits := numBits b;
     numHashes := numHashes b; colourIterator := colourIterator b;
     index := rows; numBytes := numBytes b |}.

(** The wipe that ends a successful bigsIndex (bigsi.c:1045-1049). *)
Definition wipe_input (b : bigsi_t) : bigsi_t :=
  {| bvArray := release (Z.to_nat (colourIterator b)) 0 (bvArray b);
     id2colour := ∅; colourArray := colourArray b; numBits := numBits b;
     numHashes := numHashes b; colourIterator := colourIterator b;
     index := index b; numBytes := numBytes b |}.

(** bigsIndex (bigsi.c:963).  A failure inside the loops leaves [index]
    allocated. *)
Definition bigsIndex (b : bigsi_t) : index_outcome * bigsi_t :=
  if colourIterator b <? 1 then (INDEX_FAILED NothingToIndex, b)
  else
    match index b with
    | Some _ => (INDEX_FAILED AlreadyIndexed, b)
    | None =>
        match alloc_array (numBits b) with
        | None => (INDEX_NO_MEMORY, b)
        | Some rows =>
            match index_rows b (Z.to_nat (numBits b)) 0 rows with
            | (Some e, rows') => (INDEX_FAILED e, set_index b (Some rows'))
            | (None, rows') => (INDEXED, wipe_input (set_index b (Some rows')))
            end
        end
    end.

(** The diagnostics bigsQuery prints before it returns -1. *)
Inductive query_error : Type :=
| NeedIndex
| NoKmer
| NoResult
| ResultCapacityMismatch
| ResultNotEmpty
| MissingRow (hv : Z)
| OrFailed
| AndFailed.

Inductive query_outcome : Type :=
| ANSWERED
| QUERY_FAILED (e : query_error).

Section Query.
(** The k-mer buffer and the hash function: hashmap.h and its getHashVal
    are not part of the sources at hand, so the function is a parameter; it
    takes the buffer, its length, the hash number and the number of bits. *)
Variable buffer_t : Type.
Variable getHashVal : buffer_t -> Z -> Z -> Z -> Z.

(** The [for (int i = 0; i < numHashes; i++)] loop of bigsQuery
    (bigsi.c:1104-1149), with [n] iterations to go.  A slot of [index] that
    holds no row is taken for a null pointer, as [index_row] takes one of
    [bvArray]. *)
Fixpoint query_loop (b : bigsi_t) (buffer : buffer_t) (len : Z) (n : nat) (i : Z)
    (result : bitvector_t) : query_outcome * bitvector_t :=
  match n with
  | O => (ANSWERED, result)
  | S n' =>
      let hv := to_uint32 (getHashVal buffer len i (numBits b)) in
      match array_load (index b) hv with
      | None => (QUERY_FAILED (MissingRow hv), result)
      | Some row =>
          if bvCount row =? 0 then (ANSWERED, result)
          else if i =? 0 then
            match bvBOR result row result with
            | None => (QUERY_FAILED OrFailed, result)
            | Some r => query_loop b buffer len n' (i + 1) r
            end
          else
            match bvBANDupdate result row with
            | None => (QUERY_FAILED AndFailed, result)
            | Some r =>
                if bvCount r =? 0 then (ANSWERED, r)
                else query_loop b buffer len n' (i + 1) r
            end
      end
  end.

(** bigsQuery (bigsi.c:1069).  [buffer] and [result] are pointers and may
    be [NULL]; the second component is what the caller's [result] holds on
    return.  The field [result->count] is the number of bits set, which
    bvCount returns. *)
Definition bigsQuery (b : bigsi_t) (buffer : option buffer_t) (len : Z)
    (result : option bitvector_t) : query_outcome * option bitvector_t :=
  match index b with
  | None => (QUERY_FAILED NeedIndex, result)
  | Some _ =>
      match buffer with
      | None => (QUERY_FAILED NoKmer, result)
      | Some buf =>
          match result with
          | None => (QUERY_FAILED NoResult, result)
          | Some r =>
              if negb (capacity r =? colourIterator b) then
                (QUERY_FAILED ResultCapacityMismatch, result)
              else if negb (bvCount r =? 0) then
                (QUERY_FAILED ResultNotEmpty, result)
              else
                let '(st, r') :=
                  query_loop b buf len (Z.to_nat (numHashes b)) 0 r in
                (st, Some r')
          end
      end
  end.
End Query.

Arguments query_loop {buffer_t} _ _ _ _ _ _ _.
Arguments bigsQuery {buffer_t} _ _ _ _ _.

End InMemory.

(** ** The two versions side by side *)

(** A BIGSI of the first version and one of the second in the same build
    state. *)
Definition same_build (b : bigsi_t) (m : InMemory.bigsi_t) : Prop :=
  InMemory.numBits m = numBits b
  ∧ InMemory.numHashes m = numHashes b
  ∧ InMemory.colourIterator m = colourIterator b
  ∧ InMemory.id2colour m = idChecker b
  ∧ InMemory.bvArray m = tmpBitVectors b
  ∧ InMemory.colourArray m = colourArray b
  ∧ InMemory.index m = None.

(** The hash values that make the first version look at the rows the
    second one computes with [getHashVal]. *)
Definition same_hashes {buffer_t : Type} (getHashVal : buffer_t -> Z -> Z -> Z -> Z)
    (b : bigsi_t) (buffer : buffer_t) (len : Z) (hashValues : list Z) : Prop :=
  Z.of_nat (length hashValues) = numHashes b
  ∧ ∀ (i : nat) (h : Z), hashValues !! i = Some h ->
      hash_location b h
      = to_uint32 (getHashVal buffer len (Z.of_nat i) (numBits b)).

(** A frozen BIGSI of the first version with its row store, and one of the
    second version whose [index] holds the same rows. *)
Definition same_index (w : world) (b : bigsi_t) (m : InMemory.bigsi_t) : Prop :=
  indexed b = true
  ∧ is_Some (InMemory.index m)
  ∧ InMemory.numBits m = numBits b
  ∧ InMemory.numHashes m = numHashes b
  ∧ InMemory.colourIterator m = colourIterator b
  ∧ ∀ i, 0 <= i < numBits b ->
      array_load (InMemory.index m) i
      = db_get (bitvector_files w) (bitvectors_dbp b) i.

(** S1 in the in-memory version, after the add and before the freeze. *)
Definition S1_inmemory : option InMemory.bigsi_t :=
  match InMemory.bigsInit 16 2 with
  | None => None
  | Some m0 =>
      match InMemory.bigsAdd m0 S1_batch 2 with
      | (ADD_OK, m) => Some m
      | _ => None
      end
  end.

(** A hash function for the examples: the buffer lists the hash values, and
    hash [i] is the [i]-th of them modulo the number of bits. *)
Definition list_hash (buffer : list Z) (len i nBits : Z) : Z :=
  nth (Z.to_nat i) buffer 0 mod nBits.

(** * Properties *)

(** ** Machine integers and bit vectors *)

Lemma to_uint32_small (z : Z) : 0 <= z < 2 ^ 32 -> to_uint32 z = z.
Proof. intros H. unfold to_uint32. apply Z.mod_small. exact H. Qed.

Lemma to_int32_small (z : Z) : - 2 ^ 31 <= z < 2 ^ 31 -> to_int32 z = z.
Proof. intros H. unfold to_int32. rewrite Z.mod_small; lia. Qed.

Lemma to_uint64_small (z : Z) : 0 <= z < 2 ^ 64 -> to_uint64 z = z.
Proof. intros H. unfold to_uint64. apply Z.mod_small. exact H. Qed.

Lemma popcount_and_le (a b : bitvector_t) :
  (popcount (zip_with andb a b) <= popcount a)%nat.
Proof.
  revert b. induction a as [|x a IH]; intros [|y b]; simpl; try lia.
  specialize (IH b). destruct x, y; simpl; lia.
Qed.

Lemma bvBANDupdate_count_le (dst src r : bitvector_t) :
  bvBANDupdate dst src = Some r -> bvCount r <= bvCount dst.
Proof.
  unfold bvBANDupdate, bvCount. case_match; [|discriminate].
  intros [= <-]. pose proof (popcount_and_le dst src). lia.
Qed.

Lemma capacity_bvInit (n : Z) : 0 <= n -> capacity (bvInit n) = n.
Proof. intros H. unfold capacity, bvInit. rewrite length_replicate. lia. Qed.

(** ** C6: the precondition checks of bigsQuery *)

(** C6.  bigsQuery returns the null-argument error when [hashValues] or
    [result] is null; with both present, the index-unfrozen error when the
    BIGSI is not indexed; then the hash-count-mismatch error when [len]
    differs from [numHashes]; then the capacity-mismatch error when the
    capacity of [result] differs from [colourIterator].  On each of these
    returns nothing was fetched from the row store and [result] holds what it
    held.  S6 is the instance with capacity 1 against two colours. *)
Theorem bigsQuery_precondition_errors (w : world) (b : bigsi_t)
    (hashValues : option (list Z)) (len : Z) (result : option bitvector_t) :
  (hashValues = None ∨ result = None ->
   bigsQuery w b hashValues len result = (ERROR_NULL_ARGUMENT, result, []))
  ∧ (is_Some hashValues -> is_Some result -> indexed b = false ->
     bigsQuery w b hashValues len result = (ERROR_BIGSI_UNINDEXED, result, []))
  ∧ (is_Some hashValues -> is_Some result -> indexed b = true ->
     len ≠ to_uint32 (numHashes b) ->
     bigsQuery w b hashValues len result = (ERROR_BIGSI_HASH_MISMATCH, result, []))
  ∧ (∀ r, is_Some hashValues -> result = Some r -> indexed b = true ->
     len = to_uint32 (numHashes b) -> capacity r ≠ colourIterator b ->
     bigsQuery w b hashValues len result = (ERROR_BIGSI_RESULT_MISMATCH, result, []))
  ∧ (∀ r, is_Some hashValues -> result = Some r -> indexed b = true ->
     len = to_uint32 (numHashes b) -> capacity r = 1 -> colourIterator b = 2 ->
     bigsQuery w b hashValues len result = (ERROR_BIGSI_RESULT_MISMATCH, result, [])).
Proof.
  assert (Hcap : ∀ r, is_Some hashValues -> result = Some r -> indexed b = true ->
     len = to_uint32 (numHashes b) -> capacity r ≠ colourIterator b ->
     bigsQuery w b hashValues len result = (ERROR_BIGSI_RESULT_MISMATCH, result, [])).
  { intros r [hvs ->] -> Hi -> Hc. unfold bigsQuery. rewrite Hi. simpl.
    rewrite Z.eqb_refl. simpl.
    destruct (Z.eqb_spec (capacity r) (colourIterator b)); [contradiction|done]. }
  repeat split.
  - intros [-> | ->]; unfold bigsQuery; [done|]. by destruct hashValues.
  - intros [hvs ->] [r ->] Hi. unfold bigsQuery. by rewrite Hi.
  - intros [hvs ->] [r ->] Hi Hlen. unfold bigsQuery. rewrite Hi. simpl.
    destruct (Z.eqb_spec len (to_uint32 (numHashes b))); [contradiction|done].
  - exact Hcap.
  - intros r Hh Hr Hi Hlen H1 H2. apply (Hcap r); try done. lia.
Qed.

Lemma bigsQuery_precondition_errors_witness :
  ∃ b0 b w, bigsInit 16 2 "D" = Some b0 ∧ S1_frozen = Some (b, w)
    ∧ bigsQuery w b None 2 (Some [false; false])
      = (ERROR_NULL_ARGUMENT, Some [false; false], [])
    ∧ bigsQuery empty_world b0 (Some [3; 3]) 2 (Some [])
      = (ERROR_BIGSI_UNINDEXED, Some [], [])
    ∧ bigsQuery w b (Some [3]) 1 (Some [false; false])
      = (ERROR_BIGSI_HASH_MISMATCH, Some [false; false], [])
    ∧ bigsQuery w b (Some [3; 3]) 2 (Some [false])
      = (ERROR_BIGSI_RESULT_MISMATCH, Some [false], []).
Proof.
  eexists _, _, _.
  split; [vm_compute; reflexivity|].
  split; [vm_compute; reflexivity|].
  split; [|split; [|split]].
  - apply bigsQuery_precondition_errors. left. reflexivity.
  - apply bigsQuery_precondition_errors; [by eexists|by eexists|reflexivity].
  - apply bigsQuery_precondition_errors;
      [by eexists|by eexists|reflexivity|vm_compute; discriminate].
  - refine (proj2 (proj2 (proj2 (proj2 (bigsQuery_precondition_errors _ _ _ _ _))))
              [false] _ _ _ _ _ _);
      [by eexists|reflexivity|reflexivity|reflexivity|reflexivity|reflexivity].
Defined.

(** ** C9: what loadConfig assigns *)

(** C9.  loadConfig assigns [configFile], [watchDir], [pid] and [running]
    from the file and nothing else: [k_size], [sketch_size],
    [bloom_fp_rate] and [bloom_max_elements] (and [workingDir]) of the
    record are what they were, whatever it returns.  writeConfig prints all
    of them, so loading what writeConfig wrote into another record hands
    over the four scanned fields and leaves the other four as that record
    had them; for the fresh record of initConfig they stay the defaults. *)
Theorem loadConfig_frame {double : Type} (fs : gmap string (config_doc double))
    (config : config_t double) (file : string) :
  (∀ r config', loadConfig fs config file = Some (r, config') ->
     k_size config' = k_size config
     ∧ sketch_size config' = sketch_size config
     ∧ bloom_fp_rate config' = bloom_fp_rate config
     ∧ bloom_max_elements config' = bloom_max_elements config
     ∧ workingDir config' = workingDir config)
  ∧ (∀ (c : config_t double) wd wk fp,
       let fresh := initConfig double wd wk fp in
       ∃ loaded,
         loadConfig (writeConfig fs (Some c) file).2 fresh file = Some (0, loaded)
         ∧ configFile loaded = Some file
         ∧ watchDir loaded = watchDir c
         ∧ pid loaded = pid c
         ∧ running loaded = running c
         ∧ k_size loaded = AM_DEFAULT_K_SIZE
         ∧ sketch_size loaded = AM_DEFAULT_SKETCH_SIZE
         ∧ bloom_fp_rate loaded = fp
         ∧ bloom_max_elements loaded = AM_DEFAULT_BLOOM_MAX_EL
         ∧ (k_size c ≠ AM_DEFAULT_K_SIZE -> k_size loaded ≠ k_size c)).
Proof.
  split.
  - intros r config'. unfold loadConfig.
    destruct (fs !! file) as [content|]; [|discriminate].
    destruct (config_scan_count double content <? 1); intros [= <- <-]; done.
  - intros c wd wk fp fresh. unfold writeConfig, loadConfig. simpl.
    rewrite lookup_insert_eq. eexists. split; [reflexivity|].
    simpl. repeat split; try reflexivity. intros H Heq. apply H. by rewrite <- Heq.
Qed.

Lemma loadConfig_frame_witness :
  let c : config_t QArith_base.Q :=
    {| configFile := Some "old.json"%string; watchDir := Some "/data"%string;
       workingDir := Some "/tmp"%string; pid := 4242; running := true;
       k_size := 31; sketch_size := 256;
       bloom_fp_rate := QArith_base.Qmake 1 100; bloom_max_elements := 5000 |} in
  let fresh := initConfig QArith_base.Q None None (QArith_base.Qmake 1 1000) in
  ∃ loaded,
    loadConfig (writeConfig ∅ (Some c) "antman.json").2 fresh "antman.json"
    = Some (0, loaded)
    ∧ pid loaded = 4242 ∧ watchDir loaded = Some "/data"%string
    ∧ k_size loaded = 7 ∧ sketch_size loaded = 128
    ∧ bloom_fp_rate loaded = QArith_base.Qmake 1 1000
    ∧ bloom_max_elements loaded = 100000 ∧ workingDir loaded = None.
Proof.
  intros c fresh.
  destruct (proj2 (loadConfig_frame ∅ fresh "antman.json") c None None
              (QArith_base.Qmake 1 1000))
    as (loaded & Hload & _ & Hw & Hp & _).
  exists loaded. split; [exact Hload|].
  destruct (proj1 (loadConfig_frame _ fresh "antman.json") 0 loaded Hload)
    as (Hk & Hs & Hf & Hm & Hwd).
  rewrite Hp, Hw, Hk, Hs, Hf, Hm, Hwd. repeat split; reflexivity.
Defined.

(** ** C3, C10: the early return on an empty row *)

(** Whenever the row fetched at the current position has no bit set, the
    loop returns 0 at once and [result] keeps what the earlier positions
    left in it. *)
Lemma query_loop_empty_row (w : world) (b : bigsi_t) (hashValues : list Z)
    (n : nat) (i h : Z) (result row : bitvector_t) (fetched : list Z) :
  hashValues !! Z.to_nat i = Some h ->
  db_get (bitvector_files w) (bitvectors_dbp b) (hash_location b h) = Some row ->
  bvCount row = 0 ->
  query_loop w b hashValues (S n) i result fetched
  = (QUERY_OK, result, fetched ++ [hash_location b h]).
Proof. intros Hh Hrow Hc. simpl. by rewrite Hh, Hrow, Hc. Qed.

(** C3.  The code at the failing input: S1 frozen, query [3; 5] with an
    all-zero result of capacity 2.  Row 5 is fetched at the second position
    and is empty; bigsQuery returns 0 and the result still has the bits of
    row 3 (colours 0 and 1), not all zeros. *)
Theorem bigsQuery_empty_row_not_cleared :
  ∃ b w row5, S1_frozen = Some (b, w)
    ∧ db_get (bitvector_files w) (bitvectors_dbp b) 5 = Some row5
    ∧ bvCount row5 = 0
    ∧ bvCount (bvInit 2) = 0
    ∧ bigsQuery w b (Some [3; 5]) 2 (Some (bvInit 2))
      = (QUERY_OK, Some [true; true], [3; 5]).
Proof.
  eexists _, _, _. split; [vm_compute; reflexivity|].
  split; [vm_compute; reflexivity|]. repeat split; vm_compute; reflexivity.
Qed.

(** C10.  The code at the failing input: S1 frozen, query [11; 5] with a
    result of capacity 2 whose bit 1 is already set.  bigsQuery returns 0;
    (initial OR row 11) AND row 5 is all zeros, since row 5 is empty, but
    the result returned is initial OR row 11. *)
Theorem bigsQuery_stale_result_early_return :
  ∃ b w row11 row5, S1_frozen = Some (b, w)
    ∧ db_get (bitvector_files w) (bitvectors_dbp b) 11 = Some row11
    ∧ db_get (bitvector_files w) (bitvectors_dbp b) 5 = Some row5
    ∧ zip_with andb (zip_with orb [false; true] row11) row5 = [false; false]
    ∧ bigsQuery w b (Some [11; 5]) 2 (Some [false; true])
      = (QUERY_OK, Some [true; true], [11; 5]).
Proof.
  eexists _, _, _, _. split; [vm_compute; reflexivity|].
  split; [vm_compute; reflexivity|]. split; [vm_compute; reflexivity|].
  split; vm_compute; reflexivity.
Qed.

(** ** C4: the range check of bigsLookupColour *)

(** On an indexed BIGSI the colour equal to [colourIterator] passes the
    range check: the answer is whatever the colour store holds under it. *)
Lemma bigsLookupColour_at_colourIterator (w : world) (b : bigsi_t) :
  indexed b = true ->
  bigsLookupColour w b (colourIterator b) true
  = match db_get (colour_files w) (colours_dbp b) (to_uint32 (colourIterator b)) with
    | None => (LOOKUP_ERR (ColourNotFound (colourIterator b)), None)
    | Some seqID => (LOOKUP_OK, Some seqID)
    end.
Proof. intros Hi. unfold bigsLookupColour. rewrite Hi, Z.ltb_irrefl. done. Qed.

(** C4.  The code at the failing input: S1 (colours "A", "B") is frozen
    into directory "D" and destroyed, then a BIGSI with the single colour
    "C" is frozen into "D".  Its [colourIterator] is 1, and the lookup of
    colour 1 returns 0 with the sequence ID "B" of the earlier index. *)
Theorem bigsLookupColour_accepts_colourIterator :
  ∃ b w, S1_then_C = Some (b, w)
    ∧ indexed b = true ∧ colourIterator b = 1
    ∧ bigsLookupColour w b 0 true = (LOOKUP_OK, Some "C"%string)
    ∧ bigsLookupColour w b 1 true = (LOOKUP_OK, Some "B"%string).
Proof.
  eexists _, _. split; [vm_compute; reflexivity|].
  repeat split; vm_compute; reflexivity.
Qed.

(** ** C8: the AND chain never gains bits *)

(** The loop reads only [numBits] and the row store handle of the record. *)
Lemma query_loop_with_numHashes (w : world) (b : bigsi_t) (k : Z)
    (hashValues : list Z) (n : nat) (i : Z) (result : bitvector_t)
    (fetched : list Z) :
  query_loop w (with_numHashes b k) hashValues n i result fetched
  = query_loop w b hashValues n i result fetched.
Proof.
  revert i result fetched. induction n as [|n IH]; intros i result fetched; [done|].
  simpl. destruct (hashValues !! Z.to_nat i) as [h|]; [|done].
  change (hash_location (with_numHashes b k) h) with (hash_location b h).
  destruct (db_get _ _ _) as [bv|]; [|done].
  destruct (bvCount bv =? 0); [done|].
  destruct (i =? 0).
  - destruct (bvBOR result bv result); [apply IH|done].
  - destruct (bvBANDupdate result bv) as [r|]; [|done].
    destruct (bvCount r =? 0); [done|apply IH].
Qed.

(** From the second position on, every iteration leaves in [result] at most
    the bits it found there. *)
Lemma query_loop_and_chain (w : world) (b : bigsi_t) (hashValues : list Z)
    (n : nat) (i : Z) (result : bitvector_t) (fetched : list Z) :
  1 <= i ->
  bvCount (query_loop w b hashValues n i result fetched).1.2 <= bvCount result.
Proof.
  revert i result fetched. induction n as [|n IH]; intros i result fetched Hi;
    simpl; [lia|].
  destruct (hashValues !! Z.to_nat i) as [h|]; simpl; [|lia].
  destruct (db_get _ _ _) as [bv|]; simpl; [|lia].
  destruct (bvCount bv =? 0); simpl; [lia|].
  destruct (Z.eqb_spec i 0); [lia|].
  destruct (bvBANDupdate result bv) as [r|] eqn:Hand; simpl; [|lia].
  apply bvBANDupdate_count_le in Hand.
  destruct (bvCount r =? 0); simpl; [lia|].
  specialize (IH (i + 1) r (fetched ++ [hash_location b h])). lia.
Qed.

(** Running [n1] positions of a prefix against running [n1 + m] positions
    of the whole list, from the same position and the same [result]. *)
Lemma query_loop_prefix (w : world) (b : bigsi_t) (hs1 hs2 : list Z) (m : nat) :
  ∀ (n1 : nat) (i : Z) (result : bitvector_t) (fetched : list Z),
    0 <= i -> (Z.to_nat i + n1 <= length hs1)%nat -> (1 <= i ∨ (1 <= n1)%nat) ->
    bvCount (query_loop w b (hs1 ++ hs2) (n1 + m) i result fetched).1.2
    <= bvCount (query_loop w b hs1 n1 i result fetched).1.2
    ∧ ((query_loop w b (hs1 ++ hs2) (n1 + m) i result fetched).1.1 = QUERY_OK ->
       (query_loop w b hs1 n1 i result fetched).1.1 = QUERY_OK).
Proof.
  induction n1 as [|n1 IH]; intros i result fetched Hi0 Hlen Hpos.
  - simpl. split; [|done]. apply query_loop_and_chain. lia.
  - simpl. rewrite lookup_app_l by lia.
    destruct (hs1 !! Z.to_nat i) as [h|]; simpl; [|done].
    destruct (db_get _ _ _) as [bv|]; simpl; [|done].
    destruct (bvCount bv =? 0); simpl; [done|].
    destruct (i =? 0).
    + destruct (bvBOR result bv result) as [r|]; simpl; [|done].
      apply IH; lia.
    + destruct (bvBANDupdate result bv) as [r|]; simpl; [|done].
      destruct (bvCount r =? 0); simpl; [done|]. apply IH; lia.
Qed.

(** C8.  A query over the hash positions [hs1 ++ hs2] that returns 0 leaves
    at most as many colours set as the query over the non-empty prefix
    [hs1] from the same initial [result], which returns 0 as well: every
    row incorporated after the first is ANDed in, so the popcount of
    [result] never grows along the chain.  (Each query runs against the
    BIGSI with the hash count of its length, as bigsQuery demands.) *)
Theorem bigsQuery_monotone (w : world) (b : bigsi_t) (hs1 hs2 : list Z)
    (r r2 : bitvector_t) (fetched2 : list Z) :
  hs1 ≠ [] ->
  Z.of_nat (length (hs1 ++ hs2)) <= INT_MAX ->
  bigsQuery w (with_numHashes b (Z.of_nat (length (hs1 ++ hs2))))
    (Some (hs1 ++ hs2)) (Z.of_nat (length (hs1 ++ hs2))) (Some r)
  = (QUERY_OK, Some r2, fetched2) ->
  ∃ r1 fetched1,
    bigsQuery w (with_numHashes b (Z.of_nat (length hs1)))
      (Some hs1) (Z.of_nat (length hs1)) (Some r)
    = (QUERY_OK, Some r1, fetched1)
    ∧ bvCount r2 <= bvCount r1.
Proof.
  intros Hne Hmax. unfold bigsQuery. simpl.
  destruct (indexed b); simpl; [|discriminate].
  assert (Hl : (length hs1 <= length (hs1 ++ hs2))%nat)
    by (rewrite length_app; lia).
  unfold INT_MAX in Hmax.
  rewrite !to_uint32_small, !Z.eqb_refl by lia. simpl.
  destruct (capacity r =? colourIterator b); simpl; [|discriminate].
  rewrite !query_loop_with_numHashes, !Nat2Z.id.
  pose proof (query_loop_prefix w b hs1 hs2 (length hs2) (length hs1) 0 r []) as H.
  rewrite <- length_app in H.
  destruct (query_loop w b (hs1 ++ hs2) _ 0 r []) as [[st2 r2'] f2].
  destruct (query_loop w b hs1 _ 0 r []) as [[st1 r1] f1].
  simpl in H. intros [= -> -> ->].
  destruct H as [Hc Hs]; [lia|simpl; lia| |].
  - right. destruct hs1; [done|simpl; lia].
  - rewrite Hs by done. eauto.
Qed.

Lemma bigsQuery_monotone_witness :
  ∃ b w, S1_frozen = Some (b, w)
    ∧ ∃ r1 fetched1,
        bigsQuery w (with_numHashes b 1) (Some [3]) 1 (Some (bvInit 2))
        = (QUERY_OK, Some r1, fetched1)
        ∧ bvCount [true; false] <= bvCount r1.
Proof.
  eexists _, _. split; [vm_compute; reflexivity|].
  apply (bigsQuery_monotone _ _ [3] [11] (bvInit 2) [true; false] [3; 11]).
  - discriminate.
  - vm_compute. discriminate.
  - vm_compute. reflexivity.
Defined.

(** ** The build phase: bigsAdd *)

Section AddProperties.
Variable MAX_COLOURS : Z.
Hypothesis MAX_COLOURS_int : 0 < MAX_COLOURS <= INT_MAX.

Lemma add_allocate_fields (b b1 : bigsi_t) (n : Z) (st : add_status) :
  add_allocate b n = (st, b1) ->
  colourIterator b1 = colourIterator b ∧ idChecker b1 = idChecker b
  ∧ numBits b1 = numBits b ∧ numHashes b1 = numHashes b
  ∧ indexed b1 = indexed b ∧ dbDirectory b1 = dbDirectory b.
Proof.
  unfold add_allocate. intros H.
  repeat case_match; simplify_eq; done.
Qed.

Lemma add_allocate_ok_arrays (b b1 : bigsi_t) (n : Z) :
  add_allocate b n = (ADD_OK, b1) -> is_Some (colourArray b1).
Proof.
  unfold add_allocate. intros H.
  repeat case_match; simplify_eq; simpl; eauto.
Qed.

(** One accepted entry moves [colourIterator] up by one. *)
Lemma record_colour_iterator (b : bigsi_t) (seqID : string) tmp ca :
  0 <= colourIterator b < MAX_COLOURS ->
  colourIterator (record_colour b seqID tmp ca) = colourIterator b + 1.
Proof.
  intros H. simpl. apply to_int32_small. unfold INT_MAX in *. lia.
Qed.

(** The loop keeps [colourIterator] at or below the limit, and strictly
    below it when it runs to its end. *)
Lemma add_loop_iterator (id2bf : list (string * bloomfilter_t))
    (keys : list string) :
  ∀ (k : Z) (b b' : bigsi_t) (st : add_status) (k' : Z),
    0 <= colourIterator b < MAX_COLOURS ->
    add_loop MAX_COLOURS id2bf keys k b = (st, b', k') ->
    colourIterator b <= colourIterator b' <= MAX_COLOURS
    ∧ (st = ADD_OK -> colourIterator b' < MAX_COLOURS)
    ∧ numBits b' = numBits b ∧ numHashes b' = numHashes b
    ∧ indexed b' = indexed b ∧ dbDirectory b' = dbDirectory b
    ∧ (is_Some (colourArray b) -> is_Some (colourArray b')).
Proof.
  induction keys as [|seqID keys IH]; intros k b b' st k' Hci; simpl.
  - intros [= <- <- <-]. repeat split; (lia || done).
  - destruct (idChecker b !! seqID);
      [intros [= <- <- <-]; repeat split; (lia || done)|].
    destruct (map_get id2bf seqID) as [newBF|];
      [|intros [= <- <- <-]; repeat split; (lia || done)].
    destruct (bvCount (bf_bitvector newBF) =? 0);
      [intros [= <- <- <-]; repeat split; (lia || done)|].
    destruct (negb _ || negb _);
      [intros [= <- <- <-]; repeat split; (lia || done)|].
    destruct (array_store (tmpBitVectors b) _ _) as [tmp|];
      [|intros [= <- <- <-]; repeat split; (lia || done)].
    destruct (array_store (colourArray b) _ _) as [ca|];
      [|intros [= <- <- <-]; repeat split; (lia || done)].
    pose proof (record_colour_iterator b seqID (Some tmp) (Some ca) Hci) as Hrec.
    set (b1 := record_colour b seqID (Some tmp) (Some ca)) in *.
    change (to_int32 (colourIterator b + 1)) with (colourIterator b1).
    destruct (Z.eqb_spec (colourIterator b1) MAX_COLOURS) as [Heq|Hne].
    + intros [= <- <- <-]. repeat split; (lia || done || eauto).
    + intros Hloop. apply IH in Hloop; [|lia].
      destruct Hloop as (H1 & H2 & H3 & H4 & H5 & H6 & H7).
      repeat split; try (lia || done || congruence).
      intros _. apply H7. simpl. eauto.
Qed.

Lemma bigsAdd_inv (b b' : bigsi_t) (id2bf : list (string * bloomfilter_t))
    (n : Z) :
  build_inv MAX_COLOURS b ->
  bigsAdd MAX_COLOURS b id2bf n = (ADD_OK, b') ->
  build_inv MAX_COLOURS b'.
Proof.
  intros (Hci & Hnull & Hidx & Hnb & Hnh). unfold bigsAdd.
  destruct (add_allocate b n) as [st b1] eqn:Halloc.
  destruct st; try discriminate.
  pose proof (add_allocate_ok_arrays _ _ _ Halloc) as Harr.
  apply add_allocate_fields in Halloc as (A1 & A2 & A3 & A4 & A5 & A6).
  destruct (add_loop _ _ _ _ _) as [[st b2] k] eqn:Hloop.
  apply add_loop_iterator in Hloop; [|lia].
  destruct Hloop as (L1 & L2 & L3 & L4 & L5 & L6 & L7).
  destruct st; try discriminate.
  destruct (negb _); intros [= <-].
  unfold build_inv. specialize (L2 eq_refl). specialize (L7 Harr).
  repeat split; try (lia || congruence).
  intros Hn. rewrite Hn in L7. by destruct L7.
Qed.

Lemma built_build_inv (b : bigsi_t) :
  built MAX_COLOURS b -> build_inv MAX_COLOURS b.
Proof.
  induction 1 as [nBits nHashes dbDir b Hb Hh Hinit|b b' id2bf n _ IH Hadd].
  - unfold bigsInit in Hinit.
    destruct (0 <? nBits) eqn:E1; [|discriminate].
    destruct (0 <? nHashes) eqn:E2; [|discriminate].
    simpl in Hinit. injection Hinit as <-.
    unfold build_inv. simpl. repeat split; (lia || done).
  - by eapply bigsAdd_inv.
Qed.


Lemma array_load_store {A : Type} (l : list (option A)) (i : Z) (v : A)
    (l' : list (option A)) :
  array_store (Some l) i v = Some l' ->
  array_load (Some l') i = Some v
  ∧ (∀ j, j ≠ i -> array_load (Some l') j = array_load (Some l) j)
  ∧ length l' = length l.
Proof.
  unfold array_store, array_load.
  destruct (Z.leb_spec 0 i); simpl; [|discriminate].
  destruct (Z.ltb_spec i (Z.of_nat (length l))); [|discriminate].
  intros [= <-]. rewrite list_lookup_insert_eq by lia.
  split; [done|]. split; [|by rewrite length_insert].
  intros j Hj. destruct (0 <=? j) eqn:E; [|done].
  rewrite list_lookup_insert_ne; [done|]. apply Z.leb_le in E. lia.
Qed.









End AddProperties.





(** ** C1: the freeze transposes *)

Lemma db_get_put {V : Type} (files files' : gmap string (gmap Z V))
    (dbp : option string) (key : Z) (data : V) :
  db_put files dbp key data = Some files' ->
  db_get files' dbp key = Some data
  ∧ (∀ key', key' ≠ key -> db_get files' dbp key' = db_get files dbp key')
  ∧ (∀ f, is_Some (files !! f) -> is_Some (files' !! f)).
Proof.
  unfold db_put, db_get. destruct dbp as [f|]; [|discriminate].
  destruct (files !! f) as [db|] eqn:Hf; [|discriminate].
  intros [= <-]. rewrite lookup_insert_eq. split; [apply lookup_insert_eq|].
  split.
  - intros key' Hne. by rewrite lookup_insert_ne.
  - intros g Hg. destruct (decide (f = g)) as [->|Hfg].
    + rewrite lookup_insert_eq. eauto.
    + by rewrite lookup_insert_ne.
Qed.

(** What a finished inner loop leaves in the row: the positions before
    [colour] as they were, and at each colour from [colour] on bit [i] of
    that colour's build-phase vector. *)
Lemma index_row_spec (tmp : option (list (option bitvector_t))) (i : Z) :
  ∀ (n : nat) (colour : Z) (newBV row : bitvector_t),
    0 <= colour ->
    colour + Z.of_nat n <= Z.of_nat (length newBV) ->
    (∀ c : nat, (Z.to_nat colour <= c < length newBV)%nat ->
                newBV !! c = Some false) ->
    index_row tmp i n colour newBV = inr row ->
    length row = length newBV
    ∧ (∀ c : nat, (c < Z.to_nat colour)%nat -> row !! c = newBV !! c)
    ∧ (∀ c, colour <= c < colour + Z.of_nat n ->
         ∃ bv bit, array_load tmp c = Some bv ∧ bvGet bv i = Some bit
                   ∧ bvGet row c = Some bit).
Proof.
  induction n as [|n IH]; intros colour newBV row Hc Hroom Hclear; simpl.
  - intros [= <-]. repeat split; try done. intros c Hr. lia.
  - destruct (array_load tmp colour) as [bv|] eqn:Hload; [|discriminate].
    assert (Hget : ∀ r : bitvector_t, length r = length newBV ->
              bvGet r colour = r !! Z.to_nat colour).
    { intros r Hr. unfold bvGet, capacity. rewrite Hr.
      destruct (Z.leb_spec 0 colour); [|lia].
      destruct (Z.ltb_spec colour (Z.of_nat (length newBV))); [done|lia]. }
    destruct (bvGet bv i) as [[|]|] eqn:Hbit; [| |discriminate].
    + destruct (bvGet newBV colour) as [[|]|] eqn:Hnew; try discriminate.
      destruct (bvSet newBV colour true) as [newBV'|] eqn:Hset; [|discriminate].
      unfold bvSet in Hset. destruct (_ && _); [|discriminate].
      injection Hset as <-.
      intros Hrow. apply IH in Hrow as (Hlen & Hbefore & Hfrom).
      * rewrite length_insert in Hlen. split; [done|]. split.
        -- intros c Hlt'. rewrite Hbefore by lia.
           apply list_lookup_insert_ne. lia.
        -- intros c Hr. destruct (decide (c = colour)) as [->|Hne].
           ++ exists bv, true. repeat split; try done.
              rewrite Hget by done. rewrite Hbefore by lia.
              apply list_lookup_insert_eq. lia.
           ++ apply Hfrom. lia.
      * lia.
      * rewrite length_insert. lia.
      * intros c Hr. rewrite length_insert in Hr.
        rewrite list_lookup_insert_ne by lia. apply Hclear. lia.
    + intros Hrow. apply IH in Hrow as (Hlen & Hbefore & Hfrom).
      * split; [done|]. split.
        -- intros c Hlt'. apply Hbefore. lia.
        -- intros c Hr. destruct (decide (c = colour)) as [->|Hne].
           ++ exists bv, false. repeat split; try done.
              rewrite Hget by done. rewrite Hbefore by lia.
              apply Hclear. lia.
           ++ apply Hfrom. lia.
      * lia.
      * lia.
      * intros c Hr. apply Hclear. lia.
Qed.

(** What a finished outer loop leaves in the row store: under each key from
    [i] on the row the inner loop built for it, the other keys and the
    other files as they were. *)
Lemma index_rows_spec (b : bigsi_t) :
  ∀ (n : nat) (i : Z) (files files' : gmap string (gmap Z bitvector_t)),
    0 <= i -> i + Z.of_nat n <= 2 ^ 32 ->
    index_rows b n i files = (None, files') ->
    (∀ j, i <= j < i + Z.of_nat n ->
       ∃ row, db_get files' (bitvectors_dbp b) j = Some row
              ∧ index_row (tmpBitVectors b) j (Z.to_nat (colourIterator b)) 0
                  (bvInit (colourIterator b)) = inr row)
    ∧ (∀ key, ¬ (i <= key < i + Z.of_nat n) ->
         db_get files' (bitvectors_dbp b) key = db_get files (bitvectors_dbp b) key)
    ∧ (∀ f, is_Some (files !! f) -> is_Some (files' !! f)).
Proof.
  induction n as [|n IH]; intros i files files' Hi Hmax; simpl.
  - intros [= <-]. repeat split; try done. intros j Hj. lia.
  - destruct (index_row _ _ _ _ _) as [e|newBV] eqn:Hrow; [discriminate|].
    rewrite to_uint32_small by lia.
    destruct (db_put files _ i newBV) as [files1|] eqn:Hput; [|discriminate].
    apply db_get_put in Hput as (Hsame & Hother & Hfiles).
    intros Hrest. apply IH in Hrest as (Hrows & Hframe & Hkeep); [|lia|lia].
    split; [|split].
    + intros j Hj. destruct (decide (j = i)) as [->|Hne].
      * exists newBV. split; [|done]. rewrite Hframe by lia. done.
      * apply Hrows. lia.
    + intros key Hkey. rewrite Hframe by lia. apply Hother. lia.
    + intros f Hf. apply Hkeep, Hfiles, Hf.
Qed.

(** The last cycle over the colours changes the two arrays and the colour
    store, nothing else. *)
Lemma index_colours_fields :
  ∀ (n : nat) (colour : Z) (b b' : bigsi_t)
    (files files' : gmap string (gmap Z string)) (st : option index_error),
    index_colours n colour b files = (st, b', files') ->
    numBits b' = numBits b ∧ numHashes b' = numHashes b
    ∧ colourIterator b' = colourIterator b ∧ indexed b' = indexed b
    ∧ dbDirectory b' = dbDirectory b
    ∧ bitvectors_dbp b' = bitvectors_dbp b ∧ colours_dbp b' = colours_dbp b
    ∧ metadata_file b' = metadata_file b
    ∧ bitvectors_db b' = bitvectors_db b ∧ colours_db b' = colours_db b
    ∧ (∀ f, is_Some (files !! f) -> is_Some (files' !! f)).
Proof.
  induction n as [|n IH]; intros colour b b' files files' st; simpl.
  - intros [= <- <- <-]. repeat split; done.
  - destruct (array_load (colourArray b) colour) as [seqID|];
      [|intros [= <- <- <-]; repeat split; done].
    destruct (db_put files _ _ seqID) as [files1|] eqn:Hput;
      [|intros [= <- <- <-]; repeat split; done].
    apply db_get_put in Hput as (_ & _ & Hfiles).
    intros Hrest. apply IH in Hrest. simpl in Hrest.
    destruct Hrest as (?&?&?&?&?&?&?&?&?&?&Hkeep).
    repeat split; try done. intros f Hf. apply Hkeep, Hfiles, Hf.
Qed.

Lemma openDB_spec {V : Type} (create : bool) (files files' : gmap string (gmap Z V))
    (filename dbp : option string) :
  openDB create files filename = Some (dbp, files') ->
  dbp = filename ∧ is_Some filename
  ∧ (∀ f, filename = Some f -> is_Some (files' !! f))
  ∧ (∀ f, is_Some (files !! f) -> files' !! f = files !! f)
  ∧ (create = false -> files' = files).
Proof.
  unfold openDB. destruct filename as [f|]; [|discriminate].
  destruct (files !! f) as [db|] eqn:Hf.
  - intros [= <- <-]. repeat split; eauto. intros g [= <-]. eauto.
  - destruct create; [|discriminate]. intros [= <- <-].
    repeat split; eauto; try done.
    + intros g [= <-]. rewrite lookup_insert_eq. eauto.
    + intros g Hg. apply lookup_insert_ne. intros ->. rewrite Hf in Hg.
      by destruct Hg.
Qed.

(** The steps of a call of bigsIndex that returns 0. *)
Lemma bigsIndex_ok_inv (w w' : world) (b b' : bigsi_t) :
  bigsIndex w b = (INDEX_OK, b', w') ->
  ∃ b1 w1 bf b2 cf,
    1 <= colourIterator b ∧ indexed b = false
    ∧ initDBs true w (setFilenames b) = Some (b1, w1)
    ∧ index_rows b1 (Z.to_nat (numBits b1)) 0 (bitvector_files w1) = (None, bf)
    ∧ index_colours (Z.to_nat (colourIterator b1)) 0 b1 (colour_files w1)
      = (None, b2, cf)
    ∧ b' = mark_indexed b2
    ∧ w' = set_colour_files (set_bitvector_files w1 bf) cf
    ∧ checkDB w' b' = 0.
Proof.
  unfold bigsIndex.
  destruct (Z.ltb_spec (colourIterator b) 1); [discriminate|].
  destruct (indexed b) eqn:Hidx; [discriminate|].
  destruct (initDBs true w (setFilenames b)) as [[b1 w1]|] eqn:Hinit; [|discriminate].
  destruct (index_rows _ _ _ _) as [[e|] bf] eqn:Hrows; [discriminate|].
  simpl.
  destruct (index_colours _ _ _ _) as [[[e|] b2] cf] eqn:Hcols; [discriminate|].
  destruct (Z.eqb_spec (checkDB (set_colour_files (set_bitvector_files w1 bf) cf)
                          (mark_indexed b2)) 0) as [Hcheck|]; [|discriminate].
  intros [= <- <-]. eexists b1, w1, bf, b2, cf. repeat split; (done || lia).
Qed.

Lemma initDBs_spec (create : bool) (w w1 : world) (b b1 : bigsi_t) :
  initDBs create w b = Some (b1, w1) ->
  b1 = set_handles b (bitvectors_db b) (colours_db b)
  ∧ json_files w1 = json_files w
  ∧ (∀ f, bitvectors_db b = Some f -> is_Some (bitvector_files w1 !! f))
  ∧ (∀ f, colours_db b = Some f -> is_Some (colour_files w1 !! f))
  ∧ (∀ f, is_Some (bitvector_files w !! f) ->
          bitvector_files w1 !! f = bitvector_files w !! f)
  ∧ (∀ f, is_Some (colour_files w !! f) ->
          colour_files w1 !! f = colour_files w !! f)
  ∧ (create = false -> w1 = w).
Proof.
  unfold initDBs.
  destruct (openDB create (colour_files w) (colours_db b)) as [[colp cf]|] eqn:Hc;
    [|discriminate].
  destruct (openDB create (bitvector_files w) (bitvectors_db b)) as [[bvp bf]|] eqn:Hb;
    [|discriminate].
  apply openDB_spec in Hc as (-> & _ & Hc1 & Hc2 & Hc3).
  apply openDB_spec in Hb as (-> & _ & Hb1 & Hb2 & Hb3).
  intros [= <- <-]. simpl. repeat split; try done.
  intros ->. rewrite Hc3, Hb3 by done. by destruct w.
Qed.

Lemma add_loop_dimensions (M : Z) (id2bf : list (string * bloomfilter_t))
    (keys : list string) :
  ∀ (k : Z) (b b' : bigsi_t) (st : add_status) (k' : Z),
    add_loop M id2bf keys k b = (st, b', k') ->
    numBits b' = numBits b ∧ numHashes b' = numHashes b.
Proof.
  induction keys as [|seqID keys IH]; intros k b b' st k'; simpl.
  - by intros [= <- <- <-].
  - repeat (case_match; try by intros [= <- <- <-]).
    intros Hloop. by apply IH in Hloop.
Qed.

(** The bit count of a BIGSI of the build phase is that of bigsInit, an
    [int]. *)
Lemma built_numBits (M : Z) (b : bigsi_t) :
  built M b -> 0 < numBits b <= INT_MAX.
Proof.
  induction 1 as [nBits nHashes dbDir b Hb Hh Hinit|b b' id2bf n _ IH Hadd].
  - unfold bigsInit in Hinit.
    destruct (Z.ltb_spec 0 nBits); [|discriminate].
    destruct (0 <? nHashes); [|discriminate].
    injection Hinit as <-. simpl. lia.
  - unfold bigsAdd in Hadd.
    destruct (add_allocate b n) as [st b1] eqn:Halloc.
    apply add_allocate_fields in Halloc as (_ & _ & Hb1 & _).
    destruct st; try discriminate.
    destruct (add_loop _ _ _ _ _) as [[st b2] k] eqn:Hloop.
    apply add_loop_dimensions in Hloop as [Hb2 _].
    destruct st; try discriminate. destruct (negb _); [discriminate|].
    injection Hadd as <-. lia.
Qed.

(** C1.  For a BIGSI built by calls of bigsAdd that returned 0, when
    bigsIndex returns 0 the row stored under key [i], for every bit
    position [0 <= i < numBits], has at every colour
    [0 <= c < colourIterator] the bit that the build-phase vector of colour
    [c] (the clone of that colour's Bloom filter vector in tmpBitVectors)
    has at position [i]. *)
Theorem bigsIndex_transposes (M : Z) (w w' : world) (b b' : bigsi_t) :
  built M b ->
  bigsIndex w b = (INDEX_OK, b', w') ->
  ∀ c i, 0 <= c < colourIterator b -> 0 <= i < numBits b ->
    ∃ row bv bit,
      db_get (bitvector_files w') (bitvectors_dbp b') i = Some row
      ∧ array_load (tmpBitVectors b) c = Some bv
      ∧ bvGet row c = Some bit
      ∧ bvGet bv i = Some bit.
Proof.
  intros Hbuilt Hindex c i Hc Hi.
  apply built_numBits in Hbuilt. unfold INT_MAX in Hbuilt.
  apply bigsIndex_ok_inv in Hindex
    as (b1 & w1 & bf & b2 & cf & Hci & _ & Hinit & Hrows & Hcols & -> & -> & _).
  apply initDBs_spec in Hinit as (-> & _).
  apply index_colours_fields in Hcols as (_ & _ & _ & _ & _ & Hdbp & _).
  apply index_rows_spec in Hrows as (Hrows & _); [|lia|simpl; lia].
  destruct (Hrows i) as (row & Hget & Hrow); [simpl; lia|].
  simpl in Hget, Hrow, Hdbp.
  apply index_row_spec in Hrow as (_ & _ & Hbits).
  - destruct (Hbits c) as (bv & bit & Hload & Hbv & Hr); [lia|].
    exists row, bv, bit. simpl. rewrite Hdbp. done.
  - lia.
  - unfold bvInit. rewrite length_replicate. lia.
  - intros k Hk. unfold bvInit in *. rewrite length_replicate in Hk.
    apply lookup_replicate_2. lia.
Qed.

Lemma bigsIndex_transposes_witness :
  ∃ b0 b b' w',
    bigsInit 16 2 "D" = Some b0
    ∧ bigsAdd INT_MAX b0 S1_batch 2 = (ADD_OK, b)
    ∧ bigsIndex empty_world b = (INDEX_OK, b', w')
    ∧ ∃ row bv bit,
        db_get (bitvector_files w') (bitvectors_dbp b') 7 = Some row
        ∧ array_load (tmpBitVectors b) 1 = Some bv
        ∧ bvGet row 1 = Some bit
        ∧ bvGet bv 7 = Some bit.
Proof.
  eexists _, _, _, _. split; [reflexivity|].
  split; [vm_compute; reflexivity|].
  split; [vm_compute; reflexivity|].
  eapply (bigsIndex_transposes INT_MAX empty_world).
  - eapply (built_add INT_MAX _ _ S1_batch 2);
      [apply (built_init INT_MAX 16 2 "D");
       [vm_compute; discriminate..|reflexivity]|].
    vm_compute; reflexivity.
  - vm_compute; reflexivity.
  - vm_compute. split; [discriminate|reflexivity].
  - vm_compute. split; [discriminate|reflexivity].
Defined.

(** ** C2: persist and load *)

(** The loop reads the bit count, the row store handle and the row
    store. *)
Lemma query_loop_ext (w w' : world) (b b' : bigsi_t) (hashValues : list Z) :
  numBits b = numBits b' ->
  bitvectors_dbp b = bitvectors_dbp b' ->
  bitvector_files w = bitvector_files w' ->
  ∀ (n : nat) (i : Z) (result : bitvector_t) (fetched : list Z),
    query_loop w b hashValues n i result fetched
    = query_loop w' b' hashValues n i result fetched.
Proof.
  intros Hnb Hdbp Hfiles. induction n as [|n IH]; intros i result fetched; [done|].
  simpl. unfold hash_location. rewrite Hnb, Hdbp, Hfiles.
  destruct (hashValues !! Z.to_nat i) as [h|]; [|done].
  destruct (db_get _ _ _) as [bv|]; [|done].
  destruct (bvCount bv =? 0); [done|].
  destruct (i =? 0).
  - destruct (bvBOR result bv result); [apply IH|done].
  - destruct (bvBANDupdate result bv) as [r|]; [|done].
    destruct (bvCount r =? 0); [done|apply IH].
Qed.

(** What a query observes of a BIGSI and of the files. *)
Lemma bigsQuery_ext (w w' : world) (b b' : bigsi_t) :
  numBits b = numBits b' -> numHashes b = numHashes b' ->
  colourIterator b = colourIterator b' -> indexed b = indexed b' ->
  bitvectors_dbp b = bitvectors_dbp b' ->
  bitvector_files w = bitvector_files w' ->
  ∀ hashValues len result,
    bigsQuery w b hashValues len result = bigsQuery w' b' hashValues len result.
Proof.
  intros Hnb Hnh Hci Hidx Hdbp Hfiles hashValues len result. unfold bigsQuery.
  destruct hashValues as [hvs|], result as [r|]; try done.
  rewrite Hidx, Hnh, Hci.
  by rewrite (query_loop_ext w w' b b' hvs Hnb Hdbp Hfiles).
Qed.

Lemma checkDB_ext (w w' : world) (b b' : bigsi_t) :
  numBits b = numBits b' -> numHashes b = numHashes b' ->
  colourIterator b = colourIterator b' -> indexed b = indexed b' ->
  bitvectors_dbp b = bitvectors_dbp b' ->
  bitvector_files w = bitvector_files w' ->
  checkDB w b = checkDB w' b'.
Proof.
  intros Hnb Hnh Hci Hidx Hdbp Hfiles. unfold checkDB, check_hashes.
  rewrite (bigsQuery_ext w w' b b' Hnb Hnh Hci Hidx Hdbp Hfiles).
  by rewrite Hnb, Hnh, Hci.
Qed.

(** What a colour lookup observes of a BIGSI and of the files. *)
Lemma bigsLookupColour_ext (w w' : world) (b b' : bigsi_t) :
  colourIterator b = colourIterator b' -> indexed b = indexed b' ->
  colours_dbp b = colours_dbp b' ->
  colour_files w = colour_files w' ->
  ∀ colour result,
    bigsLookupColour w b colour result = bigsLookupColour w' b' colour result.
Proof.
  intros Hci Hidx Hdbp Hfiles colour result. unfold bigsLookupColour.
  by rewrite Hci, Hidx, Hdbp, Hfiles.
Qed.

(** The record and the files after a call of bigsIndex that returned 0. *)
Lemma bigsIndex_ok_fields (w w1 : world) (b b1 : bigsi_t) :
  bigsIndex w b = (INDEX_OK, b1, w1) ->
  numBits b1 = numBits b ∧ numHashes b1 = numHashes b
  ∧ colourIterator b1 = colourIterator b ∧ indexed b1 = true
  ∧ dbDirectory b1 = dbDirectory b
  ∧ metadata_file b1 = metadata_file (setFilenames b)
  ∧ bitvectors_db b1 = bitvectors_db (setFilenames b)
  ∧ colours_db b1 = colours_db (setFilenames b)
  ∧ bitvectors_dbp b1 = bitvectors_db (setFilenames b)
  ∧ colours_dbp b1 = colours_db (setFilenames b)
  ∧ (∀ f, bitvectors_db b1 = Some f -> is_Some (bitvector_files w1 !! f))
  ∧ (∀ f, colours_db b1 = Some f -> is_Some (colour_files w1 !! f))
  ∧ checkDB w1 b1 = 0.
Proof.
  intros Hindex.
  apply bigsIndex_ok_inv in Hindex
    as (b' & w' & bf & b2 & cf & _ & _ & Hinit & Hrows & Hcols & -> & -> & Hcheck).
  apply initDBs_spec in Hinit as (-> & _ & Hbv & Hcol & _).
  apply index_colours_fields in Hcols
    as (H1 & H2 & H3 & H4 & H5 & H6 & H7 & H8 & H9 & H10 & Hkeepc).
  assert (Hkeepb : ∀ f, is_Some (bitvector_files w' !! f) -> is_Some (bf !! f)).
  { clear -Hrows. revert Hrows.
    generalize (bitvector_files w') as files, 0 as i.
    generalize (set_handles (setFilenames b) (bitvectors_db (setFilenames b))
                  (colours_db (setFilenames b))) as b0.
    intros b0. generalize (Z.to_nat (numBits b0)) as n.
    induction n as [|n IH]; intros files i; simpl.
    - by intros [= <-].
    - destruct (index_row _ _ _ _ _) as [e|newBV]; [discriminate|].
      destruct (db_put files _ _ newBV) as [files1|] eqn:Hput; [|discriminate].
      apply db_get_put in Hput as (_ & _ & Hfiles).
      intros Hrest f Hf. eapply IH; [exact Hrest|]. apply Hfiles, Hf. }
  simpl in *. repeat split; try done.
  - intros f Hf. apply Hkeepb, Hbv. congruence.
  - intros f Hf. apply Hkeepc, Hcol. congruence.
Qed.

(** C2.  A BIGSI that bigsIndex froze into its directory and that was then
    destroyed: bigsDestroy returns 0, bigsLoad of that directory returns a
    BIGSI, and every query (whatever the hash values, the length and the
    result vector handed over) and every colour lookup returns on the
    loaded BIGSI what it returned on the original one before it was
    destroyed. *)
Theorem persist_load_roundtrip (w w1 w2 : world) (b b1 : bigsi_t) (r : Z) :
  bigsIndex w b = (INDEX_OK, b1, w1) ->
  bigsDestroy w1 (Some b1) = (r, w2) ->
  r = 0
  ∧ ∃ b2, bigsLoad w2 (dbDirectory b) = Some b2
      ∧ (∀ hashValues len result,
           bigsQuery w2 b2 hashValues len result
           = bigsQuery w1 b1 hashValues len result)
      ∧ (∀ colour result,
           bigsLookupColour w2 b2 colour result
           = bigsLookupColour w1 b1 colour result).
Proof.
  intros Hindex Hdestroy.
  apply bigsIndex_ok_fields in Hindex
    as (Hnb & Hnh & Hci & Hidx & Hdir & Hmd & Hbv & Hcol & Hbvp & Hcolp
        & Hbvf & Hcolf & Hcheck).
  simpl in Hmd, Hbv, Hcol, Hbvp, Hcolp.
  unfold bigsDestroy, bigsFlush in Hdestroy. rewrite Hidx, Hmd in Hdestroy.
  simpl in Hdestroy. injection Hdestroy as <- <-. split; [done|].
  set (w2 := set_json_files w1 _).
  assert (Hload : ∃ b2, bigsLoad w2 (dbDirectory b) = Some b2
            ∧ numBits b2 = numBits b1 ∧ numHashes b2 = numHashes b1
            ∧ colourIterator b2 = colourIterator b1 ∧ indexed b2 = indexed b1
            ∧ bitvectors_dbp b2 = bitvectors_dbp b1
            ∧ colours_dbp b2 = colours_dbp b1).
  { unfold bigsLoad. simpl. unfold file_exists.
    rewrite lookup_insert_eq.
    rewrite (bool_decide_eq_true_2 (is_Some (Some (metadata_of b1)))) by eauto.
    rewrite bool_decide_eq_true_2 by (apply Hbvf; congruence).
    rewrite bool_decide_eq_true_2 by (apply Hcolf; congruence).
    simpl. unfold scan_count, metadata_of. rewrite Hmd, Hbv, Hcol. simpl.
    unfold initDBs, openDB. simpl.
    destruct (Hcolf _ Hcol) as [cdb Hcdb]. destruct (Hbvf _ Hbv) as [bdb Hbdb].
    rewrite Hcdb, Hbdb.
    match goal with
    | |- context [checkDB w2 ?x] =>
        replace (checkDB w2 x) with 0;
        [|rewrite <- Hcheck; apply checkDB_ext; simpl; congruence]
    end.
    simpl. eexists. split; [reflexivity|]. simpl. repeat split; congruence. }
  destruct Hload as (b2 & Hload & L1 & L2 & L3 & L4 & L5 & L6).
  exists b2. split; [exact Hload|]. split.
  - by apply bigsQuery_ext.
  - by apply bigsLookupColour_ext.
Qed.

Lemma persist_load_roundtrip_witness :
  ∃ b b1 w1 w2,
    S1_built = Some b
    ∧ bigsIndex empty_world b = (INDEX_OK, b1, w1)
    ∧ bigsDestroy w1 (Some b1) = (0, w2)
    ∧ ∃ b2, bigsLoad w2 (dbDirectory b) = Some b2
        ∧ (∀ hashValues len result,
             bigsQuery w2 b2 hashValues len result
             = bigsQuery w1 b1 hashValues len result)
        ∧ (∀ colour result,
             bigsLookupColour w2 b2 colour result
             = bigsLookupColour w1 b1 colour result).
Proof.
  let built := eval vm_compute in S1_built in
  match built with
  | Some ?b =>
      let frozen := eval vm_compute in (bigsIndex empty_world b) in
      match frozen with
      | (_, ?b1, ?w1) =>
          let destroyed := eval vm_compute in (bigsDestroy w1 (Some b1)) in
          match destroyed with
          | (_, ?w2) =>
              exists b, b1, w1, w2;
              split; [vm_compute; reflexivity|];
              split; [vm_compute; reflexivity|];
              split; [vm_compute; reflexivity|];
              refine (proj2 (persist_load_roundtrip empty_world w1 w2 b b1 0 _ _));
              vm_compute; reflexivity
          end
      end
  end.
Defined.

(** ** bigsIndex returns 0 on every BIGSI with a colour *)

Section Freeze.
Variable MAX_COLOURS : Z.
Hypothesis MAX_COLOURS_int : 0 < MAX_COLOURS <= INT_MAX.

(** The loop counts the entries it accepts: when it runs to its end,
    [inputMapCheck] has grown by as much as [colourIterator]. *)
Lemma add_loop_count (id2bf : list (string * bloomfilter_t)) (keys : list string) :
  ∀ (k : Z) (b b' : bigsi_t) (k' : Z),
    0 <= colourIterator b < MAX_COLOURS ->
    0 <= k -> k + (MAX_COLOURS - colourIterator b) <= INT_MAX ->
    add_loop MAX_COLOURS id2bf keys k b = (ADD_OK, b', k') ->
    k' - k = colourIterator b' - colourIterator b.
Proof.
  induction keys as [|seqID keys IH]; intros k b b' k' Hci Hk Hmax; simpl.
  - intros [= <- <-]. lia.
  - destruct (idChecker b !! seqID); [discriminate|].
    destruct (map_get id2bf seqID) as [newBF|]; [|discriminate].
    destruct (bvCount (bf_bitvector newBF) =? 0); [discriminate|].
    destruct (negb _ || negb _); [discriminate|].
    destruct (array_store (tmpBitVectors b) _ _) as [tmp|]; [|discriminate].
    destruct (array_store (colourArray b) _ _) as [ca|]; [|discriminate].
    pose proof (record_colour_iterator MAX_COLOURS MAX_COLOURS_int b seqID
                  (Some tmp) (Some ca) Hci) as Hrec.
    set (b1 := record_colour b seqID (Some tmp) (Some ca)) in *.
    change (to_int32 (colourIterator b + 1)) with (colourIterator b1).
    destruct (Z.eqb_spec (colourIterator b1) MAX_COLOURS); [discriminate|].
    rewrite to_int32_small by (unfold INT_MAX in *; lia).
    intros Hloop. apply IH in Hloop; lia.
Qed.




End Freeze.




Lemma array_load_free_ne {A : Type} (arr : option (list (option A))) (i j : Z) :
  i ≠ j -> 0 <= j -> array_load (array_free arr i) j = array_load arr j.
Proof.
  intros Hne Hj. unfold array_load, array_free. destruct arr as [l|]; [|done].
  destruct (Z.leb_spec 0 i); [|done].
  destruct (0 <=? j); [|done].
  rewrite list_lookup_insert_ne; [done|lia].
Qed.


Lemma hash_location_range (b : bigsi_t) (h : Z) :
  0 < numBits b <= INT_MAX -> 0 <= hash_location b h < numBits b.
Proof.
  intros Hnb. unfold hash_location, INT_MAX in *.
  rewrite (to_uint64_small (numBits b)) by lia.
  pose proof (Z.mod_pos_bound h (numBits b) ltac:(lia)).
  rewrite to_uint32_small by lia. done.
Qed.

(** On a row store that holds every row, the loop of a query ends with 0
    when the result vector has one bit per colour and the hash values are
    there. *)
Lemma query_loop_total (w : world) (b : bigsi_t) (hashValues : list Z) :
  rows_ok w b ->
  ∀ (n : nat) (i : Z) (result : bitvector_t) (fetched : list Z),
    0 <= i -> (Z.to_nat i + n <= length hashValues)%nat ->
    capacity result = colourIterator b ->
    (query_loop w b hashValues n i result fetched).1.1 = QUERY_OK
    ∧ capacity (query_loop w b hashValues n i result fetched).1.2
      = colourIterator b.
Proof.
  intros [Hnb Hrows]. induction n as [|n IH]; intros i result fetched Hi Hlen Hcap;
    simpl; [done|].
  destruct (lookup_lt_is_Some_2 hashValues (Z.to_nat i) ltac:(lia)) as [h ->].
  destruct (Hrows (hash_location b h) (hash_location_range b h Hnb))
    as (row & -> & Hrow).
  destruct (bvCount row =? 0); [done|].
  unfold bvBOR, bvBANDupdate. rewrite Hcap, Hrow, !Z.eqb_refl. simpl.
  assert (Hzip : ∀ f : bool -> bool -> bool,
            capacity (zip_with f result row) = colourIterator b).
  { intros f. unfold capacity in *. rewrite length_zip_with. lia. }
  destruct (i =? 0).
  - apply IH; [lia|lia|apply Hzip].
  - destruct (bvCount _ =? 0); [simpl; split; [done|apply Hzip]|].
    apply IH; [lia|lia|apply Hzip].
Qed.





(** ** Queries on a frozen BIGSI when no fetched row is empty *)

Lemma zip_and_empty (r x : bitvector_t) :
  popcount r = O -> length x = length r -> zip_with andb r x = r.
Proof.
  revert x. induction r as [|a r IH]; intros [|y x]; simpl; try done.
  destruct a; [done|]. intros Hr [= Hlen]. simpl. f_equal. by apply IH.
Qed.

Lemma foldl_and_empty (r : bitvector_t) (rows : list bitvector_t) :
  popcount r = O -> Forall (λ x, length x = length r) rows ->
  foldl (zip_with andb) r rows = r.
Proof.
  intros Hr Hrows. induction Hrows as [|x rows Hx _ IH]; simpl; [done|].
  by rewrite zip_and_empty.
Qed.

(** From the second position on, with every row in the store and no row
    empty, the loop leaves the AND of [result] with the rows to come. *)
Lemma query_loop_and_all (w : world) (b : bigsi_t) (hashValues : list Z) :
  rows_ok w b ->
  ∀ (n : nat) (i : Z) (result : bitvector_t) (fetched : list Z),
    1 <= i -> (Z.to_nat i + n)%nat = length hashValues ->
    capacity result = colourIterator b ->
    Forall (λ h, bvCount (row_at w b h) ≠ 0) hashValues ->
    (query_loop w b hashValues n i result fetched).1
    = (QUERY_OK, foldl (zip_with andb) result
                   (map (row_at w b) (drop (Z.to_nat i) hashValues))).
Proof.
  intros [Hnb Hrows]. induction n as [|n IH];
    intros i result fetched Hi Hlen Hcap Hfull; simpl.
  - rewrite drop_ge by lia. done.
  - destruct (lookup_lt_is_Some_2 hashValues (Z.to_nat i) ltac:(lia)) as [h Hh].
    rewrite Hh. rewrite (drop_S _ _ _ Hh). simpl.
    pose proof (proj1 (Forall_lookup _ _) Hfull _ _ Hh) as Hne.
    unfold row_at in Hne |- * at 1.
    destruct (Hrows (hash_location b h) (hash_location_range b h Hnb))
      as (row & Hget & Hrow).
    rewrite Hget in Hne |- *. simpl in Hne |- *.
    destruct (Z.eqb_spec (bvCount row) 0); [contradiction|].
    destruct (Z.eqb_spec i 0); [lia|].
    unfold bvBANDupdate. rewrite Hcap, Hrow, Z.eqb_refl.
    assert (Hzip : capacity (zip_with andb result row) = colourIterator b).
    { unfold capacity in *. rewrite length_zip_with. lia. }
    destruct (Z.eqb_spec (bvCount (zip_with andb result row)) 0) as [Hzero|].
    + simpl. rewrite foldl_and_empty; [done|unfold bvCount in Hzero; lia|].
      apply Forall_forall. intros x Hx.
      apply list_elem_of_fmap in Hx as (h' & -> & Hin).
      apply list_elem_of_lookup in Hin as [j Hj].
      rewrite lookup_drop in Hj.
      unfold row_at.
      destruct (Hrows (hash_location b h') (hash_location_range b h' Hnb))
        as (row' & -> & Hrow'). simpl. unfold capacity in *. lia.
    + replace (S (Z.to_nat i)) with (Z.to_nat (i + 1)) by lia.
      apply IH; [lia|lia|done|done].
Qed.

(** On a frozen BIGSI, a query with the right number of hash values and a
    result vector of the right capacity, holding anything, returns 0 when
    none of the rows it asks for is empty, and the result is the initial
    contents ORed with the first row and ANDed with the others. *)
Theorem bigsQuery_and_chain (w : world) (b : bigsi_t) (hashValues : list Z)
    (result : bitvector_t) :
  rows_ok w b -> indexed b = true ->
  0 <= numHashes b <= INT_MAX ->
  Z.of_nat (length hashValues) = numHashes b ->
  capacity result = colourIterator b ->
  Forall (λ h, bvCount (row_at w b h) ≠ 0) hashValues ->
  (bigsQuery w b (Some hashValues) (numHashes b) (Some result)).1
  = (QUERY_OK, Some (and_chain result (map (row_at w b) hashValues))).
Proof.
  intros Hrows_ok Hidx Hnh Hlen Hcap Hfull. unfold bigsQuery, INT_MAX in *.
  rewrite Hidx, to_uint32_small, Z.eqb_refl, Hcap, Z.eqb_refl by lia. simpl.
  rewrite <- Hlen, Nat2Z.id.
  destruct hashValues as [|h hs]; simpl; [done|].
  pose proof Hrows_ok as [Hnb Hrows].
  pose proof (Forall_inv Hfull) as Hne. unfold row_at in Hne |- * at 1.
  destruct (Hrows (hash_location b h) (hash_location_range b h Hnb))
    as (row & Hget & Hrow).
  rewrite Hget in Hne |- *. simpl in Hne |- *.
  destruct (Z.eqb_spec (bvCount row) 0); [contradiction|].
  unfold bvBOR. rewrite Hcap, Hrow, Z.eqb_refl. simpl.
  assert (Hzip : capacity (zip_with orb result row) = colourIterator b).
  { unfold capacity in *. rewrite length_zip_with. lia. }
  pose proof (query_loop_and_all w b (h :: hs) Hrows_ok (length hs) 1
                (zip_with orb result row) [hash_location b h]
                ltac:(lia) ltac:(simpl; lia) Hzip Hfull) as Hloop.
  destruct (query_loop _ _ _ _ _ _ _) as [[st r] fetched]. simpl in Hloop.
  rewrite drop_0 in Hloop. by injection Hloop as -> ->.
Qed.

(** ** Colour lookups on a frozen BIGSI *)

(** What a finished last cycle leaves in the colour store: under each
    colour from [colour] on its sequence ID, the other keys as they were. *)
Lemma index_colours_spec :
  ∀ (n : nat) (colour : Z) (b b' : bigsi_t)
    (files files' : gmap string (gmap Z string)),
    0 <= colour -> colour + Z.of_nat n <= 2 ^ 32 ->
    index_colours n colour b files = (None, b', files') ->
    (∀ c, colour <= c < colour + Z.of_nat n ->
       ∃ seqID, array_load (colourArray b) c = Some seqID
                ∧ db_get files' (colours_dbp b) c = Some seqID)
    ∧ (∀ key, ¬ (colour <= key < colour + Z.of_nat n) ->
         db_get files' (colours_dbp b) key = db_get files (colours_dbp b) key).
Proof.
  induction n as [|n IH]; intros colour b b' files files' Hc Hmax; simpl.
  - intros [= <- <-]. split; [|done]. intros c Hr. lia.
  - destruct (array_load (colourArray b) colour) as [seqID|] eqn:Hload;
      [|discriminate].
    rewrite to_uint32_small by lia.
    destruct (db_put files _ colour seqID) as [files1|] eqn:Hput; [|discriminate].
    apply db_get_put in Hput as (Hsame & Hother & _).
    intros Hrest. apply IH in Hrest as (Hcols & Hframe); [|lia|lia].
    cbn [colours_dbp colourArray set_arrays] in Hcols, Hframe.
    split.
    + intros c Hr. destruct (decide (c = colour)) as [->|Hne].
      * exists seqID. split; [done|]. rewrite Hframe by lia. done.
      * destruct (Hcols c) as (id & Hid & Hget); [lia|].
        rewrite array_load_free_ne in Hid by lia. eauto.
    + intros key Hkey. rewrite Hframe by lia. apply Hother. lia.
Qed.

Lemma initDBs_fresh_colours (w w1 : world) (b b1 : bigsi_t) (f : string) :
  colours_db b = Some f -> colour_files w !! f = None ->
  initDBs true w b = Some (b1, w1) ->
  colour_files w1 !! f = Some ∅.
Proof.
  intros Hf Hnone. unfold initDBs, openDB. rewrite Hf, Hnone.
  destruct (bitvectors_db b) as [g|]; [|discriminate].
  destruct (bitvector_files w !! g); intros [= <- <-]; simpl;
    apply lookup_insert_eq.
Qed.

(** The lookups on a BIGSI that bigsIndex froze: a colour in range yields
    the sequence ID recorded for it; a colour above [colourIterator] is
    turned down by the range check; in a directory that held no colour
    store before the freeze, the colour equal to [colourIterator] and the
    negative colours are turned down because the store has no such key;
    and nothing is looked up before the freeze. *)
Theorem bigsLookupColour_frozen (MAX_COLOURS : Z) (w w' : world) (b b' : bigsi_t) :
  0 < MAX_COLOURS <= INT_MAX ->
  built MAX_COLOURS b ->
  bigsIndex w b = (INDEX_OK, b', w') ->
  (∀ c, 0 <= c < colourIterator b ->
     ∃ seqID, array_load (colourArray b) c = Some seqID
              ∧ bigsLookupColour w' b' c true = (LOOKUP_OK, Some seqID))
  ∧ (∀ c, colourIterator b < c ->
       bigsLookupColour w' b' c true = (LOOKUP_ERR (ColourNotPresent c), None))
  ∧ (colour_files w !! (dbDirectory b +:+ "/" +:+ COLOURS_DB_FILENAME) = None ->
     ∀ c, - 2 ^ 31 <= c < 0 ∨ c = colourIterator b ->
       bigsLookupColour w' b' c true = (LOOKUP_ERR (ColourNotFound c), None))
  ∧ (∀ c result, bigsLookupColour w b c result = (LOOKUP_ERR LookupUnindexed, None)).
Proof.
  intros HM Hbuilt Hindex.
  pose proof (built_build_inv MAX_COLOURS HM b Hbuilt) as (Hci & _ & Hidx & _).
  unfold INT_MAX in *.
  apply bigsIndex_ok_inv in Hindex
    as (b1 & w1 & bf & b2 & cf & _ & _ & Hinit & _ & Hcols & -> & -> & _).
  pose proof (initDBs_spec _ _ _ _ _ Hinit) as (-> & _).
  pose proof (index_colours_fields _ _ _ _ _ _ _ Hcols)
    as (_ & _ & F3 & _ & _ & _ & F7 & _).
  apply index_colours_spec in Hcols as (Hstored & Hframe); [|lia|simpl; lia].
  cbn [colours_dbp colours_db colourArray set_handles setFilenames set_files
       colourIterator dbDirectory] in Hstored, Hframe, F3, F7.
  assert (Hlook : ∀ c, c <= colourIterator b ->
            bigsLookupColour (set_colour_files (set_bitvector_files w1 bf) cf)
              (mark_indexed b2) c true
            = match db_get cf (Some (dbDirectory b +:+ "/" +:+ COLOURS_DB_FILENAME))
                      (to_uint32 c) with
              | None => (LOOKUP_ERR (ColourNotFound c), None)
              | Some seqID => (LOOKUP_OK, Some seqID)
              end).
  { intros c Hc. unfold bigsLookupColour. simpl. rewrite F3, F7.
    destruct (Z.ltb_spec (colourIterator b) c); [lia|done]. }
  split; [|split; [|split]].
  - intros c Hc. destruct (Hstored c) as (seqID & Hid & Hget); [lia|].
    exists seqID. split; [done|]. rewrite Hlook by lia.
    rewrite to_uint32_small by lia. by rewrite Hget.
  - intros c Hc. unfold bigsLookupColour. simpl. rewrite F3.
    destruct (Z.ltb_spec (colourIterator b) c); [done|lia].
  - intros Hfresh c Hc. rewrite Hlook by lia.
    pose proof (initDBs_fresh_colours w w1 (setFilenames b) _
                  (dbDirectory b +:+ "/" +:+ COLOURS_DB_FILENAME)
                  eq_refl Hfresh Hinit) as Hempty.
    assert (Hkey : ¬ (0 <= to_uint32 c < 0 + Z.of_nat (Z.to_nat (colourIterator b)))).
    { unfold to_uint32. destruct Hc as [Hneg| ->].
      - replace c with (c + 2 ^ 32 + (-1) * 2 ^ 32) by lia.
        rewrite Z.mod_add by lia. rewrite Z.mod_small; lia.
      - rewrite Z.mod_small; lia. }
    rewrite Hframe by exact Hkey.
    unfold db_get. rewrite Hempty, lookup_empty. done.
  - intros c result. unfold bigsLookupColour. by rewrite Hidx.
Qed.

(** * Further properties of the code *)

(** ** bigsAdd on whole batches *)

Lemma map_get_elem_of (id2bf : list (string * bloomfilter_t)) (seqID : string)
    (bf : bloomfilter_t) :
  map_get id2bf seqID = Some bf -> (seqID, bf) ∈ id2bf.
Proof.
  induction id2bf as [|[k v] rest IH]; simpl; [discriminate|].
  destruct (String.eqb_spec k seqID) as [->|Hne].
  - intros [= ->]. left.
  - intros H. right. by apply IH.
Qed.

Lemma map_get_is_Some (id2bf : list (string * bloomfilter_t)) (seqID : string) :
  seqID ∈ map fst id2bf -> is_Some (map_get id2bf seqID).
Proof.
  induction id2bf as [|[k v] rest IH]; simpl.
  - intros H. by apply elem_of_nil in H.
  - intros H. destruct (String.eqb_spec k seqID) as [->|Hne]; [eauto|].
    apply elem_of_cons in H as [->|H]; [done|]. by apply IH.
Qed.

(** In a map, the filter found for the key at position [j] is the one at
    position [j]. *)
Lemma map_get_NoDup (id2bf : list (string * bloomfilter_t)) (j : nat)
    (seqID : string) (bf : bloomfilter_t) :
  NoDup (map fst id2bf) -> id2bf !! j = Some (seqID, bf) ->
  map_get id2bf seqID = Some bf.
Proof.
  revert j. induction id2bf as [|[k v] rest IH]; intros j Hnd Hj; [done|].
  simpl in Hnd. apply NoDup_cons in Hnd as [Hk Hnd]. simpl.
  destruct j as [|j]; simpl in Hj.
  - injection Hj as -> ->. by rewrite String.eqb_refl.
  - destruct (String.eqb_spec k seqID) as [->|Hne]; [|by eapply IH].
    exfalso. apply Hk. apply list_elem_of_fmap. exists (seqID, bf).
    split; [done|]. by eapply list_elem_of_lookup_2.
Qed.

Section Batches.
Variable MAX_COLOURS : Z.
Hypothesis MAX_COLOURS_int : 0 < MAX_COLOURS <= INT_MAX.

(** Whatever the loop returns, the colours recorded before it are kept. *)
Lemma add_loop_retains (id2bf : list (string * bloomfilter_t))
    (keys : list string) :
  ∀ (k : Z) (b b' : bigsi_t) (st : add_status) (k' : Z),
    0 <= colourIterator b < MAX_COLOURS ->
    add_loop MAX_COLOURS id2bf keys k b = (st, b', k') ->
    (∀ x c, idChecker b !! x = Some c -> idChecker b' !! x = Some c)
    ∧ (∀ c, 0 <= c < colourIterator b ->
         array_load (colourArray b') c = array_load (colourArray b) c
         ∧ array_load (tmpBitVectors b') c = array_load (tmpBitVectors b) c).
Proof.
  induction keys as [|seqID keys IH]; intros k b b' st k' Hci; simpl.
  - by intros [= <- <- <-].
  - destruct (idChecker b !! seqID) eqn:Hid; [by intros [= <- <- <-]|].
    destruct (map_get id2bf seqID) as [newBF|]; [|by intros [= <- <- <-]].
    destruct (bvCount (bf_bitvector newBF) =? 0); [by intros [= <- <- <-]|].
    destruct (negb _ || negb _); [by intros [= <- <- <-]|].
    destruct (tmpBitVectors b) as [tmpl|] eqn:Htmp;
      [|intros [= <- <- <-]; by rewrite ?Htmp].
    destruct (array_store (Some tmpl) _ _) as [tmp|] eqn:Hst1;
      [|intros [= <- <- <-]; by rewrite ?Htmp].
    destruct (colourArray b) as [cal|] eqn:Hca;
      [|intros [= <- <- <-]; by rewrite ?Htmp, ?Hca].
    destruct (array_store (Some cal) _ _) as [ca|] eqn:Hst2;
      [|intros [= <- <- <-]; by rewrite ?Htmp, ?Hca].
    apply array_load_store in Hst1 as (_ & Ho1 & _).
    apply array_load_store in Hst2 as (_ & Ho2 & _).
    pose proof (record_colour_iterator MAX_COLOURS MAX_COLOURS_int b seqID
                  (Some tmp) (Some ca) Hci) as Hrec.
    assert (Hstep :
      (∀ x c, idChecker b !! x = Some c ->
              idChecker (record_colour b seqID (Some tmp) (Some ca)) !! x = Some c)
      ∧ (∀ c, 0 <= c < colourIterator b ->
           array_load (colourArray (record_colour b seqID (Some tmp) (Some ca))) c
           = array_load (Some cal) c
           ∧ array_load (tmpBitVectors (record_colour b seqID (Some tmp) (Some ca))) c
             = array_load (Some tmpl) c)).
    { split.
      - intros x c Hx. simpl. rewrite lookup_insert_ne; [done|].
        intros ->. congruence.
      - intros c Hc. cbn [colourArray tmpBitVectors record_colour].
        rewrite Ho1, Ho2 by lia. done. }
    set (b1 := record_colour b seqID (Some tmp) (Some ca)) in *.
    change (to_int32 (colourIterator b + 1)) with (colourIterator b1).
    destruct (Z.eqb_spec (colourIterator b1) MAX_COLOURS).
    + intros [= <- <- <-]. exact Hstep.
    + intros Hloop. apply IH in Hloop as [I1 I2]; [|lia].
      destruct Hstep as [S1 S2]. split.
      * intros x c Hx. by apply I1, S1.
      * intros c Hc. destruct (I2 c) as [J1 J2]; [lia|].
        destruct (S2 c Hc) as [K1 K2]. by rewrite J1, J2, K1, K2.
Qed.

(** A loop that runs to its end has recorded the key at position [j] under
    the colour [colourIterator + j], with its sequence ID and the vector of
    the filter found for it. *)
Lemma add_loop_records (id2bf : list (string * bloomfilter_t))
    (keys : list string) :
  ∀ (k : Z) (b b' : bigsi_t) (k' : Z),
    0 <= colourIterator b < MAX_COLOURS ->
    add_loop MAX_COLOURS id2bf keys k b = (ADD_OK, b', k') ->
    colourIterator b' = colourIterator b + Z.of_nat (length keys)
    ∧ ∀ (j : nat) (seqID : string), keys !! j = Some seqID ->
        idChecker b' !! seqID = Some (colourIterator b + Z.of_nat j)
        ∧ array_load (colourArray b') (colourIterator b + Z.of_nat j) = Some seqID
        ∧ ∃ bf, map_get id2bf seqID = Some bf
                ∧ bloom_ok b bf
                ∧ array_load (tmpBitVectors b') (colourIterator b + Z.of_nat j)
                  = Some (bf_bitvector bf).
Proof.
  induction keys as [|seqID keys IH]; intros k b b' k' Hci; simpl.
  - intros [= <- <-]. split; [lia|]. intros j x Hj. done.
  - destruct (idChecker b !! seqID) eqn:Hid; [discriminate|].
    destruct (map_get id2bf seqID) as [newBF|] eqn:Hget; [|discriminate].
    destruct (Z.eqb_spec (bvCount (bf_bitvector newBF)) 0); [discriminate|].
    destruct (Z.eqb_spec (bf_numHashes newBF) (numHashes b)); [|discriminate].
    destruct (Z.eqb_spec (capacity (bf_bitvector newBF)) (numBits b));
      [|discriminate]. simpl.
    destruct (tmpBitVectors b) as [tmpl|] eqn:Htmp; [|discriminate].
    destruct (array_store (Some tmpl) _ _) as [tmp|] eqn:Hst1; [|discriminate].
    destruct (colourArray b) as [cal|] eqn:Hca; [|discriminate].
    destruct (array_store (Some cal) _ _) as [ca|] eqn:Hst2; [|discriminate].
    apply array_load_store in Hst1 as (Hn1 & _ & _).
    apply array_load_store in Hst2 as (Hn2 & _ & _).
    pose proof (record_colour_iterator MAX_COLOURS MAX_COLOURS_int b seqID
                  (Some tmp) (Some ca) Hci) as Hrec.
    set (b1 := record_colour b seqID (Some tmp) (Some ca)) in *.
    change (to_int32 (colourIterator b + 1)) with (colourIterator b1).
    destruct (Z.eqb_spec (colourIterator b1) MAX_COLOURS); [discriminate|].
    intros Hloop.
    pose proof Hloop as Hret. apply add_loop_retains in Hret as [R1 R2]; [|lia].
    apply IH in Hloop as [Hlen Hrecs]; [|lia].
    split; [lia|]. intros [|j] x Hj; simpl in Hj.
    + injection Hj as <-. rewrite Z.add_0_r.
      destruct (R2 (colourIterator b)) as [R3 R4]; [lia|].
      rewrite R3, R4. subst b1. cbn [colourArray tmpBitVectors record_colour].
      split; [|split; [done|]].
      * apply R1. simpl. apply lookup_insert_eq.
      * exists newBF. by repeat split.
    + destruct (Hrecs j x Hj) as (H1 & H2 & bf & H3 & H4 & H5).
      replace (colourIterator b + Z.of_nat (S j))
        with (colourIterator b1 + Z.of_nat j) by lia.
      split; [done|]. split; [done|]. exists bf.
      split; [done|]. split; [exact H4|done].
Qed.



(** What a call of bigsAdd that returns 0 has done: the batch had exactly
    [numEntries] entries, with pairwise different keys; [colourIterator]
    rose by [numEntries]; and the key iterated at position [j] has the
    colour [colourIterator + j], under which colourArray holds the key and
    tmpBitVectors the vector of its Bloom filter, a filter that passed the
    checks. *)
Theorem bigsAdd_records (b b' : bigsi_t) (id2bf : list (string * bloomfilter_t))
    (numEntries : Z) :
  built MAX_COLOURS b ->
  bigsAdd MAX_COLOURS b id2bf numEntries = (ADD_OK, b') ->
  numEntries = Z.of_nat (length id2bf)
  ∧ colourIterator b' = colourIterator b + numEntries
  ∧ NoDup (map fst id2bf)
  ∧ ∀ (j : nat) (seqID : string) (bf : bloomfilter_t),
      id2bf !! j = Some (seqID, bf) ->
      idChecker b' !! seqID = Some (colourIterator b + Z.of_nat j)
      ∧ array_load (colourArray b') (colourIterator b + Z.of_nat j) = Some seqID
      ∧ array_load (tmpBitVectors b') (colourIterator b + Z.of_nat j)
        = Some (bf_bitvector bf)
      ∧ bloom_ok b bf.
Proof.
  intros Hbuilt Hadd.
  pose proof (built_build_inv MAX_COLOURS MAX_COLOURS_int b Hbuilt) as (Hci & _).
  unfold bigsAdd in Hadd.
  destruct (add_allocate b numEntries) as [st b1] eqn:Halloc.
  destruct st; try discriminate.
  apply add_allocate_fields in Halloc as (A1 & A2 & A3 & A4 & _).
  destruct (add_loop _ _ _ _ _) as [[st b2] k] eqn:Hloop.
  destruct st; try discriminate.
  destruct (Z.eqb_spec k numEntries) as [->|]; [|discriminate].
  injection Hadd as <-.
  pose proof Hloop as Hcount.
  apply (add_loop_count MAX_COLOURS MAX_COLOURS_int) in Hcount; [|lia|lia|lia].
  apply add_loop_records in Hloop as [Hlen Hrecs]; [|lia].
  rewrite length_map in Hlen.
  assert (Hnd : NoDup (map fst id2bf)).
  { apply NoDup_alt. intros i j x Hi Hj.
    destruct (Hrecs i x Hi) as (Hi' & _). destruct (Hrecs j x Hj) as (Hj' & _).
    rewrite Hi' in Hj'. injection Hj' as Hij. lia. }
  split; [lia|]. split; [lia|]. split; [exact Hnd|].
  intros j seqID bf Hj.
  destruct (Hrecs j seqID) as (H1 & H2 & bf' & H3 & H4 & H5).
  { rewrite list_lookup_fmap, Hj. done. }
  rewrite (map_get_NoDup id2bf j seqID bf Hnd Hj) in H3. injection H3 as <-.
  rewrite A1 in H1, H2, H5. split; [done|]. split; [done|]. split; [done|].
  destruct H4 as (H41 & H42 & H43). unfold bloom_ok.
  rewrite <- A3, <- A4. done.
Qed.




End Batches.

(** ** bigsIndex: what it refuses, what it touches, what it releases *)

Lemma db_put_frame {V : Type} (files files' : gmap string (gmap Z V))
    (f : string) (key : Z) (data : V) :
  db_put files (Some f) key data = Some files' ->
  ∀ g, g ≠ f -> files' !! g = files !! g.
Proof.
  unfold db_put. destruct (files !! f) as [db|]; [|discriminate].
  intros Heq f' Hf'. injection Heq as <-. by apply lookup_insert_ne.
Qed.

Lemma index_rows_frame (b : bigsi_t) (f : string) :
  bitvectors_dbp b = Some f ->
  ∀ (n : nat) (i : Z) (files files' : gmap string (gmap Z bitvector_t))
    (e : option index_error),
    index_rows b n i files = (e, files') ->
    ∀ g, g ≠ f -> files' !! g = files !! g.
Proof.
  intros Hdbp. induction n as [|n IH]; intros i files files' e; simpl.
  - by intros [= <- <-].
  - destruct (index_row _ _ _ _ _) as [err|newBV]; [by intros [= <- <-]|].
    rewrite Hdbp.
    destruct (db_put files _ _ newBV) as [files1|] eqn:Hput;
      [|by intros [= <- <-]].
    intros Hrest g Hg. rewrite (IH _ _ _ _ Hrest g Hg).
    by eapply db_put_frame.
Qed.

(** The last cycle touches one file of the colour store and leaves every
    slot it passed empty. *)
Lemma index_colours_frame (f : string) :
  ∀ (n : nat) (colour : Z) (b b' : bigsi_t)
    (files files' : gmap string (gmap Z string)) (e : option index_error),
    colours_dbp b = Some f -> 0 <= colour ->
    index_colours n colour b files = (e, b', files') ->
    (∀ g, g ≠ f -> files' !! g = files !! g)
    ∧ idChecker b' = idChecker b
    ∧ (e = None -> ∀ c, colour <= c < colour + Z.of_nat n ->
         array_load (colourArray b') c = None
         ∧ array_load (tmpBitVectors b') c = None)
    ∧ (∀ c, 0 <= c < colour ->
         array_load (colourArray b') c = array_load (colourArray b) c
         ∧ array_load (tmpBitVectors b') c = array_load (tmpBitVectors b) c).
Proof.
  induction n as [|n IH]; intros colour b b' files files' e Hdbp Hc; simpl.
  - intros [= <- <- <-]. split; [done|]. split; [done|].
    split; [intros _ c0 Hr; lia|done].
  - destruct (array_load (colourArray b) colour) as [seqID|];
      [|intros [= <- <- <-]; repeat split; done || discriminate].
    rewrite Hdbp.
    destruct (db_put files _ _ seqID) as [files1|] eqn:Hput;
      [|intros [= <- <- <-]; repeat split; done || discriminate].
    intros Hrest. apply IH in Hrest as (Hframe & Hid & Hfreed & Hkept);
      [|done|lia].
    cbn [colourArray tmpBitVectors idChecker set_arrays] in Hid, Hfreed, Hkept.
    assert (Hfree : ∀ {A : Type} (arr : option (list (option A))),
              array_load (array_free arr colour) colour = None).
    { intros A arr. unfold array_load, array_free. destruct arr as [l|]; [|done].
      destruct (Z.leb_spec 0 colour) as [_|]; [|lia].
      destruct (decide (Z.to_nat colour < length l)%nat).
      - by rewrite list_lookup_insert_eq.
      - rewrite lookup_ge_None_2; [done|]. rewrite length_insert. lia. }
    split; [|split; [done|split]].
    + intros g Hg. rewrite (Hframe g Hg). by eapply db_put_frame.
    + intros -> c Hr. destruct (decide (c = colour)) as [->|Hne].
      * destruct (Hkept colour) as [K1 K2]; [lia|]. by rewrite K1, K2, !Hfree.
      * apply Hfreed; [done|lia].
    + intros c Hr. destruct (Hkept c) as [K1 K2]; [lia|].
      by rewrite K1, K2, !array_load_free_ne by lia.
Qed.

Lemma openDB_frame {V : Type} (create : bool) (files files' : gmap string (gmap Z V))
    (f : string) (dbp : option string) :
  openDB create files (Some f) = Some (dbp, files') ->
  ∀ g, g ≠ f -> files' !! g = files !! g.
Proof.
  unfold openDB. destruct (files !! f).
  - by intros [= <- <-].
  - destruct create; [|discriminate]. intros Heq f' Hf'.
    injection Heq as <- <-. by apply lookup_insert_ne.
Qed.

(** bigsIndex refuses a BIGSI without colours, leaving everything as it is,
    and a BIGSI that a call of bigsIndex froze is refused by every further
    call, whatever the files: a BIGSI is frozen at most once. *)
Theorem bigsIndex_once (w : world) (b : bigsi_t) :
  (colourIterator b < 1 -> bigsIndex w b = (INDEX_ERR NothingToIndex, b, w))
  ∧ (∀ b' w', bigsIndex w b = (INDEX_OK, b', w') ->
       ∀ w'', bigsIndex w'' b' = (INDEX_ERR AlreadyIndexed, b', w'')).
Proof.
  split.
  - intros Hci. unfold bigsIndex.
    destruct (Z.ltb_spec (colourIterator b) 1); [done|lia].
  - intros b' w' Hindex w''.
    pose proof (bigsIndex_ok_inv _ _ _ _ Hindex) as (_ & _ & _ & _ & _ & Hci & _).
    apply bigsIndex_ok_fields in Hindex as (_ & _ & Hci' & Hidx & _).
    unfold bigsIndex. rewrite Hidx.
    destruct (Z.ltb_spec (colourIterator b') 1); [lia|done].
Qed.

(** A call of bigsIndex that returns 0 writes the row store and the colour
    store of the directory and no other file (the metadata document is not
    written), drops the sequence-ID map, empties the slots of both
    build-phase arrays, and keeps the bit count, the hash count and the
    colour count. *)
Theorem bigsIndex_effects (w w' : world) (b b' : bigsi_t) :
  bigsIndex w b = (INDEX_OK, b', w') ->
  json_files w' = json_files w
  ∧ (∀ f, f ≠ dbDirectory b +:+ "/" +:+ BITVECTORS_DB_FILENAME ->
       bitvector_files w' !! f = bitvector_files w !! f)
  ∧ (∀ f, f ≠ dbDirectory b +:+ "/" +:+ COLOURS_DB_FILENAME ->
       colour_files w' !! f = colour_files w !! f)
  ∧ idChecker b' = ∅ ∧ indexed b' = true
  ∧ numBits b' = numBits b ∧ numHashes b' = numHashes b
  ∧ colourIterator b' = colourIterator b
  ∧ (∀ c, 0 <= c < colourIterator b ->
       array_load (colourArray b') c = None
       ∧ array_load (tmpBitVectors b') c = None).
Proof.
  intros Hindex.
  pose proof (bigsIndex_ok_fields _ _ _ _ Hindex) as (F1 & F2 & F3 & F4 & _).
  apply bigsIndex_ok_inv in Hindex
    as (b1 & w1 & bf & b2 & cf & Hci & _ & Hinit & Hrows & Hcols & -> & -> & _).
  pose proof (initDBs_spec _ _ _ _ _ Hinit) as (-> & Hjson & _).
  unfold initDBs in Hinit.
  destruct (openDB true (colour_files w) _) as [[colp cf0]|] eqn:Hoc; [|discriminate].
  destruct (openDB true (bitvector_files w) _) as [[bvp bf0]|] eqn:Hob; [|discriminate].
  assert (w1 = set_bitvector_files (set_colour_files w cf0) bf0) as ->
    by congruence.
  clear Hinit.
  pose proof (openDB_frame true _ _
                (dbDirectory b +:+ "/" +:+ COLOURS_DB_FILENAME) _ Hoc) as Hfc.
  pose proof (openDB_frame true _ _
                (dbDirectory b +:+ "/" +:+ BITVECTORS_DB_FILENAME) _ Hob) as Hfb.
  pose proof (index_rows_frame
                (set_handles (setFilenames b) (bitvectors_db (setFilenames b))
                   (colours_db (setFilenames b)))
                (dbDirectory b +:+ "/" +:+ BITVECTORS_DB_FILENAME)
                eq_refl _ _ _ _ _ Hrows) as Hrf.
  apply (index_colours_frame (dbDirectory b +:+ "/" +:+ COLOURS_DB_FILENAME))
    in Hcols as (Hcf & _ & Hfreed & _); [|done|lia].
  simpl in *. repeat split; try done.
  - intros f Hf. by rewrite Hrf, Hfb.
  - intros f Hf. by rewrite Hcf, Hfc.
  - apply Hfreed; [done|lia].
  - apply Hfreed; [done|lia].
Qed.

(** ** bigsLoad and the files it needs *)

Lemma bigsLoad_no_metadata (w : world) (dbDir : string) :
  json_files w !! (dbDir +:+ "/" +:+ BIGSI_METADATA_FILENAME) = None ->
  bigsLoad w dbDir = None.
Proof.
  intros Hnone. unfold bigsLoad. simpl. unfold file_exists. rewrite Hnone.
  rewrite bool_decide_eq_false_2; [done|]. by intros [x Hx].
Qed.

(** bigsLoad returns the null pointer when the metadata document, the row
    store or the colour store is missing from the directory, when the
    document holds none of the seven keys, when a store the document names
    does not exist, and when checkDB fails on what was opened. *)
Theorem bigsLoad_failures (w : world) (dbDir : string) :
  (json_files w !! (dbDir +:+ "/" +:+ BIGSI_METADATA_FILENAME) = None
   ∨ bitvector_files w !! (dbDir +:+ "/" +:+ BITVECTORS_DB_FILENAME) = None
   ∨ colour_files w !! (dbDir +:+ "/" +:+ COLOURS_DB_FILENAME) = None ->
   bigsLoad w dbDir = None)
  ∧ (∀ d, json_files w !! (dbDir +:+ "/" +:+ BIGSI_METADATA_FILENAME) = Some d ->
       scan_count d = 0
       ∨ (∃ f, md_bitvectors d = Some f ∧ bitvector_files w !! f = None)
       ∨ (∃ f, md_colours d = Some f ∧ colour_files w !! f = None) ->
       bigsLoad w dbDir = None)
  ∧ (∀ b, bigsLoad w dbDir = Some b -> checkDB w b = 0).
Proof.
  split; [|split].
  - intros [Hj|[Hb|Hc]]; [by apply bigsLoad_no_metadata| |].
    + unfold bigsLoad. simpl. unfold file_exists. rewrite Hb.
      rewrite (bool_decide_eq_false_2 (is_Some None)) by (by intros [x Hx]).
      simpl. by rewrite orb_true_r.
    + unfold bigsLoad. simpl. unfold file_exists. rewrite Hc.
      rewrite (bool_decide_eq_false_2 (is_Some None)) by (by intros [x Hx]).
      simpl. by rewrite orb_true_r.
  - intros d Hd Hbad. unfold bigsLoad. simpl. rewrite Hd.
    destruct (_ || _); [done|].
    destruct Hbad as [Hzero|[(f & Hf & Hnone)|(f & Hf & Hnone)]].
    + rewrite Hzero. done.
    + destruct (scan_count d <? 1); [done|].
      unfold initDBs, openDB. simpl. rewrite Hf. simpl.
      destruct (from_option Some _ (md_colours d)) as [g|]; [|done].
      destruct (colour_files w !! g); [|done]. by rewrite Hnone.
    + destruct (scan_count d <? 1); [done|].
      unfold initDBs, openDB. simpl. rewrite Hf. simpl. by rewrite Hnone.
  - intros b. unfold bigsLoad. simpl.
    destruct (_ || _); [discriminate|].
    destruct (json_files w !! _) as [d|]; [|discriminate].
    destruct (scan_count d <? 1); [discriminate|].
    destruct (initDBs false w _) as [[b2 w2]|]; [|discriminate].
    destruct (Z.eqb_spec (checkDB w (set_indexed b2)) 0); [|discriminate].
    by intros [= <-].
Qed.

(** What bigsLoad returns, when it returns a BIGSI: the counts are those of
    the metadata document, and so are the directory and the two stores that
    are opened, which need not be the files of [dbDir]; for a key the
    document lacks the value is the one bigsLoad started from (1, 1, 0 and
    the names under [dbDir]).  The BIGSI is indexed and has no build-phase
    data. *)
Theorem bigsLoad_result (w : world) (dbDir : string) (b : bigsi_t) :
  bigsLoad w dbDir = Some b ->
  ∃ d, json_files w !! (dbDir +:+ "/" +:+ BIGSI_METADATA_FILENAME) = Some d
    ∧ numBits b = default 1 (md_numBits d)
    ∧ numHashes b = default 1 (md_numHashes d)
    ∧ colourIterator b = default 0 (md_colourIterator d)
    ∧ dbDirectory b = default dbDir (md_db_directory d)
    ∧ bitvectors_dbp b
      = Some (default (dbDir +:+ "/" +:+ BITVECTORS_DB_FILENAME) (md_bitvectors d))
    ∧ colours_dbp b
      = Some (default (dbDir +:+ "/" +:+ COLOURS_DB_FILENAME) (md_colours d))
    ∧ indexed b = true ∧ idChecker b = ∅
    ∧ tmpBitVectors b = None ∧ colourArray b = None.
Proof.
  unfold bigsLoad. simpl.
  destruct (_ || _); [discriminate|].
  destruct (json_files w !! _) as [d|]; [|discriminate]. simpl.
  destruct (scan_count d <? 1); [discriminate|].
  destruct (initDBs false w _) as [[b2 w2]|] eqn:Hinit; [|discriminate].
  apply initDBs_spec in Hinit as (-> & _).
  destruct (checkDB _ _ =? 0); [|discriminate].
  intros [= <-]. exists d. simpl.
  repeat split; try done.
  - by destruct (md_bitvectors d).
  - by destruct (md_colours d).
Qed.

(** The BIGSI loaded from a directory that a frozen BIGSI was destroyed
    into has the bit count, hash count, colour count, directory and file
    names of the original and open handles on the same two stores;
    bigsDestroy has written the metadata document and left both stores as
    they were. *)
Theorem persist_load_fields (w w1 w2 : world) (b b1 : bigsi_t) (r : Z) :
  bigsIndex w b = (INDEX_OK, b1, w1) ->
  bigsDestroy w1 (Some b1) = (r, w2) ->
  bitvector_files w2 = bitvector_files w1
  ∧ colour_files w2 = colour_files w1
  ∧ json_files w2 !! (dbDirectory b +:+ "/" +:+ BIGSI_METADATA_FILENAME)
    = Some (metadata_of b1)
  ∧ ∃ b2, bigsLoad w2 (dbDirectory b) = Some b2
      ∧ numBits b2 = numBits b ∧ numHashes b2 = numHashes b
      ∧ colourIterator b2 = colourIterator b
      ∧ dbDirectory b2 = dbDirectory b
      ∧ metadata_file b2 = metadata_file b1
      ∧ bitvectors_db b2 = bitvectors_db b1 ∧ colours_db b2 = colours_db b1
      ∧ bitvectors_dbp b2 = bitvectors_dbp b1
      ∧ colours_dbp b2 = colours_dbp b1
      ∧ bigsDestroy w2 (Some b2) = (0, w2).
Proof.
  intros Hindex Hdestroy.
  apply bigsIndex_ok_fields in Hindex
    as (Hnb & Hnh & Hci & Hidx & Hdir & Hmd & Hbv & Hcol & Hbvp & Hcolp
        & Hbvf & Hcolf & Hcheck).
  simpl in Hmd, Hbv, Hcol, Hbvp, Hcolp.
  unfold bigsDestroy, bigsFlush in Hdestroy. rewrite Hidx, Hmd in Hdestroy.
  simpl in Hdestroy. injection Hdestroy as <- <-.
  split; [done|]. split; [done|]. split; [apply lookup_insert_eq|].
  set (w2 := set_json_files w1 _).
  unfold bigsLoad. simpl. unfold file_exists.
  rewrite lookup_insert_eq.
  rewrite (bool_decide_eq_true_2 (is_Some (Some (metadata_of b1)))) by eauto.
  rewrite bool_decide_eq_true_2 by (apply Hbvf; congruence).
  rewrite bool_decide_eq_true_2 by (apply Hcolf; congruence).
  simpl. unfold scan_count, metadata_of. rewrite Hmd, Hbv, Hcol. simpl.
  unfold initDBs, openDB. simpl.
  destruct (Hcolf _ Hcol) as [cdb Hcdb]. destruct (Hbvf _ Hbv) as [bdb Hbdb].
  rewrite Hcdb, Hbdb.
  match goal with
  | |- context [checkDB w2 ?x] =>
      replace (checkDB w2 x) with 0;
      [|rewrite <- Hcheck; apply checkDB_ext; simpl; congruence]
  end.
  simpl. eexists. split; [reflexivity|]. simpl.
  repeat split; try congruence.
  unfold bigsFlush, metadata_of. simpl. f_equal.
  subst w2. unfold set_json_files. simpl. f_equal.
  rewrite insert_insert_eq. f_equal. unfold metadata_of.
  rewrite Hmd, Hbv, Hcol, Hnb, Hnh, Hci, Hdir. done.
Qed.

(** A BIGSI that was frozen but not destroyed cannot be reloaded: bigsIndex
    writes no metadata document, so bigsLoad of its directory returns the
    null pointer unless a document was there before the freeze. *)
Theorem bigsLoad_needs_destroy (w w' : world) (b b' : bigsi_t) :
  bigsIndex w b = (INDEX_OK, b', w') ->
  json_files w !! (dbDirectory b +:+ "/" +:+ BIGSI_METADATA_FILENAME) = None ->
  bigsLoad w' (dbDirectory b) = None.
Proof.
  intros Hindex Hnone. apply bigsLoad_no_metadata.
  apply bigsIndex_ok_inv in Hindex
    as (b1 & w1 & bf & b2 & cf & _ & _ & Hinit & _ & _ & _ & -> & _).
  apply initDBs_spec in Hinit as (_ & Hjson & _). simpl. by rewrite Hjson.
Qed.

(** ** Queries on a frozen BIGSI *)

(** The loop asks the row store only for keys below [numBits], one per
    iteration at most. *)
Lemma query_loop_fetched (w : world) (b : bigsi_t) (hashValues : list Z) :
  0 < numBits b <= INT_MAX ->
  ∀ (n : nat) (i : Z) (result : bitvector_t) (fetched : list Z),
    Forall (λ key, 0 <= key < numBits b) fetched ->
    Forall (λ key, 0 <= key < numBits b)
      (query_loop w b hashValues n i result fetched).2
    ∧ (length (query_loop w b hashValues n i result fetched).2
       <= length fetched + n)%nat.
Proof.
  intros Hnb. induction n as [|n IH]; intros i result fetched Hf; simpl.
  - split; [done|lia].
  - destruct (hashValues !! Z.to_nat i) as [h|]; simpl; [|split; [done|lia]].
    assert (Hf' : Forall (λ key, 0 <= key < numBits b)
                    (fetched ++ [hash_location b h])).
    { apply Forall_app. split; [done|]. apply Forall_singleton.
      by apply hash_location_range. }
    assert (Hl : length (fetched ++ [hash_location b h]) = S (length fetched))
      by (rewrite length_app; simpl; lia).
    destruct (db_get _ _ _) as [bv|]; simpl; [|split; [done|lia]].
    destruct (bvCount bv =? 0); simpl; [split; [done|lia]|].
    destruct (i =? 0).
    + destruct (bvBOR result bv result) as [r|]; simpl; [|split; [done|lia]].
      destruct (IH (i + 1) r _ Hf') as [I1 I2]. split; [done|lia].
    + destruct (bvBANDupdate result bv) as [r|]; simpl; [|split; [done|lia]].
      destruct (bvCount r =? 0); simpl; [split; [done|lia]|].
      destruct (IH (i + 1) r _ Hf') as [I1 I2]. split; [done|lia].
Qed.

(** On a frozen BIGSI whose row store holds every row, a query with
    [numHashes] hash values (any values) and a result vector with one bit
    per colour returns 0: no storage error and no failed OR or AND.  The
    result keeps its capacity, and the keys fetched are bit positions
    below [numBits], at most [numHashes] of them. *)
Theorem bigsQuery_succeeds (w : world) (b : bigsi_t) (hashValues : list Z)
    (result : bitvector_t) :
  rows_ok w b -> indexed b = true ->
  0 <= numHashes b <= INT_MAX ->
  numHashes b <= Z.of_nat (length hashValues) ->
  capacity result = colourIterator b ->
  ∃ r fetched,
    bigsQuery w b (Some hashValues) (numHashes b) (Some result)
    = (QUERY_OK, Some r, fetched)
    ∧ capacity r = colourIterator b
    ∧ Forall (λ key, 0 <= key < numBits b) fetched
    ∧ Z.of_nat (length fetched) <= numHashes b.
Proof.
  intros Hrows Hidx Hnh Hlen Hcap. unfold bigsQuery, INT_MAX in *.
  rewrite Hidx, to_uint32_small, Z.eqb_refl, Hcap, Z.eqb_refl by lia. simpl.
  pose proof (query_loop_total w b hashValues Hrows (Z.to_nat (numHashes b)) 0
                result [] ltac:(lia) ltac:(simpl; lia) Hcap) as [Hst Hc].
  pose proof (query_loop_fetched w b hashValues (proj1 Hrows)
                (Z.to_nat (numHashes b)) 0 result [] (Forall_nil_2 _)) as [Hf Hl].
  destruct (query_loop _ _ _ _ _ _ _) as [[st r] fetched].
  simpl in Hst, Hc, Hf, Hl. subst st.
  exists r, fetched. repeat split; try done. lia.
Qed.

(** checkDB asks for row [numBits - 1] first, and when that row is there
    and has no bit set it returns 0 without reading anything else: the
    check passes whatever the rest of the row store holds, or lacks. *)
Theorem checkDB_last_row_empty (w : world) (b : bigsi_t) (row : bitvector_t) :
  indexed b = true ->
  0 < numBits b <= INT_MAX -> 1 <= numHashes b <= INT_MAX ->
  0 <= colourIterator b ->
  db_get (bitvector_files w) (bitvectors_dbp b) (numBits b - 1) = Some row ->
  bvCount row = 0 ->
  bigsQuery w b (check_hashes b) (to_uint32 (numHashes b))
    (Some (bvInit (colourIterator b)))
  = (QUERY_OK, Some (bvInit (colourIterator b)), [numBits b - 1])
  ∧ checkDB w b = 0.
Proof.
  intros Hidx Hnb Hnh Hci Hrow Hempty. unfold INT_MAX in *.
  assert (Hq : bigsQuery w b (check_hashes b) (to_uint32 (numHashes b))
                 (Some (bvInit (colourIterator b)))
               = (QUERY_OK, Some (bvInit (colourIterator b)), [numBits b - 1])).
  { unfold bigsQuery, check_hashes.
    destruct (Z.ltb_spec (numHashes b) 0); [lia|].
    rewrite Hidx, Z.eqb_refl, capacity_bvInit, Z.eqb_refl by lia. simpl.
    rewrite to_uint32_small by lia.
    destruct (Z.to_nat (numHashes b)) as [|n] eqn:Hn; [lia|].
    assert (Hloc : hash_location b (to_uint64 (numBits b - 1 - Z.of_nat 0))
                   = numBits b - 1).
    { unfold hash_location. change (Z.of_nat 0) with 0. rewrite Z.sub_0_r.
      rewrite !to_uint64_small by lia.
      rewrite Z.mod_small by lia. apply to_uint32_small. lia. }
    rewrite (query_loop_empty_row w b _ n 0
               (to_uint64 (numBits b - 1 - Z.of_nat 0)) _ row []);
      [by rewrite Hloc|done|by rewrite Hloc|done]. }
  split; [exact Hq|]. unfold checkDB. by rewrite Hq.
Qed.

Lemma foldl_and_lookup (rows : list bitvector_t) :
  ∀ (r : bitvector_t) (c : nat) (x : bool),
    Forall (λ row : bitvector_t, length row = length r) rows ->
    r !! c = Some x ->
    foldl (zip_with andb) r rows !! c
    = Some (x && forallb (λ row : bitvector_t, default false (row !! c)) rows).
Proof.
  induction rows as [|row rows IH]; intros r c x Hlen Hx; simpl.
  - by rewrite andb_true_r.
  - apply Forall_cons in Hlen as [Hrow Hrows].
    destruct (lookup_lt_is_Some_2 row c) as [y Hy].
    { rewrite Hrow. by eapply lookup_lt_Some. }
    rewrite (IH (zip_with andb r row) c (x && y)).
    + rewrite Hy. simpl. by rewrite andb_assoc.
    + eapply Forall_impl; [exact Hrows|]. intros z Hz. simpl in Hz.
      rewrite length_zip_with. lia.
    + rewrite lookup_zip_with, Hx, Hy. done.
Qed.

Lemma foldl_and_length (rows : list bitvector_t) :
  ∀ r : bitvector_t,
    Forall (λ row : bitvector_t, length row = length r) rows ->
    length (foldl (zip_with andb) r rows) = length r.
Proof.
  induction rows as [|row rows IH]; intros r Hall; [done|]. simpl.
  apply Forall_cons in Hall as [Hrow Hrows].
  rewrite IH.
  - rewrite length_zip_with. lia.
  - eapply Forall_impl; [exact Hrows|]. intros z Hz. simpl in Hz.
    rewrite length_zip_with. lia.
Qed.

(** The rows a freeze leaves in the store, with their capacity and their
    bits. *)
Lemma bigsIndex_rows (M : Z) (w w' : world) (b b' : bigsi_t) :
  built M b ->
  bigsIndex w b = (INDEX_OK, b', w') ->
  ∀ i, 0 <= i < numBits b ->
    ∃ row, db_get (bitvector_files w') (bitvectors_dbp b') i = Some row
      ∧ capacity row = colourIterator b
      ∧ ∀ c, 0 <= c < colourIterator b ->
          ∃ bv bit, array_load (tmpBitVectors b) c = Some bv
                    ∧ bvGet bv i = Some bit ∧ bvGet row c = Some bit.
Proof.
  intros Hbuilt Hindex i Hi.
  apply built_numBits in Hbuilt. unfold INT_MAX in Hbuilt.
  apply bigsIndex_ok_inv in Hindex
    as (b1 & w1 & bf & b2 & cf & Hci & _ & Hinit & Hrows & Hcols & -> & -> & _).
  apply initDBs_spec in Hinit as (-> & _).
  apply index_colours_fields in Hcols as (_ & _ & _ & _ & _ & Hdbp & _).
  apply index_rows_spec in Hrows as (Hrows & _); [|lia|simpl; lia].
  destruct (Hrows i) as (row & Hget & Hrow); [simpl; lia|].
  simpl in Hget, Hrow, Hdbp.
  apply index_row_spec in Hrow as (Hlen & _ & Hbits).
  - exists row. simpl. rewrite Hdbp. split; [done|]. split.
    + unfold capacity. rewrite Hlen. apply capacity_bvInit. lia.
    + intros c Hc. apply Hbits. lia.
  - lia.
  - unfold bvInit. rewrite length_replicate. lia.
  - intros k Hk. unfold bvInit in *. rewrite length_replicate in Hk.
    apply lookup_replicate_2. lia.
Qed.

(** The answer of a query is Bloom-filter membership: on a BIGSI frozen by
    bigsIndex, a query with an all-zero result vector, none of whose rows
    is empty, returns 0 and sets the bit of colour [c] exactly when the
    build-phase vector of colour [c] has a 1 at every queried hash
    position (each hash value taken modulo [numBits]). *)
Theorem bigsQuery_membership (MAX_COLOURS : Z) (w w' : world) (b b' : bigsi_t)
    (hashValues : list Z) :
  0 < MAX_COLOURS <= INT_MAX ->
  built MAX_COLOURS b ->
  bigsIndex w b = (INDEX_OK, b', w') ->
  Z.of_nat (length hashValues) = numHashes b ->
  Forall (λ h, bvCount (row_at w' b' h) ≠ 0) hashValues ->
  ∃ r fetched,
    bigsQuery w' b' (Some hashValues) (numHashes b)
      (Some (bvInit (colourIterator b)))
    = (QUERY_OK, Some r, fetched)
    ∧ ∀ c, 0 <= c < colourIterator b ->
        ∃ bv, array_load (tmpBitVectors b) c = Some bv
          ∧ bvGet r c
            = Some (forallb (λ h, default false (bvGet bv (hash_location b h)))
                      hashValues).
Proof.
  intros HM Hbuilt Hindex Hlen Hfull.
  pose proof (built_build_inv MAX_COLOURS HM b Hbuilt) as (Hci & _ & _ & Hnb & Hnh).
  pose proof (bigsIndex_rows MAX_COLOURS w w' b b' Hbuilt Hindex) as Hrows.
  pose proof (bigsIndex_ok_fields _ _ _ _ Hindex) as (F1 & F2 & F3 & F4 & _).
  pose proof (bigsIndex_ok_inv _ _ _ _ Hindex) as (_ & _ & _ & _ & _ & Hci1 & _).
  assert (Hrows_ok : rows_ok w' b').
  { split; [lia|]. intros key Hkey. rewrite F1 in Hkey.
    destruct (Hrows key Hkey) as (row & Hget & Hcap & _).
    exists row. split; [done|lia]. }
  assert (Hloc : ∀ h, hash_location b' h = hash_location b h).
  { intros h. unfold hash_location. by rewrite F1. }
  assert (Hhl : ∀ h, 0 <= hash_location b h < numBits b).
  { intros h. by apply hash_location_range. }
  unfold INT_MAX in *.
  (* the first position ORs its row into the zero vector *)
  destruct hashValues as [|h hs]; [simpl in Hlen; lia|].
  unfold bigsQuery.
  rewrite F4, F2, to_uint32_small, Z.eqb_refl, F3, capacity_bvInit, Z.eqb_refl
    by lia. simpl negb. cbv iota.
  rewrite <- Hlen, Nat2Z.id. cbn [length query_loop lookup list_lookup Z.to_nat].
  change ((h :: hs) !! Z.to_nat 0) with (Some h).
  cbv iota beta.
  pose proof (Forall_inv Hfull) as Hne. unfold row_at in Hne.
  destruct (Hrows (hash_location b h)) as (row & Hget & Hcap & Hbits);
    [apply Hhl|].
  rewrite Hloc in Hne |- *. rewrite Hget in Hne |- *. simpl in Hne.
  destruct (Z.eqb_spec (bvCount row) 0); [contradiction|].
  change (0 =? 0) with true. cbv iota.
  unfold bvBOR. rewrite capacity_bvInit, Hcap, !Z.eqb_refl by lia. simpl andb.
  cbv iota.
  assert (Hor : zip_with orb (bvInit (colourIterator b)) row = row).
  { unfold capacity, bvInit in *. clear -Hcap.
    assert (length row = Z.to_nat (colourIterator b)) as <- by lia.
    clear Hcap. induction row as [|x row IH]; [done|]. simpl. by rewrite IH. }
  rewrite Hor.
  pose proof (query_loop_and_all w' b' (h :: hs) Hrows_ok (length hs) 1
                row [hash_location b h] ltac:(lia) ltac:(simpl; lia)
                ltac:(lia) Hfull) as Hloop.
  change (0 + 1) with 1.
  destruct (query_loop _ _ _ _ _ _ _) as [[st r] fetched]. simpl in Hloop.
  rewrite drop_0 in Hloop. injection Hloop as -> ->.
  eexists _, _. split; [reflexivity|].
  intros c Hc. destruct (Hbits c Hc) as (bv & bit & Hload & Hbv & Hrc).
  exists bv. split; [done|].
  assert (Hget_len : ∀ x : bitvector_t, capacity x = colourIterator b ->
            bvGet x c = x !! Z.to_nat c).
  { intros x Hx. unfold bvGet. rewrite Hx.
    destruct (Z.leb_spec 0 c); [|lia].
    destruct (Z.ltb_spec c (colourIterator b)); [done|lia]. }
  assert (Hrows_len : Forall (λ x : bitvector_t, length x = length row)
                        (map (row_at w' b') hs)).
  { apply Forall_forall. intros x Hx.
    apply list_elem_of_fmap in Hx as (h' & -> & _). unfold row_at.
    rewrite Hloc.
    destruct (Hrows (hash_location b h')) as (row' & -> & Hcap' & _);
      [apply Hhl|].
    simpl. unfold capacity in *. lia. }
  rewrite Hget_len.
  - rewrite Hget_len in Hrc by done.
    rewrite (foldl_and_lookup _ row (Z.to_nat c) bit Hrows_len Hrc).
    f_equal. simpl. rewrite Hbv. simpl. f_equal.
    generalize hs as l. induction l as [|h' l IH]; [done|]. simpl.
    rewrite IH. f_equal. unfold row_at. rewrite Hloc.
    destruct (Hrows (hash_location b h')) as (row' & -> & Hcap' & Hbits');
      [apply Hhl|].
    destruct (Hbits' c Hc) as (bv' & bit' & Hload' & Hbv' & Hrc').
    rewrite Hload in Hload'. injection Hload' as <-.
    rewrite Hget_len in Hrc' by done. simpl. by rewrite Hrc', Hbv'.
  - unfold capacity in *.
    by rewrite (foldl_and_length _ _ Hrows_len).
Qed.

(** ** The properties above at S1 *)

Lemma S1_built_is_built (b : bigsi_t) : S1_built = Some b -> built INT_MAX b.
Proof.
  unfold S1_built.
  destruct (bigsInit 16 2 "D") as [b0|] eqn:Hinit; [|discriminate].
  destruct (bigsAdd INT_MAX b0 S1_batch 2) as [[| |] b1] eqn:Hadd;
    try discriminate.
  intros [= <-]. apply (built_add INT_MAX b0 b1 S1_batch 2); [|exact Hadd].
  apply (built_init INT_MAX 16 2 "D" b0); [vm_compute; discriminate..|exact Hinit].
Qed.

Lemma INT_MAX_limit : 0 < INT_MAX <= INT_MAX.
Proof. unfold INT_MAX. lia. Qed.

Lemma bigsIndex_rows_ok (M : Z) (w w' : world) (b b' : bigsi_t) :
  built M b -> bigsIndex w b = (INDEX_OK, b', w') -> rows_ok w' b'.
Proof.
  intros Hbuilt Hindex.
  pose proof (built_numBits _ _ Hbuilt) as Hnb.
  pose proof (bigsIndex_rows M w w' b b' Hbuilt Hindex) as Hrows.
  pose proof (bigsIndex_ok_fields _ _ _ _ Hindex) as (F1 & _ & F3 & _).
  split; [lia|]. intros key Hkey. rewrite F1 in Hkey.
  destruct (Hrows key Hkey) as (row & Hget & Hcap & _).
  exists row. split; [done|lia].
Qed.


Ltac at_S1_built tac :=
  let v := eval vm_compute in S1_built in
  match v with Some ?b => tac b end.

Ltac at_S1_frozen tac :=
  at_S1_built ltac:(fun b =>
    let v := eval vm_compute in (bigsIndex empty_world b) in
    match v with (_, ?b', ?w') => tac b b' w' end).


Lemma bigsQuery_and_chain_witness :
  ∃ b b' w', S1_built = Some b
    ∧ bigsIndex empty_world b = (INDEX_OK, b', w')
    ∧ (bigsQuery w' b' (Some [3; 11]) (numHashes b') (Some [false; true])).1
      = (QUERY_OK, Some (and_chain [false; true] (map (row_at w' b') [3; 11]))).
Proof.
  at_S1_frozen ltac:(fun b b' w' =>
    exists b, b', w'; split; [vm_compute; reflexivity|];
    split; [vm_compute; reflexivity|];
    apply (bigsQuery_and_chain w' b' [3; 11] [false; true]);
    [apply (bigsIndex_rows_ok INT_MAX empty_world w' b b');
     [apply S1_built_is_built; vm_compute; reflexivity|vm_compute; reflexivity]
    |reflexivity
    |vm_compute; split; discriminate
    |reflexivity
    |reflexivity
    |repeat constructor; vm_compute; discriminate]).
Defined.

Lemma bigsLookupColour_frozen_witness :
  ∃ b b' w', S1_built = Some b
    ∧ bigsIndex empty_world b = (INDEX_OK, b', w')
    ∧ (∃ seqID, array_load (colourArray b) 1 = Some seqID
         ∧ bigsLookupColour w' b' 1 true = (LOOKUP_OK, Some seqID))
    ∧ bigsLookupColour w' b' 3 true = (LOOKUP_ERR (ColourNotPresent 3), None)
    ∧ bigsLookupColour w' b' 2 true = (LOOKUP_ERR (ColourNotFound 2), None).
Proof.
  at_S1_frozen ltac:(fun b b' w' =>
    exists b, b', w'; split; [vm_compute; reflexivity|];
    split; [vm_compute; reflexivity|];
    destruct (bigsLookupColour_frozen INT_MAX empty_world w' b b' INT_MAX_limit)
      as (Hin & Habove & Hat & _);
    [apply S1_built_is_built; vm_compute; reflexivity
    |vm_compute; reflexivity
    |split; [apply (Hin 1); vm_compute; split; [discriminate|reflexivity]|];
     split; [apply (Habove 3); vm_compute; reflexivity|];
     apply (Hat eq_refl 2); right; reflexivity]).
Defined.

Ltac at_S1_init tac :=
  let v := eval vm_compute in (bigsInit 16 2 "D") in
  match v with Some ?b0 => tac b0 end.

Lemma S1_init_is_built (b0 : bigsi_t) :
  bigsInit 16 2 "D" = Some b0 -> built INT_MAX b0.
Proof.
  intros Hinit.
  apply (built_init INT_MAX 16 2 "D" b0); [vm_compute; discriminate..|exact Hinit].
Qed.

Lemma bigsAdd_records_witness :
  ∃ b0 b', bigsInit 16 2 "D" = Some b0
    ∧ bigsAdd INT_MAX b0 S1_batch 2 = (ADD_OK, b')
    ∧ colourIterator b' = colourIterator b0 + 2
    ∧ idChecker b' !! "B"%string = Some (colourIterator b0 + Z.of_nat 1)
    ∧ array_load (tmpBitVectors b') (colourIterator b0 + Z.of_nat 1)
      = Some (bits 16 [3; 7]%nat).
Proof.
  at_S1_init ltac:(fun b0 =>
    at_S1_built ltac:(fun b' =>
      exists b0, b'; split; [reflexivity|];
      split; [vm_compute; reflexivity|];
      destruct (bigsAdd_records INT_MAX INT_MAX_limit b0 b' S1_batch 2)
        as (_ & Hci & _ & Hslots);
      [apply S1_init_is_built; reflexivity
      |vm_compute; reflexivity
      |split; [exact Hci|];
       destruct (Hslots 1%nat "B"%string (mkBloom 2 (bits 16 [3; 7]%nat)) eq_refl)
         as (Hid & _ & Htmp & _);
       split; [exact Hid|exact Htmp]])).
Defined.




Lemma bigsIndex_once_witness :
  ∃ b0 b b' w', bigsInit 16 2 "D" = Some b0 ∧ S1_built = Some b
    ∧ bigsIndex empty_world b0 = (INDEX_ERR NothingToIndex, b0, empty_world)
    ∧ bigsIndex empty_world b = (INDEX_OK, b', w')
    ∧ bigsIndex w' b' = (INDEX_ERR AlreadyIndexed, b', w').
Proof.
  at_S1_init ltac:(fun b0 =>
    at_S1_frozen ltac:(fun b b' w' =>
      exists b0, b, b', w'; split; [reflexivity|];
      split; [vm_compute; reflexivity|];
      split; [apply (proj1 (bigsIndex_once empty_world b0)); vm_compute; reflexivity|];
      split; [vm_compute; reflexivity|];
      apply (proj2 (bigsIndex_once empty_world b) b' w'); vm_compute; reflexivity)).
Defined.

Lemma bigsIndex_effects_witness :
  ∃ b b' w', S1_built = Some b
    ∧ bigsIndex empty_world b = (INDEX_OK, b', w')
    ∧ json_files w' = json_files empty_world
    ∧ idChecker b' = ∅
    ∧ array_load (tmpBitVectors b') 1 = None.
Proof.
  at_S1_frozen ltac:(fun b b' w' =>
    exists b, b', w'; split; [vm_compute; reflexivity|];
    split; [vm_compute; reflexivity|];
    destruct (bigsIndex_effects empty_world w' b b')
      as (Hjson & _ & _ & Hid & _ & _ & _ & _ & Hslots);
    [vm_compute; reflexivity
    |split; [exact Hjson|]; split; [exact Hid|];
     apply (Hslots 1); vm_compute; split; [discriminate|reflexivity]]).
Defined.

Ltac at_S1_persisted tac :=
  at_S1_frozen ltac:(fun b b1 w1 =>
    let v := eval vm_compute in (bigsDestroy w1 (Some b1)) in
    match v with (_, ?w2) => tac b b1 w1 w2 end).

Lemma bigsLoad_failures_witness :
  ∃ b b1 w1 w2, S1_built = Some b
    ∧ bigsIndex empty_world b = (INDEX_OK, b1, w1)
    ∧ bigsDestroy w1 (Some b1) = (0, w2)
    ∧ bigsLoad empty_world "D" = None
    ∧ ∀ b2, bigsLoad w2 "D" = Some b2 -> checkDB w2 b2 = 0.
Proof.
  at_S1_persisted ltac:(fun b b1 w1 w2 =>
    exists b, b1, w1, w2; split; [vm_compute; reflexivity|];
    split; [vm_compute; reflexivity|];
    split; [vm_compute; reflexivity|];
    split;
    [apply (proj1 (bigsLoad_failures empty_world "D")); left; reflexivity
    |exact (proj2 (proj2 (bigsLoad_failures w2 "D")))]).
Defined.

Lemma bigsLoad_result_witness :
  ∃ w2 b2, bigsLoad w2 "D" = Some b2
    ∧ ∃ d, json_files w2 !! ("D" +:+ "/" +:+ BIGSI_METADATA_FILENAME) = Some d
      ∧ numBits b2 = default 1 (md_numBits d)
      ∧ numHashes b2 = default 1 (md_numHashes d)
      ∧ colourIterator b2 = default 0 (md_colourIterator d).
Proof.
  at_S1_persisted ltac:(fun b b1 w1 w2 =>
    let v := eval vm_compute in (bigsLoad w2 "D") in
    match v with
    | Some ?b2 =>
        exists w2, b2;
        assert (Hload : bigsLoad w2 "D" = Some b2) by (vm_compute; reflexivity);
        split; [exact Hload|];
        destruct (bigsLoad_result w2 "D" b2 Hload)
          as (d & Hd & Hnb & Hnh & Hci & _);
        exists d; split; [exact Hd|]; split; [exact Hnb|];
        split; [exact Hnh|exact Hci]
    end).
Defined.

Lemma persist_load_fields_witness :
  ∃ b b1 w1 w2, S1_built = Some b
    ∧ bigsIndex empty_world b = (INDEX_OK, b1, w1)
    ∧ bigsDestroy w1 (Some b1) = (0, w2)
    ∧ ∃ b2, bigsLoad w2 (dbDirectory b) = Some b2
        ∧ numBits b2 = numBits b ∧ numHashes b2 = numHashes b
        ∧ colourIterator b2 = colourIterator b.
Proof.
  at_S1_persisted ltac:(fun b b1 w1 w2 =>
    exists b, b1, w1, w2; split; [vm_compute; reflexivity|];
    split; [vm_compute; reflexivity|];
    split; [vm_compute; reflexivity|];
    destruct (persist_load_fields empty_world w1 w2 b b1 0)
      as (_ & _ & _ & b2 & Hload & Hnb & Hnh & Hci & _);
    [vm_compute; reflexivity
    |vm_compute; reflexivity
    |exists b2; split; [exact Hload|]; split; [exact Hnb|];
     split; [exact Hnh|exact Hci]]).
Defined.

Lemma bigsLoad_needs_destroy_witness :
  ∃ b b' w', S1_built = Some b
    ∧ bigsIndex empty_world b = (INDEX_OK, b', w')
    ∧ bigsLoad w' (dbDirectory b) = None.
Proof.
  at_S1_frozen ltac:(fun b b' w' =>
    exists b, b', w'; split; [vm_compute; reflexivity|];
    split; [vm_compute; reflexivity|];
    apply (bigsLoad_needs_destroy empty_world w' b b');
    vm_compute; reflexivity).
Defined.

Lemma bigsQuery_succeeds_witness :
  ∃ b b' w', S1_built = Some b
    ∧ bigsIndex empty_world b = (INDEX_OK, b', w')
    ∧ ∃ r fetched,
        bigsQuery w' b' (Some [3; 5]) (numHashes b') (Some (bvInit 2))
        = (QUERY_OK, Some r, fetched)
        ∧ capacity r = colourIterator b'
        ∧ Forall (λ key, 0 <= key < numBits b') fetched
        ∧ Z.of_nat (length fetched) <= numHashes b'.
Proof.
  at_S1_frozen ltac:(fun b b' w' =>
    exists b, b', w'; split; [vm_compute; reflexivity|];
    split; [vm_compute; reflexivity|];
    apply (bigsQuery_succeeds w' b' [3; 5] (bvInit 2));
    [apply (bigsIndex_rows_ok INT_MAX empty_world w' b b');
     [apply S1_built_is_built; vm_compute; reflexivity|vm_compute; reflexivity]
    |reflexivity
    |vm_compute; split; discriminate
    |vm_compute; discriminate
    |reflexivity]).
Defined.

Lemma checkDB_last_row_empty_witness :
  ∃ b b' w', S1_built = Some b
    ∧ bigsIndex empty_world b = (INDEX_OK, b', w')
    ∧ bigsQuery w' b' (check_hashes b') (to_uint32 (numHashes b'))
        (Some (bvInit (colourIterator b')))
      = (QUERY_OK, Some (bvInit (colourIterator b')), [numBits b' - 1])
    ∧ checkDB w' b' = 0.
Proof.
  at_S1_frozen ltac:(fun b b' w' =>
    exists b, b', w'; split; [vm_compute; reflexivity|];
    split; [vm_compute; reflexivity|];
    apply (checkDB_last_row_empty w' b' (bvInit 2));
    [reflexivity
    |vm_compute; split; [reflexivity|discriminate]
    |vm_compute; split; discriminate
    |vm_compute; discriminate
    |vm_compute; reflexivity
    |reflexivity]).
Defined.

Lemma bigsQuery_membership_witness :
  ∃ b b' w', S1_built = Some b
    ∧ bigsIndex empty_world b = (INDEX_OK, b', w')
    ∧ ∃ r fetched,
        bigsQuery w' b' (Some [3; 11]) (numHashes b)
          (Some (bvInit (colourIterator b)))
        = (QUERY_OK, Some r, fetched)
        ∧ ∀ c, 0 <= c < colourIterator b ->
            ∃ bv, array_load (tmpBitVectors b) c = Some bv
              ∧ bvGet r c
                = Some (forallb
                          (λ h, default false (bvGet bv (hash_location b h)))
                          [3; 11]).
Proof.
  at_S1_frozen ltac:(fun b b' w' =>
    exists b, b', w'; split; [vm_compute; reflexivity|];
    split; [vm_compute; reflexivity|];
    apply (bigsQuery_membership INT_MAX empty_world w' b b' [3; 11] INT_MAX_limit);
    [apply S1_built_is_built; vm_compute; reflexivity
    |vm_compute; reflexivity
    |reflexivity
    |repeat constructor; vm_compute; discriminate]).
Defined.

(** ** The configuration file *)




(** ** The in-memory version against the first version *)

Lemma same_build_allocate (b : bigsi_t) (m : InMemory.bigsi_t) (numEntries : Z) :
  same_build b m ->
  (InMemory.add_allocate m numEntries).1 = (add_allocate b numEntries).1
  ∧ same_build (add_allocate b numEntries).2
      (InMemory.add_allocate m numEntries).2.
Proof.
  intros Hsame. pose proof Hsame as (H1 & H2 & H3 & H4 & H5 & H6 & H7).
  assert (Hset : ∀ ca tmp, same_build (set_arrays b ca tmp)
                             (InMemory.set_arrays m ca tmp)).
  { intros ca tmp. unfold same_build. simpl. by repeat split. }
  unfold add_allocate, InMemory.add_allocate. rewrite H6, H5, H3.
  destruct (colourArray b) as [ca|] eqn:Hca.
  - destruct (realloc_array ca _) as [ca'|]; [|done].
    destruct (realloc_array (default [] (tmpBitVectors b)) _) as [tmp'|];
      simpl; split; try done; apply Hset.
  - destruct (alloc_array numEntries) as [ca|]; [|done].
    destruct (alloc_array numEntries) as [tmp|];
      simpl; split; try done; apply Hset.
Qed.

Lemma same_build_record (b : bigsi_t) (m : InMemory.bigsi_t) (seqID : string)
    (tmp : option (list (option bitvector_t))) (ca : option (list (option string))) :
  same_build b m ->
  same_build (record_colour b seqID tmp ca) (InMemory.record_colour m seqID tmp ca).
Proof.
  intros (H1 & H2 & H3 & H4 & H5 & H6 & H7).
  unfold same_build. simpl. rewrite H3, H4. by repeat split.
Qed.

(** What the loop of the first version accepts, the loop of the in-memory
    version accepts, with the same records. *)
Lemma same_build_loop (MAX_COLOURS : Z) (id2bf : list (string * bloomfilter_t))
    (keys : list string) :
  ∀ (k : Z) (b : bigsi_t) (m : InMemory.bigsi_t) (b' : bigsi_t) (k' : Z),
    same_build b m ->
    add_loop MAX_COLOURS id2bf keys k b = (ADD_OK, b', k') ->
    ∃ m', InMemory.add_loop id2bf keys k m = (ADD_OK, m', k') ∧ same_build b' m'.
Proof.
  induction keys as [|seqID keys IH]; intros k b m b' k' Hsame; simpl.
  - intros [= <- <-]. by exists m.
  - pose proof Hsame as (H1 & H2 & H3 & H4 & H5 & H6 & H7).
    rewrite H4, H2, H1, H5, H6, H3.
    destruct (idChecker b !! seqID); [discriminate|].
    destruct (map_get id2bf seqID) as [newBF|]; [|discriminate].
    destruct (bvCount (bf_bitvector newBF) =? 0); [discriminate|].
    destruct (negb _ || negb _); [discriminate|].
    destruct (array_store (tmpBitVectors b) _ _) as [tmp|]; [|discriminate].
    destruct (array_store (colourArray b) _ _) as [ca|]; [|discriminate].
    destruct (_ =? MAX_COLOURS); [discriminate|].
    apply IH. by apply same_build_record.
Qed.

(** What the loop of the in-memory version accepts, the loop of the first
    version accepts as long as the colours stay below the limit, and turns
    down for the limit otherwise. *)
Lemma same_build_loop_limit (MAX_COLOURS : Z) (id2bf : list (string * bloomfilter_t))
    (keys : list string) :
  MAX_COLOURS <= INT_MAX ->
  ∀ (k : Z) (b : bigsi_t) (m m' : InMemory.bigsi_t) (k' : Z),
    same_build b m ->
    0 <= colourIterator b < MAX_COLOURS ->
    InMemory.add_loop id2bf keys k m = (ADD_OK, m', k') ->
    (colourIterator b + Z.of_nat (length keys) < MAX_COLOURS
     ∧ ∃ b', add_loop MAX_COLOURS id2bf keys k b = (ADD_OK, b', k')
          ∧ same_build b' m')
    ∨ (MAX_COLOURS <= colourIterator b + Z.of_nat (length keys)
       ∧ ∃ b' k'', add_loop MAX_COLOURS id2bf keys k b
                   = (ADD_ERR ColourLimitExceeded, b', k'')).
Proof.
  intros HM. unfold INT_MAX in HM.
  induction keys as [|seqID keys IH]; intros k b m m' k' Hsame Hci; simpl.
  - intros [= <- <-]. left. split; [lia|]. by exists b.
  - pose proof Hsame as (H1 & H2 & H3 & H4 & H5 & H6 & H7).
    rewrite H4, H2, H1, H5, H6, H3.
    destruct (idChecker b !! seqID); [discriminate|].
    destruct (map_get id2bf seqID) as [newBF|]; [|discriminate].
    destruct (negb _ || negb _); [discriminate|].
    destruct (bvCount (bf_bitvector newBF) =? 0); [discriminate|].
    destruct (array_store (tmpBitVectors b) _ _) as [tmp|]; [|discriminate].
    destruct (array_store (colourArray b) _ _) as [ca|]; [|discriminate].
    intros Hloop.
    assert (Hnext : to_int32 (colourIterator b + 1) = colourIterator b + 1).
    { apply to_int32_small. lia. }
    assert (Hci' : 0 <= colourIterator (record_colour b seqID (Some tmp) (Some ca))
                   ∧ colourIterator (record_colour b seqID (Some tmp) (Some ca))
                     = colourIterator b + 1).
    { simpl. rewrite Hnext. lia. }
    destruct (Z.eqb_spec (to_int32 (colourIterator b + 1)) MAX_COLOURS)
      as [Heq|Hne]; rewrite Hnext in *.
    + right. split; [lia|]. by eexists _, _.
    + destruct (IH _ (record_colour b seqID (Some tmp) (Some ca)) _ _ _
                  (same_build_record b m seqID (Some tmp) (Some ca) Hsame)
                  ltac:(lia) Hloop)
        as [(Hlt & b' & Hb' & Hsame')|(Hge & b' & k'' & Hb')].
      * left. split; [lia|]. by exists b'.
      * right. split; [lia|]. by exists b', k''.
Qed.

(** The two versions of bigsAdd on the same build state and the same
    batch.  Whatever the first version accepts, the in-memory version
    accepts, and the two records stay in the same build state.  Whatever the
    in-memory version accepts, the first version accepts too as long as the
    colours stay below MAX_COLOURS; otherwise the first version fails with
    the colour-limit error, which the in-memory version does not have. *)
Theorem inmemory_bigsAdd_agrees (MAX_COLOURS : Z) (b : bigsi_t)
    (m : InMemory.bigsi_t) (id2bf : list (string * bloomfilter_t))
    (numEntries : Z) :
  0 < MAX_COLOURS <= INT_MAX ->
  built MAX_COLOURS b ->
  same_build b m ->
  (∀ b', bigsAdd MAX_COLOURS b id2bf numEntries = (ADD_OK, b') ->
     ∃ m', InMemory.bigsAdd m id2bf numEntries = (ADD_OK, m')
           ∧ same_build b' m')
  ∧ (∀ m', InMemory.bigsAdd m id2bf numEntries = (ADD_OK, m') ->
       (colourIterator b + Z.of_nat (length id2bf) < MAX_COLOURS
        ∧ ∃ b', bigsAdd MAX_COLOURS b id2bf numEntries = (ADD_OK, b')
                ∧ same_build b' m')
       ∨ (MAX_COLOURS <= colourIterator b + Z.of_nat (length id2bf)
          ∧ ∃ b', bigsAdd MAX_COLOURS b id2bf numEntries
                  = (ADD_ERR ColourLimitExceeded, b'))).
Proof.
  intros HM Hbuilt Hsame.
  pose proof (built_build_inv MAX_COLOURS HM b Hbuilt) as (Hci & _).
  pose proof (same_build_allocate b m numEntries Hsame) as [Hst Hsame1].
  unfold bigsAdd, InMemory.bigsAdd.
  destruct (add_allocate b numEntries) as [st b1] eqn:Halloc.
  destruct (InMemory.add_allocate m numEntries) as [st' m1].
  simpl in Hst, Hsame1. subst st'.
  apply add_allocate_fields in Halloc as (Hci1 & _).
  split.
  - intros b' Hadd. destruct st; try discriminate.
    destruct (add_loop MAX_COLOURS id2bf (map fst id2bf) 0 b1)
      as [[st2 b2] k2] eqn:Hloop.
    destruct st2; try discriminate.
    destruct (same_build_loop _ _ _ _ _ _ _ _ Hsame1 Hloop) as (m2 & -> & Hsame2).
    destruct (negb (k2 =? numEntries)); [discriminate|].
    injection Hadd as <-. by exists m2.
  - intros m' Hadd. destruct st; try discriminate.
    destruct (InMemory.add_loop id2bf (map fst id2bf) 0 m1)
      as [[st2 m2] k2] eqn:Hloop.
    destruct st2; try discriminate.
    destruct (negb (k2 =? numEntries)) eqn:Hcount; [discriminate|].
    injection Hadd as <-.
    destruct (same_build_loop_limit MAX_COLOURS id2bf (map fst id2bf)
                (proj2 HM) 0 b1 m1 m2 k2 Hsame1 ltac:(lia) Hloop)
      as [(Hlt & b2 & Hb2 & Hsame2)|(Hge & b2 & k'' & Hb2)];
      rewrite length_map, Hci1 in *; rewrite Hb2.
    + left. split; [done|]. exists b2. by rewrite Hcount.
    + right. split; [done|]. by exists b2.
Qed.

(** A row the inner loop of the first version completes is the row the
    inner loop of the in-memory version leaves in [index]. *)
Lemma inmemory_index_row_ok (bv : option (list (option bitvector_t))) (i : Z) :
  ∀ (n : nat) (colour : Z) (row r : bitvector_t),
    index_row bv i n colour row = inr r ->
    InMemory.index_row bv i n colour row = (None, r).
Proof.
  induction n as [|n IH]; intros colour row r; simpl.
  - by intros [= <-].
  - destruct (array_load bv colour) as [v|]; [|discriminate].
    destruct (bvGet v i) as [[|]|]; [|by apply IH|discriminate].
    destruct (bvGet row colour) as [[|]|]; [discriminate| |discriminate].
    destruct (bvSet row colour true) as [row'|]; [|discriminate].
    by apply IH.
Qed.

Lemma inmemory_index_rows_spec (m : InMemory.bigsi_t) :
  ∀ (n : nat) (i : Z) (rows : list (option bitvector_t)),
    0 <= i -> i + Z.of_nat n <= Z.of_nat (length rows) ->
    (∀ j, i <= j < i + Z.of_nat n ->
       ∃ r, index_row (InMemory.bvArray m) j
              (Z.to_nat (InMemory.colourIterator m)) 0
              (bvInit (InMemory.colourIterator m)) = inr r) ->
    ∃ rows', InMemory.index_rows m n i rows = (None, rows')
      ∧ length rows' = length rows
      ∧ (∀ j r, i <= j < i + Z.of_nat n ->
           index_row (InMemory.bvArray m) j
             (Z.to_nat (InMemory.colourIterator m)) 0
             (bvInit (InMemory.colourIterator m)) = inr r ->
           rows' !! Z.to_nat j = Some (Some r))
      ∧ (∀ j : nat, (j < Z.to_nat i)%nat -> rows' !! j = rows !! j).
Proof.
  induction n as [|n IH]; intros i rows Hi Hlen Hrows; simpl.
  - exists rows. repeat split; try done. intros j r Hj. lia.
  - destruct (Hrows i) as [ri Hri]; [lia|].
    rewrite (inmemory_index_row_ok _ _ _ _ _ _ Hri).
    destruct (IH (i + 1) (<[Z.to_nat i := Some ri]> rows))
      as (rows' & -> & Hlen' & Hnew & Hold).
    + lia.
    + rewrite length_insert. lia.
    + intros j Hj. apply Hrows. lia.
    + exists rows'. split; [done|]. rewrite length_insert in Hlen'.
      split; [done|]. split.
      * intros j r Hj Hr. destruct (Z.eq_dec j i) as [->|Hne].
        -- rewrite Hold by lia. rewrite list_lookup_insert_eq by lia.
           congruence.
        -- apply Hnew; [lia|done].
      * intros j Hj. rewrite Hold by lia.
        apply list_lookup_insert_ne. lia.
Qed.

Lemma array_load_free_eq {A : Type} (arr : option (list (option A))) (i : Z) :
  0 <= i -> array_load (array_free arr i) i = None.
Proof.
  intros Hi. unfold array_load, array_free. destruct arr as [l|]; [|done].
  destruct (Z.leb_spec 0 i); [|lia].
  destruct (decide (Z.to_nat i < length l)%nat).
  - by rewrite list_lookup_insert_eq.
  - rewrite lookup_ge_None_2; [done|]. rewrite length_insert. lia.
Qed.

Lemma array_load_free_None {A : Type} (arr : option (list (option A))) (i c : Z) :
  0 <= i -> array_load arr c = None -> array_load (array_free arr i) c = None.
Proof.
  intros Hi Hnone. destruct (Z.eq_dec i c) as [->|Hne].
  - by apply array_load_free_eq.
  - destruct (Z.le_gt_cases 0 c).
    + by rewrite array_load_free_ne.
    + unfold array_load. destruct (array_free arr i); [|done].
      destruct (Z.leb_spec 0 c); [lia|done].
Qed.

Lemma inmemory_release_spec :
  ∀ (n : nat) (i : Z) (bv : option (list (option bitvector_t))) (c : Z),
    0 <= i ->
    (array_load bv c = None -> array_load (InMemory.release n i bv) c = None)
    ∧ (i <= c < i + Z.of_nat n -> array_load (InMemory.release n i bv) c = None).
Proof.
  induction n as [|n IH]; intros i bv c Hi; simpl.
  - split; [done|lia].
  - destruct (IH (i + 1) (array_free bv i) c ltac:(lia)) as [Hkeep Hrel].
    split.
    + intros Hnone. apply Hkeep. by apply array_load_free_None.
    + intros Hc. destruct (Z.eq_dec c i) as [->|Hne].
      * apply Hkeep. by apply array_load_free_eq.
      * apply Hrel. lia.
Qed.

(** The row a freeze stores under key [i] is the one its inner loop made
    of the build-phase vectors. *)
Lemma bigsIndex_index_row (M : Z) (w w' : world) (b b' : bigsi_t) :
  built M b ->
  bigsIndex w b = (INDEX_OK, b', w') ->
  ∀ i, 0 <= i < numBits b ->
    ∃ row, db_get (bitvector_files w') (bitvectors_dbp b') i = Some row
      ∧ index_row (tmpBitVectors b) i (Z.to_nat (colourIterator b)) 0
          (bvInit (colourIterator b)) = inr row.
Proof.
  intros Hbuilt Hindex i Hi.
  apply built_numBits in Hbuilt. unfold INT_MAX in Hbuilt.
  apply bigsIndex_ok_inv in Hindex
    as (b1 & w1 & bf & b2 & cf & Hci & _ & Hinit & Hrows & Hcols & -> & -> & _).
  apply initDBs_spec in Hinit as (-> & _).
  apply index_colours_fields in Hcols as (_ & _ & _ & _ & _ & Hdbp & _).
  apply index_rows_spec in Hrows as (Hrows & _); [|lia|simpl; lia].
  destruct (Hrows i) as (row & Hget & Hrow); [simpl; lia|].
  simpl in Hget, Hrow, Hdbp.
  exists row. simpl. rewrite Hdbp. by split.
Qed.

(** The two versions of bigsIndex on the same build state.  When the
    first version returns 0, so does the in-memory version, and its [index]
    holds, at every position below [numBits], the row the first version
    stored under that key.  The in-memory version, too, empties the ID map
    and releases the build-phase vectors; unlike the first version it keeps
    the array of sequence IDs. *)
Theorem inmemory_bigsIndex_agrees (MAX_COLOURS : Z) (w w' : world)
    (b b' : bigsi_t) (m : InMemory.bigsi_t) :
  0 < MAX_COLOURS <= INT_MAX ->
  built MAX_COLOURS b ->
  same_build b m ->
  bigsIndex w b = (INDEX_OK, b', w') ->
  ∃ m', InMemory.bigsIndex m = (InMemory.INDEXED, m')
    ∧ same_index w' b' m'
    ∧ (∀ i, 0 <= i < numBits b ->
         is_Some (array_load (InMemory.index m') i))
    ∧ InMemory.id2colour m' = ∅
    ∧ InMemory.colourArray m' = InMemory.colourArray m
    ∧ (∀ c, 0 <= c < colourIterator b ->
         array_load (InMemory.bvArray m') c = None).
Proof.
  intros HM Hbuilt Hsame Hindex.
  pose proof (built_numBits _ _ Hbuilt) as Hnb. unfold INT_MAX in Hnb.
  pose proof (bigsIndex_index_row MAX_COLOURS w w' b b' Hbuilt Hindex) as Hrows.
  pose proof (bigsIndex_ok_fields _ _ _ _ Hindex) as (F1 & F2 & F3 & F4 & _).
  pose proof (bigsIndex_ok_inv _ _ _ _ Hindex) as (_ & _ & _ & _ & _ & Hci & _).
  destruct Hsame as (H1 & H2 & H3 & H4 & H5 & H6 & H7).
  destruct (inmemory_index_rows_spec m (Z.to_nat (numBits b)) 0
              (replicate (Z.to_nat (numBits b)) None))
    as (rows' & Hloop & Hlen & Hnew & _).
  { lia. }
  { rewrite length_replicate. lia. }
  { intros j Hj. rewrite H5, H3.
    destruct (Hrows j) as (row & _ & Hrow); [lia|]. by exists row. }
  unfold InMemory.bigsIndex. rewrite H3, H7, H1.
  destruct (Z.ltb_spec (colourIterator b) 1); [lia|].
  unfold alloc_array. destruct (Z.ltb_spec (numBits b) 0); [lia|].
  rewrite Hloop.
  set (m' := InMemory.wipe_input (InMemory.set_index m (Some rows'))).
  exists m'. split; [reflexivity|].
  assert (Hidx : InMemory.index m' = Some rows') by reflexivity.
  assert (Hnb' : InMemory.numBits m' = numBits b') by (simpl; congruence).
  assert (Hnh' : InMemory.numHashes m' = numHashes b') by (simpl; congruence).
  assert (Hci' : InMemory.colourIterator m' = colourIterator b')
    by (simpl; congruence).
  assert (Hsame_rows : ∀ i, 0 <= i < numBits b ->
            ∃ row, array_load (InMemory.index m') i = Some row
              ∧ db_get (bitvector_files w') (bitvectors_dbp b') i = Some row).
  { intros i Hi. destruct (Hrows i Hi) as (row & Hget & Hrow).
    exists row. split; [|done]. rewrite Hidx. unfold array_load.
    destruct (Z.leb_spec 0 i); [|lia].
    rewrite (Hnew i row); [done|lia|]. by rewrite H5, H3. }
  split; [|split; [|split; [|split]]].
  - split; [done|]. split; [by rewrite Hidx|].
    split; [done|]. split; [done|]. split; [done|].
    intros i Hi. rewrite F1 in Hi.
    destruct (Hsame_rows i Hi) as (row & -> & ->). done.
  - intros i Hi. destruct (Hsame_rows i Hi) as (row & -> & _).
    by eexists.
  - done.
  - done.
  - intros c Hc. unfold m'. cbn [InMemory.bvArray InMemory.wipe_input
      InMemory.set_index InMemory.colourIterator]. rewrite H3.
    apply inmemory_release_spec; lia.
Qed.

(** The two query loops run in step on the same rows. *)
Lemma inmemory_query_loop_agrees {buffer_t : Type}
    (getHashVal : buffer_t -> Z -> Z -> Z -> Z) (w : world) (b : bigsi_t)
    (m : InMemory.bigsi_t) (buffer : buffer_t) (len : Z) (hashValues : list Z) :
  same_index w b m ->
  0 < numBits b <= INT_MAX ->
  (∀ (i : nat) (h : Z), hashValues !! i = Some h ->
     hash_location b h
     = to_uint32 (getHashVal buffer len (Z.of_nat i) (numBits b))) ->
  ∀ (n : nat) (i : Z) (result : bitvector_t) (fetched : list Z) (r : bitvector_t),
    0 <= i -> (Z.to_nat i + n <= length hashValues)%nat ->
    (∃ f, query_loop w b hashValues n i result fetched = (QUERY_OK, r, f))
    ↔ InMemory.query_loop getHashVal m buffer len n i result
      = (InMemory.ANSWERED, r).
Proof.
  intros (_ & _ & Hnb & _ & _ & Hrows) Hrange Hhash.
  induction n as [|n IH]; intros i result fetched r Hi Hlen; simpl.
  - split; [intros [f [= <- _]]; done|intros [= <-]; by eexists].
  - destruct (lookup_lt_is_Some_2 hashValues (Z.to_nat i) ltac:(lia)) as [h Hh].
    rewrite Hh, Hnb. pose proof (Hhash _ _ Hh) as Hloc.
    rewrite Z2Nat.id in Hloc by lia. rewrite <- Hloc.
    rewrite (Hrows (hash_location b h)) by (by apply hash_location_range).
    destruct (db_get _ _ _) as [row|];
      [|split; [intros [f [=]]|intros [=]]].
    destruct (bvCount row =? 0).
    { split; [intros [f [= <- _]]; done|intros [= <-]; by eexists]. }
    destruct (i =? 0).
    + destruct (bvBOR result row result) as [r0|];
        [|split; [intros [f [=]]|intros [=]]].
      apply IH; lia.
    + destruct (bvBANDupdate result row) as [r0|];
        [|split; [intros [f [=]]|intros [=]]].
      destruct (bvCount r0 =? 0).
      { split; [intros [f [= <- _]]; done|intros [= <-]; by eexists]. }
      apply IH; lia.
Qed.

(** The two versions of bigsQuery on the same frozen index, the first
    given the hash values that [getHashVal] computes for the k-mer of the
    second.  On an empty result vector of capacity [colourIterator] one of
    them returns 0 with a result exactly when the other does, with the same
    result.  A result vector with a bit already set, which the first
    version ANDs into the answer, is turned down by the in-memory version
    and left as it is. *)
Theorem inmemory_bigsQuery_agrees {buffer_t : Type}
    (getHashVal : buffer_t -> Z -> Z -> Z -> Z) (w : world) (b : bigsi_t)
    (m : InMemory.bigsi_t) (buffer : buffer_t) (len : Z) (hashValues : list Z)
    (result : bitvector_t) :
  same_index w b m ->
  0 < numBits b <= INT_MAX -> 0 <= numHashes b <= INT_MAX ->
  same_hashes getHashVal b buffer len hashValues ->
  capacity result = colourIterator b ->
  (bvCount result = 0 ->
   ∀ r, (∃ fetched, bigsQuery w b (Some hashValues) (numHashes b) (Some result)
                    = (QUERY_OK, Some r, fetched))
        ↔ InMemory.bigsQuery getHashVal m (Some buffer) len (Some result)
          = (InMemory.ANSWERED, Some r))
  ∧ (bvCount result ≠ 0 ->
     InMemory.bigsQuery getHashVal m (Some buffer) len (Some result)
     = (InMemory.QUERY_FAILED InMemory.ResultNotEmpty, Some result)).
Proof.
  intros Hsame Hnb Hnh [Hlen Hhash] Hcap.
  pose proof Hsame as (Hidx & [rows Hrows] & Hnb' & Hnh' & Hci' & _).
  unfold InMemory.bigsQuery, bigsQuery. rewrite Hrows, Hci', Hcap, Z.eqb_refl.
  unfold INT_MAX in Hnh.
  rewrite Hidx, to_uint32_small, Z.eqb_refl by lia. simpl negb at 1 2 3 4.
  cbv iota. split.
  - intros Hempty r. rewrite Hempty. simpl negb. cbv iota. rewrite Hnh'.
    pose proof (inmemory_query_loop_agrees getHashVal w b m buffer len
                  hashValues Hsame Hnb Hhash (Z.to_nat (numHashes b)) 0
                  result [] r ltac:(lia) ltac:(lia)) as Hloop.
    destruct (query_loop w b hashValues _ 0 result []) as [[st r1] f1].
    destruct (InMemory.query_loop getHashVal m buffer len _ 0 result)
      as [st2 r2].
    split.
    + intros [fetched [= -> <- _]].
      assert (Him : (st2, r2) = (InMemory.ANSWERED, r1))
        by (apply Hloop; by eexists).
      by injection Him as -> ->.
    + intros [= -> <-].
      destruct (proj2 Hloop eq_refl) as [f [= -> -> _]]. by eexists.
  - intros Hne. destruct (Z.eqb_spec (bvCount result) 0); [contradiction|done].
Qed.

(** ** The two versions at S1 *)

Lemma S1_same_build (b : bigsi_t) (m : InMemory.bigsi_t) :
  S1_built = Some b -> S1_inmemory = Some m -> same_build b m.
Proof.
  intros Hb Hm. vm_compute in Hb, Hm.
  injection Hb as <-. injection Hm as <-.
  repeat split; vm_compute; reflexivity.
Qed.

Lemma S1_same_index (b : bigsi_t) (w : world) (m m' : InMemory.bigsi_t) :
  S1_frozen = Some (b, w) -> S1_inmemory = Some m ->
  InMemory.bigsIndex m = (InMemory.INDEXED, m') ->
  same_index w b m'.
Proof.
  intros Hb Hm. vm_compute in Hb, Hm.
  injection Hb as <- <-. injection Hm as <-.
  intros Hm'. vm_compute in Hm'. injection Hm' as <-.
  split; [reflexivity|]. split; [by eexists|].
  split; [reflexivity|]. split; [reflexivity|]. split; [reflexivity|].
  intros i Hi. cbn [numBits] in Hi.
  assert (Hcases : i = 0 ∨ i = 1 ∨ i = 2 ∨ i = 3 ∨ i = 4 ∨ i = 5 ∨ i = 6
                   ∨ i = 7 ∨ i = 8 ∨ i = 9 ∨ i = 10 ∨ i = 11 ∨ i = 12
                   ∨ i = 13 ∨ i = 14 ∨ i = 15) by lia.
  repeat (destruct Hcases as [->|Hcases]; [vm_compute; reflexivity|]).
  subst i. vm_compute. reflexivity.
Qed.

Ltac at_S1_inmemory tac :=
  let v := eval vm_compute in S1_inmemory in
  match v with Some ?m => tac m end.

Lemma inmemory_bigsAdd_agrees_witness :
  ∃ b0 b' m0, bigsInit 16 2 "D" = Some b0
    ∧ bigsAdd INT_MAX b0 S1_batch 2 = (ADD_OK, b')
    ∧ InMemory.bigsInit 16 2 = Some m0
    ∧ ∃ m', InMemory.bigsAdd m0 S1_batch 2 = (ADD_OK, m') ∧ same_build b' m'.
Proof.
  at_S1_init ltac:(fun b0 =>
    at_S1_built ltac:(fun b' =>
      let v := eval vm_compute in (InMemory.bigsInit 16 2) in
      match v with
      | Some ?m0 =>
          exists b0, b', m0; split; [reflexivity|];
          split; [vm_compute; reflexivity|];
          split; [reflexivity|];
          apply (proj1 (inmemory_bigsAdd_agrees INT_MAX b0 m0 S1_batch 2
                          INT_MAX_limit
                          (S1_init_is_built b0 eq_refl)
                          ltac:(repeat split; reflexivity)) b');
          vm_compute; reflexivity
      end)).
Defined.

Lemma inmemory_bigsIndex_agrees_witness :
  ∃ b b' w' m, S1_built = Some b ∧ S1_inmemory = Some m
    ∧ bigsIndex empty_world b = (INDEX_OK, b', w')
    ∧ ∃ m', InMemory.bigsIndex m = (InMemory.INDEXED, m')
        ∧ same_index w' b' m'
        ∧ InMemory.id2colour m' = ∅
        ∧ InMemory.colourArray m' = InMemory.colourArray m.
Proof.
  at_S1_frozen ltac:(fun b b' w' =>
    at_S1_inmemory ltac:(fun m =>
      exists b, b', w', m; split; [vm_compute; reflexivity|];
      split; [vm_compute; reflexivity|];
      split; [vm_compute; reflexivity|];
      destruct (inmemory_bigsIndex_agrees INT_MAX empty_world w' b b' m
                  INT_MAX_limit)
        as (m' & Hm' & Hsame & _ & Hid & Hca & _);
      [apply S1_built_is_built; vm_compute; reflexivity
      |apply S1_same_build; vm_compute; reflexivity
      |vm_compute; reflexivity
      |exists m'; split; [exact Hm'|]; split; [exact Hsame|];
       split; [exact Hid|exact Hca]])).
Defined.

Lemma inmemory_bigsQuery_agrees_witness :
  ∃ b w m m', S1_frozen = Some (b, w) ∧ S1_inmemory = Some m
    ∧ InMemory.bigsIndex m = (InMemory.INDEXED, m')
    ∧ bigsQuery w b (Some [3; 11]) (numHashes b) (Some (bvInit 2))
      = (QUERY_OK, Some [true; false], [3; 11])
    ∧ InMemory.bigsQuery list_hash m' (Some [3; 11]) 2 (Some (bvInit 2))
      = (InMemory.ANSWERED, Some [true; false])
    ∧ InMemory.bigsQuery list_hash m' (Some [3; 11]) 2 (Some [false; true])
      = (InMemory.QUERY_FAILED InMemory.ResultNotEmpty, Some [false; true]).
Proof.
  at_S1_frozen ltac:(fun b0 b w =>
    at_S1_inmemory ltac:(fun m =>
      let v := eval vm_compute in (InMemory.bigsIndex m) in
      match v with
      | (_, ?m') =>
          exists b, w, m, m';
          split; [vm_compute; reflexivity|];
          split; [vm_compute; reflexivity|];
          split; [vm_compute; reflexivity|];
          split; [vm_compute; reflexivity|];
          assert (Hsame : same_index w b m')
            by (apply (S1_same_index b w m m'); vm_compute; reflexivity);
          assert (Hhash : same_hashes list_hash b [3; 11] 2 [3; 11])
            by (split; [reflexivity|];
                intros [|[|i]] h; intros [= <-]; vm_compute; reflexivity);
          split;
          [apply (proj1 (inmemory_bigsQuery_agrees list_hash w b m' [3; 11] 2
                           [3; 11] (bvInit 2) Hsame
                           ltac:(vm_compute; split; [reflexivity|discriminate])
                           ltac:(vm_compute; split; discriminate)
                           Hhash eq_refl) eq_refl [true; false]);
           exists [3; 11]; vm_compute; reflexivity
          |apply (proj2 (inmemory_bigsQuery_agrees list_hash w b m' [3; 11] 2
                           [3; 11] [false; true] Hsame
                           ltac:(vm_compute; split; [reflexivity|discriminate])
                           ltac:(vm_compute; split; discriminate)
                           Hhash eq_refl));
           vm_compute; discriminate]
      end)).
Defined.

(** ** The build phase leaves no trace *)

(** A BIGSI that was built and never frozen cannot be persisted: bigsFlush
    turns it down and writes nothing, bigsDestroy returns 0 without writing
    the metadata, so bigsLoad of any directory gives afterwards what it gave
    before, and every query and colour lookup is turned down as
    unindexed. *)
Theorem built_not_persisted (MAX_COLOURS : Z) (w : world) (b : bigsi_t) :
  0 < MAX_COLOURS <= INT_MAX ->
  built MAX_COLOURS b ->
  bigsFlush w b = (-1, w)
  ∧ bigsDestroy w (Some b) = (0, w)
  ∧ (∀ dbDir, bigsLoad (bigsDestroy w (Some b)).2 dbDir = bigsLoad w dbDir)
  ∧ (∀ hashValues len result,
       bigsQuery w b (Some hashValues) len (Some result)
       = (ERROR_BIGSI_UNINDEXED, Some result, []))
  ∧ (∀ colour result,
       bigsLookupColour w b colour result = (LOOKUP_ERR LookupUnindexed, None)).
Proof.
  intros HM Hbuilt.
  pose proof (built_build_inv MAX_COLOURS HM b Hbuilt) as (_ & _ & Hidx & _).
  unfold bigsFlush, bigsDestroy, bigsQuery, bigsLookupColour. rewrite Hidx.
  simpl. repeat split; done.
Qed.

Lemma built_not_persisted_witness :
  ∃ b, S1_built = Some b
    ∧ bigsFlush empty_world b = (-1, empty_world)
    ∧ bigsDestroy empty_world (Some b) = (0, empty_world).
Proof.
  at_S1_built ltac:(fun b =>
    exists b; split; [vm_compute; reflexivity|];
    destruct (built_not_persisted INT_MAX empty_world b INT_MAX_limit)
      as (Hflush & Hdestroy & _);
    [apply S1_built_is_built; vm_compute; reflexivity
    |split; [exact Hflush|exact Hdestroy]]).
Defined.
